(** * Work tracking engine (OpenCTI, domain/work.js)

    A shallow embedding of the engine that records, updates and
    garbage-collects the "works" submitted to connectors, and the
    properties of it that the specification states.

    The engine talks to two stores: the history index of the search
    server, holding one document per work, and the key-value store
    holding the pair of counters of each work. Both are modelled as
    explicit state threaded through a small state-and-exception monad. *)

From Stdlib Require Import ZArith Lia.
From stdpp Require Import base option list sorting strings pretty gmap.

Local Open Scope Z_scope.
Local Open Scope string_scope.
Local Open Scope list_scope.

(** ** Data model *)

Definition WorkId := string.

(** Instants. The source handles ISO-8601 strings produced by [now()];
    the model keeps the instant they denote, in milliseconds. *)
Definition Time := Z.

(** [status]: 'wait' / 'progress' / 'complete'. *)
Inductive Status := Wait | Progress | Complete.

#[global] Instance Status_eq_dec : EqDecision Status.
Proof. solve_decision. Defined.

Definition status_keyword (s : Status) : string :=
  match s with
  | Wait => "wait"
  | Progress => "progress"
  | Complete => "complete"
  end.

(** An entry of [messages] or [errors]:
    [["timestamp": ..., "message": ..., "source": ...]], the source being
    present only for the errors reported through [reportActionImport]. *)
Record LogEntry := {
  log_timestamp : Time;
  log_message : string;
  log_source : option string;
}.

(** The work document of [createWork]. [entity_type] is the constant
    ENTITY_TYPE_WORK on every document of the modelled index and is left
    implicit. [updated_at] is read by [workToExportFile] and written by
    nothing in this module. *)
Record Work := {
  internal_id : WorkId;
  timestamp : Time;
  name : string;
  event_type : string;
  event_source_id : string;
  user_id : string;
  connector_id : string;
  status : Status;
  received_time : option Time;
  processed_time : option Time;
  completed_time : option Time;
  completed_number : option Z;
  messages : list LogEntry;
  errors : list LogEntry;
  updated_at : option Time;
}.

(** The counter record [workTracing] of [createWork]. *)
Module WorkTracing.
Record t := {
  internal_id : WorkId;
  import_expected_number : Z;
  import_processed_number : Z;
}.
End WorkTracing.

Module Connector.
Record t := {
  id : string;
  internal_id : string;
  connector_type : string;
  name : string;
}.
End Connector.

Module User.
Record t := { id : string }.
End User.

(** [errorData] of [reportActionImport]. *)
Record ErrorData := {
  error : string;
  source : string;
}.

(** The two stores. [history] is the set of work documents of
    INDEX_HISTORY, a document being identified by its [internal_id];
    [redis] maps a work id to its counters. *)
Record Stores := {
  history : list Work;
  redis : gmap WorkId WorkTracing.t;
}.

(** What the host provides at one call: the reading of [now()], the
    instant to which the search server resolves a date-math expression
    ('now-2d/d') at that time, and [sinceNowInMinutes] of utils/format. *)
Record Clock := {
  now : Time;
  date_math : string -> Time;
  sinceNowInMinutes : option Time -> Z;
}.

(** Constants of domain/connector.js, which is not among the sources;
    only their being distinct matters. *)
Definition CONNECTOR_INTERNAL_ENRICHMENT : string := "INTERNAL_ENRICHMENT".
Definition CONNECTOR_INTERNAL_EXPORT_FILE : string := "INTERNAL_EXPORT_FILE".

(** ** The engine monad: state of both stores, and exceptions.
    A thrown error keeps the writes done before it: nothing is rolled
    back. *)

Inductive Error :=
  | DocumentMissing (workId : WorkId)
  | ScanOutOfFuel.

Inductive Result (A : Type) :=
  | Ok (a : A)
  | Throw (e : Error).
Arguments Ok {A} a.
Arguments Throw {A} e.

Definition Engine (A : Type) : Type := Stores -> Result A * Stores.

Definition ret {A} (a : A) : Engine A := fun st => (Ok a, st).

Definition throw {A} (e : Error) : Engine A := fun st => (Throw e, st).

Definition bind {A B} (m : Engine A) (k : A -> Engine B) : Engine B :=
  fun st =>
    match m st with
    | (Ok a, st') => k a st'
    | (Throw e, st') => (Throw e, st')
    end.

Declare Scope engine_scope.
Delimit Scope engine_scope with engine.
Notation "'await!' x := m 'in' k" := (bind m (fun x => k))
  (at level 10, x name, m at level 100, k at level 200) : engine_scope.
Notation "'run!' m 'in' k" := (bind m (fun _ => k))
  (at level 10, m at level 100, k at level 200) : engine_scope.
Local Open Scope engine_scope.

(** Run a computation for its final stores / for its result. *)
Definition exec {A} (m : Engine A) (st : Stores) : Stores := snd (m st).
Definition eval {A} (m : Engine A) (st : Stores) : Result A := fst (m st).

(** ** Record updates of a work document *)

Definition set_status (s : Status) (w : Work) : Work :=
  {| internal_id := internal_id w; timestamp := timestamp w; name := name w;
     event_type := event_type w; event_source_id := event_source_id w;
     user_id := user_id w; connector_id := connector_id w;
     status := s;
     received_time := received_time w; processed_time := processed_time w;
     completed_time := completed_time w; completed_number := completed_number w;
     messages := messages w; errors := errors w; updated_at := updated_at w |}.

Definition set_received_time (t : option Time) (w : Work) : Work :=
  {| internal_id := internal_id w; timestamp := timestamp w; name := name w;
     event_type := event_type w; event_source_id := event_source_id w;
     user_id := user_id w; connector_id := connector_id w;
     status := status w;
     received_time := t; processed_time := processed_time w;
     completed_time := completed_time w; completed_number := completed_number w;
     messages := messages w; errors := errors w; updated_at := updated_at w |}.

Definition set_processed_time (t : option Time) (w : Work) : Work :=
  {| internal_id := internal_id w; timestamp := timestamp w; name := name w;
     event_type := event_type w; event_source_id := event_source_id w;
     user_id := user_id w; connector_id := connector_id w;
     status := status w;
     received_time := received_time w; processed_time := t;
     completed_time := completed_time w; completed_number := completed_number w;
     messages := messages w; errors := errors w; updated_at := updated_at w |}.

Definition set_completed_time (t : option Time) (w : Work) : Work :=
  {| internal_id := internal_id w; timestamp := timestamp w; name := name w;
     event_type := event_type w; event_source_id := event_source_id w;
     user_id := user_id w; connector_id := connector_id w;
     status := status w;
     received_time := received_time w; processed_time := processed_time w;
     completed_time := t; completed_number := completed_number w;
     messages := messages w; errors := errors w; updated_at := updated_at w |}.

Definition set_completed_number (n : option Z) (w : Work) : Work :=
  {| internal_id := internal_id w; timestamp := timestamp w; name := name w;
     event_type := event_type w; event_source_id := event_source_id w;
     user_id := user_id w; connector_id := connector_id w;
     status := status w;
     received_time := received_time w; processed_time := processed_time w;
     completed_time := completed_time w; completed_number := n;
     messages := messages w; errors := errors w; updated_at := updated_at w |}.

Definition add_message (e : LogEntry) (w : Work) : Work :=
  {| internal_id := internal_id w; timestamp := timestamp w; name := name w;
     event_type := event_type w; event_source_id := event_source_id w;
     user_id := user_id w; connector_id := connector_id w;
     status := status w;
     received_time := received_time w; processed_time := processed_time w;
     completed_time := completed_time w; completed_number := completed_number w;
     messages := (messages w ++ [e])%list; errors := errors w; updated_at := updated_at w |}.

Definition add_error (e : LogEntry) (w : Work) : Work :=
  {| internal_id := internal_id w; timestamp := timestamp w; name := name w;
     event_type := event_type w; event_source_id := event_source_id w;
     user_id := user_id w; connector_id := connector_id w;
     status := status w;
     received_time := received_time w; processed_time := processed_time w;
     completed_time := completed_time w; completed_number := completed_number w;
     messages := messages w; errors := (errors w ++ [e])%list; updated_at := updated_at w |}.

(** ** Painless update scripts

    The source assembles a script text and a [params] object; the model
    keeps the statements of the text with the parameter each one reads
    already substituted. *)

Inductive Stmt :=
  | SetStatus (s : Status)                (* ctx._source['status'] = "..." *)
  | SetReceivedTime (t : Time)            (* ctx._source["received_time"] = params.received_time *)
  | SetProcessedTime (t : Time)           (* ctx._source["processed_time"] = params.processed_time *)
  | SetCompletedNumber (n : option Z)     (* ctx._source['completed_number'] = params.completed_number *)
  | SetCompletedTime (t : Time)           (* ctx._source['completed_time'] = params.now *)
  | MessagesAdd (e : LogEntry)            (* ctx._source.messages.add([...]) *)
  | ErrorsAdd (e : LogEntry).             (* ctx._source.errors.add([...]) *)

Definition Script := list Stmt.

Definition run_stmt (s : Stmt) (w : Work) : Work :=
  match s with
  | SetStatus st => set_status st w
  | SetReceivedTime t => set_received_time (Some t) w
  | SetProcessedTime t => set_processed_time (Some t) w
  | SetCompletedNumber n => set_completed_number n w
  | SetCompletedTime t => set_completed_time (Some t) w
  | MessagesAdd e => add_message e w
  | ErrorsAdd e => add_error e w
  end.

Definition run_script (sc : Script) (w : Work) : Work :=
  foldl (fun w s => run_stmt s w) w sc.

(** A work object as the engine hands it around: the fields of the
    stored document, absent when a lookup found none, and the [id]
    property that [loadWorkById] adds. *)
Record JsWork := {
  js_id : option WorkId;
  js_fields : option Work;
}.

Definition js_of_work (w : Work) : JsWork :=
  {| js_id := None; js_fields := Some w |}.

(** [work.internal_id], undefined on an object without that field. *)
Definition js_internal_id (o : JsWork) : option WorkId :=
  internal_id <$> js_fields o.

(** ** The history index (database/elasticSearch) *)

Definition with_history (h : list Work) (st : Stores) : Stores :=
  {| history := h; redis := redis st |}.

Definition with_redis (r : gmap WorkId WorkTracing.t) (st : Stores) : Stores :=
  {| history := history st; redis := r |}.

Definition lookup_work (workId : WorkId) (h : list Work) : option Work :=
  head (filter (fun w => internal_id w = workId) h).

(** Modelled from the spec: WorkStore [insert(record)]; the helper
    [elIndex] is not among the sources. The document is filed under its
    [internal_id] and replaces one filed under the same id. *)
Definition elIndex (work : Work) : Engine unit :=
  fun st =>
    (Ok tt,
     with_history
       (work :: filter (fun w => internal_id w <> internal_id work) (history st)) st).

(** Modelled from the spec: WorkStore [getById(jobId) -> record | null]
    ("lookup of a nonexistent job returns null"); the helper
    [elLoadByIds] is not among the sources. *)
Definition elLoadByIds (workId : WorkId) : Engine (option Work) :=
  fun st => (Ok (lookup_work workId (history st)), st).

(** Modelled from the spec: WorkStore [atomicUpdate(jobId, scriptBody,
    params)], "a single atomic read-modify-write against one record";
    the helper [elUpdate] is not among the sources. Updating a document
    that does not exist fails ("all atomic-update failures are fatal for
    that call"). *)
Definition elUpdate (workId : WorkId) (script : Script) : Engine unit :=
  fun st =>
    match lookup_work workId (history st) with
    | Some _ =>
        (Ok tt,
         with_history
           ((fun w => if decide (internal_id w = workId)
                      then run_script script w else w) <$> history st) st)
    | None => (Throw (DocumentMissing workId), st)
    end.

(** Modelled from the spec: WorkStore [deleteByRecords([record...])];
    the helper [elDeleteInstanceIds] is not among the sources. Each
    record designates the document of its [internal_id]; a record
    designating no stored document deletes nothing ("deletion of a
    nonexistent job is a no-op success"). *)
Definition elDeleteInstanceIds (instances : list JsWork) : Engine unit :=
  fun st =>
    (Ok tt,
     with_history
       (filter (fun w => internal_id w ∉ omap js_internal_id instances)
               (history st)) st).

(** *** Listings *)

(** [{ key, values }] of the [filters] of a listing. *)
Record Filter := {
  key : string;
  values : list string;
}.

(** Constant of schema/internalObject.js, which is not among the
    sources; its value matters only to a caller that filters on
    [entity_type]. *)
Definition ENTITY_TYPE_WORK : string := "work".

(** What a work document holds under the key of a filter, for each
    field of the [work] literal of [createWork] and for [updated_at]; a
    field that is null holds nothing. The values of a filter are texts:
    an instant or a number is written in decimal. *)
Definition filter_attr (k : string) (w : Work) : option string :=
  if decide (k = "event_source_id") then Some (event_source_id w)
  else if decide (k = "event_type") then Some (event_type w)
  else if decide (k = "connector_id") then Some (connector_id w)
  else if decide (k = "internal_id") then Some (internal_id w)
  else if decide (k = "name") then Some (name w)
  else if decide (k = "entity_type") then Some ENTITY_TYPE_WORK
  else if decide (k = "user_id") then Some (user_id w)
  else if decide (k = "status") then Some (status_keyword (status w))
  else if decide (k = "timestamp") then Some (pretty (timestamp w))
  else if decide (k = "received_time") then pretty <$> received_time w
  else if decide (k = "processed_time") then pretty <$> processed_time w
  else if decide (k = "completed_time") then pretty <$> completed_time w
  else if decide (k = "completed_number") then pretty <$> completed_number w
  else if decide (k = "updated_at") then pretty <$> updated_at w
  else None.

(** What the entries of a log hold under a key. *)
Definition log_attr (k : string) (l : LogEntry) : option string :=
  if decide (k = "timestamp") then Some (pretty (log_timestamp l))
  else if decide (k = "message") then Some (log_message l)
  else if decide (k = "source") then log_source l
  else None.

(** What a work document holds under the key of a field of its logs
    ([messages.message], [errors.source], ...): the values of the field
    in all the entries of the log. *)
Definition filter_log_attr (k : string) (w : Work) : list string :=
  if decide (k = "messages.timestamp") then omap (log_attr "timestamp") (messages w)
  else if decide (k = "messages.message") then omap (log_attr "message") (messages w)
  else if decide (k = "messages.source") then omap (log_attr "source") (messages w)
  else if decide (k = "errors.timestamp") then omap (log_attr "timestamp") (errors w)
  else if decide (k = "errors.message") then omap (log_attr "message") (errors w)
  else if decide (k = "errors.source") then omap (log_attr "source") (errors w)
  else [].

(** A filter [{ key, values }] passes a document that holds one of the
    [values] under [key]; a document that holds nothing under [key]
    does not pass. *)
Definition filter_matches (f : Filter) (w : Work) : bool :=
  match filter_attr (key f) w with
  | Some v => bool_decide (v ∈ values f)
  | None => existsb (fun v => bool_decide (v ∈ values f)) (filter_log_attr (key f) w)
  end.

Definition date_attr (field : string) (w : Work) : option Time :=
  if decide (field = "timestamp") then Some (timestamp w)
  else if decide (field = "received_time") then received_time w
  else if decide (field = "processed_time") then processed_time w
  else if decide (field = "completed_time") then completed_time w
  else None.

(** The sort value of a document on a date field; a document without
    the field sorts last in descending order. *)
Definition sort_value (field : string) (w : Work) : Z :=
  default (-9223372036854775808) (date_attr field w).

(** [desc field w1 w2]: [w1] may come before [w2] in descending order. *)
Definition desc (field : string) (w1 w2 : Work) : Prop :=
  sort_value field w2 <= sort_value field w1.

#[global] Instance desc_dec field w1 w2 : Decision (desc field w1 w2).
Proof. unfold desc. apply _. Defined.

Definition sort_desc (field : string) (l : list Work) : list Work :=
  merge_sort (desc field) l.

Record PaginateArgs := {
  orderBy : string;
  first : nat;
  filters : list Filter;
}.

(** Modelled from the spec: WorkStore [paginate(filters, orderBy,
    orderMode, first, cursor?) -> [record]]; the helper [elPaginate] is
    not among the sources. Every call of this module asks for the works
    ([type]), in descending order ([orderMode: 'desc']) and as a plain
    list ([connectionFormat: false]): the documents passing every
    filter, sorted, cut to the [first] ones. *)
Definition elPaginate (args : PaginateArgs) : Engine (list Work) :=
  fun st =>
    (Ok (take (first args)
           (sort_desc (orderBy args)
              (filter (fun w => forallb (fun f => filter_matches f w) (filters args) = true)
                      (history st)))),
     st).

(** *** Searches of the retention scan *)

(** The clauses of [query.bool.must]. *)
Inductive Clause :=
  | MatchPhrase (field value : string)
  | RangeLte (field bound : string).

Definition keyword_attr (field : string) (w : Work) : option string :=
  if decide (field = "connector_id.keyword") then Some (connector_id w)
  else if decide (field = "status.keyword") then Some (status_keyword (status w))
  else None.

Definition clause_matches (clk : Clock) (c : Clause) (w : Work) : bool :=
  match c with
  | MatchPhrase field value => bool_decide (keyword_attr field w = Some value)
  | RangeLte field bound =>
      match date_attr field w with
      | Some t => bool_decide (t <= date_math clk bound)
      | None => false
      end
  end.

Definition query_matches (clk : Clock) (query : list Clause) (w : Work) : bool :=
  forallb (fun c => clause_matches clk c w) query.

(** [{ query, size, sort: [{ <sort_field>: { order: 'desc' } }],
      search_after: [<cursor>] }]. *)
Record SearchBody := {
  query : list Clause;
  size : nat;
  sort_field : string;
  search_after : option Z;
}.

(** One hit of a search: the document and its sort values. *)
Record Hit := {
  _source : Work;
  sort : list Z;
}.

(** [worksToDelete.body.hits]: the hits of the page and, with
    [track_total_hits], the number of documents that match the query. *)
Record SearchHits := {
  hits : list Hit;
  total_value : nat;
}.

(** [el.search]: the search server's answer to a body, from the server's
    documented behaviour: the documents matching the query, in
    descending order of the sort field; with [search_after], only the
    documents that sort strictly after the cursor; cut to [size] hits. *)
Definition search_page (clk : Clock) (body : SearchBody) (h : list Work) : list Work :=
  let matching := filter (fun w => query_matches clk (query body) w = true) h in
  let sorted := sort_desc (sort_field body) matching in
  let page :=
    match search_after body with
    | Some cursor => filter (fun w => sort_value (sort_field body) w < cursor) sorted
    | None => sorted
    end in
  take (size body) page.

Definition el_search (clk : Clock) (body : SearchBody) : Engine SearchHits :=
  fun st =>
    (Ok {| hits :=
             (fun w => {| _source := w; sort := [sort_value (sort_field body) w] |})
               <$> search_page clk body (history st);
           total_value :=
             length (filter (fun w => query_matches clk (query body) w = true)
                       (history st)) |},
     st).

(** ** The counter store (database/redis) *)

(** Modelled from the spec: CounterStore [create(jobId, expected,
    processed)]; the helper [redisCreateWork] is not among the sources. *)
Definition redisCreateWork (element : WorkTracing.t) : Engine unit :=
  fun st =>
    (Ok tt, with_redis (<[WorkTracing.internal_id element := element]> (redis st)) st).

(** Modelled from the spec: CounterStore [delete(jobId | [jobId...])];
    the helper [redisDeleteWork] is not among the sources. *)
Definition redisDeleteWork (ids : list WorkId) : Engine unit :=
  fun st => (Ok tt, with_redis (foldr delete (redis st) ids) st).

(** Modelled from the spec: CounterStore [get(jobId) -> {expected,
    processed}]; the helper [redisGetWork] is not among the sources. A
    work without counters yields an object without the two fields. *)
Definition redisGetWork (workId : WorkId) : Engine (option WorkTracing.t) :=
  fun st => (Ok (redis st !! workId), st).

(** [{ isComplete, total }]. *)
Record Figures := {
  isComplete : bool;
  total : option Z;
}.

(** Modelled from the spec: CounterStore [incrementAndCompare(jobId) ->
    {isComplete, total}], one atomic operation: "increment
    processedCount and report whether processedCount == expectedCount,
    plus the new total"; the helper [redisUpdateWorkFigures] is not
    among the sources. For a work without counters, on which the spec is
    silent, the model leaves the store as it is and reports no
    completion. *)
Definition redisUpdateWorkFigures (workId : WorkId) : Engine Figures :=
  fun st =>
    match redis st !! workId with
    | Some t =>
        let pn := WorkTracing.import_processed_number t + 1 in
        let t' := {| WorkTracing.internal_id := WorkTracing.internal_id t;
                     WorkTracing.import_expected_number := WorkTracing.import_expected_number t;
                     WorkTracing.import_processed_number := pn |} in
        (Ok {| isComplete := bool_decide (pn = WorkTracing.import_expected_number t);
               total := Some pn |},
         with_redis (<[workId := t']> (redis st)) st)
    | None => (Ok {| isComplete := false; total := None |}, st)
    end.

(** ** database/utils *)

(** Modelled from the spec: "only if message is non-empty"; the helper
    [isNotEmptyField] is not among the sources. An absent message and
    the empty text are empty. *)
Definition isNotEmptyField (field : option string) : bool :=
  match field with
  | Some s => negb (bool_decide (s = ""))
  | None => false
  end.

(** ** The engine (domain/work.js) *)

Module ExportFile.
Record MetaData := {
  messages : list LogEntry;
  errors : list LogEntry;
}.
Record t := {
  id : WorkId;
  name : string;
  size : Z;
  lastModified : Time;
  lastModifiedSinceMin : Z;
  uploadStatus : Status;
  metaData : MetaData;
}.
End ExportFile.

(** [moment(work.updated_at).toDate()] is the present instant for a work
    without [updated_at]. *)
Definition workToExportFile (clk : Clock) (work : Work) : ExportFile.t :=
  {| ExportFile.id := internal_id work;
     ExportFile.name := if decide (name work = "") then "Unknown" else name work;
     ExportFile.size := 0;
     ExportFile.lastModified := default (now clk) (updated_at work);
     ExportFile.lastModifiedSinceMin := sinceNowInMinutes clk (updated_at work);
     ExportFile.uploadStatus := status work;
     ExportFile.metaData :=
       {| ExportFile.messages := messages work;
          ExportFile.errors := errors work |} |}.

(** [args] of [worksForSource]; an absent field takes its default. *)
Record SourceArgs := {
  args_first : option nat;
  args_filters : option (list Filter);
  args_type : option string;
}.

Definition no_args : SourceArgs :=
  {| args_first := None; args_filters := None; args_type := None |}.

Definition worksForSource (sourceId : string) (args : SourceArgs) : Engine (list Work) :=
  let first := default 10%nat (args_first args) in
  let filters := default [] (args_filters args) in
  let basicFilters := [{| key := "event_source_id"; values := [sourceId] |}] in
  let basicFilters :=
    match args_type args with
    | Some type =>
        if decide (type = "") then basicFilters
        else (basicFilters ++ [{| key := "event_type"; values := [type] |}])%list
    | None => basicFilters
    end in
  elPaginate {| orderBy := "timestamp"; first := first;
                filters := (basicFilters ++ filters)%list |}.

Definition loadExportWorksAsProgressFiles (clk : Clock) (sourceId : string)
  : Engine (list ExportFile.t) :=
  await! works :=
    worksForSource sourceId
      {| args_first := Some 10%nat; args_filters := None;
         args_type := Some CONNECTOR_INTERNAL_EXPORT_FILE |} in
  let filterSuccessCompleted :=
    filter (fun w => status w <> Complete \/ (0 < length (errors w))%nat) works in
  ret (workToExportFile clk <$> filterSuccessCompleted).

(** [R.assoc('id', workId, action)]: on [null], an object with the [id]
    property alone. *)
Definition loadWorkById (workId : WorkId) : Engine JsWork :=
  await! action := elLoadByIds workId in
  ret {| js_id := Some workId; js_fields := action |}.

Definition deleteWorkRaw (work : JsWork) : Engine (option WorkId) :=
  run! elDeleteInstanceIds [work] in
  run! redisDeleteWork (option_list (js_internal_id work)) in
  ret (js_internal_id work).

Definition deleteWork (workId : WorkId) : Engine (option WorkId) :=
  await! work := loadWorkById workId in
  deleteWorkRaw work.

(** [Promise.all(R.map(...))]: the deletions, one work after the other. *)
Fixpoint delete_all (works : list Work) : Engine unit :=
  match works with
  | [] => ret tt
  | w :: works' =>
      run! deleteWorkRaw (js_of_work w) in
      delete_all works'
  end.

Definition deleteWorkForFile (fileId : string) : Engine bool :=
  await! works := worksForSource fileId no_args in
  run! delete_all works in
  ret true.

(** *** The retention scan *)

Definition paginationCount : nat := 500.

Definition rangeToKeep (connector : Connector.t) : string :=
  if decide (Connector.connector_type connector = CONNECTOR_INTERNAL_ENRICHMENT)
  then "now-2d/d" else "now-30d/d".

Definition retention_query (connector : Connector.t) : list Clause :=
  [ MatchPhrase "connector_id.keyword" (Connector.id connector);
    MatchPhrase "status.keyword" "complete";
    RangeLte "completed_time" (rangeToKeep connector) ].

(** [if (searchAfter)]: the cursor is [''] before the first page, then
    the sort value of the last hit; [''], [undefined] and [0] are falsy. *)
Definition truthy_cursor (searchAfter : option Z) : option Z :=
  match searchAfter with
  | Some c => if decide (c = 0) then None else Some c
  | None => None
  end.

(** The [while (hasNextPage)] loop, one page per unit of fuel. The
    source writes [counter] and [totalToDelete] to the log after each
    page; the model returns their values when the loop ends. *)
Fixpoint scan_pages (fuel : nat) (clk : Clock) (query : list Clause)
    (counter : nat) (searchAfter : option Z) (totalToDelete : option nat)
  : Engine (nat * option nat) :=
  match fuel with
  | O => throw ScanOutOfFuel
  | S fuel' =>
      let body := {| query := query; size := paginationCount;
                     sort_field := "completed_time";
                     search_after := truthy_cursor searchAfter |} in
      await! worksToDelete := el_search clk body in
      let hits := hits worksToDelete in
      let valTotal := total_value worksToDelete in
      let totalToDelete :=
        match totalToDelete with
        | None => Some valTotal
        | Some _ => totalToDelete
        end in
      match hits with
      | [] => ret (counter, totalToDelete)
      | _ :: _ =>
          let counter := (counter + length hits)%nat in
          let searchAfter := last hits ≫= (fun lastHit => head (sort lastHit)) in
          let works := _source <$> hits in
          let ids := internal_id <$> works in
          run! redisDeleteWork ids in
          run! elDeleteInstanceIds (js_of_work <$> works) in
          scan_pages fuel' clk query counter searchAfter totalToDelete
      end
  end.

(** Every page but the last deletes at least one document, so one unit
    of fuel per stored document and one more for the empty page are
    enough ([deleteOldCompletedWorks_returns]). *)
Definition scan_fuel (st : Stores) : nat := S (length (history st)).

Definition deleteOldCompletedWorks (clk : Clock) (connector : Connector.t)
  : Engine unit :=
  fun st =>
    (run! scan_pages (scan_fuel st) clk (retention_query connector) 0%nat None None
     in ret tt) st.

(** *** Creation *)

(** [args] of [createWork]. A [receivedTime] that is supplied is a
    non-empty text, hence truthy. *)
Record CreateArgs := {
  receivedTime : option Time;
}.

(** The [work] literal of [createWork]; [workId] is the identifier that
    [generateWorkId()] issues for this call. *)
Definition new_work (clk : Clock) (workId : WorkId) (user : User.t)
    (connector : Connector.t) (friendlyName : string) (sourceId : string)
    (receivedTime : option Time) : Work :=
  {| internal_id := workId;
     timestamp := now clk;
     name := friendlyName;
     event_type := Connector.connector_type connector;
     event_source_id := sourceId;
     user_id := User.id user;
     connector_id := Connector.internal_id connector;
     status := match receivedTime with Some _ => Progress | None => Wait end;
     received_time := receivedTime;
     processed_time := None;
     completed_time := None;
     completed_number := Some 0;
     messages := [];
     errors := [];
     updated_at := None |}.

(** The [workTracing] literal of [createWork]. *)
Definition new_workTracing (workId : WorkId) : WorkTracing.t :=
  {| WorkTracing.internal_id := workId;
     WorkTracing.import_expected_number := 0;
     WorkTracing.import_processed_number := 0 |}.

Definition createWork (clk : Clock) (workId : WorkId) (user : User.t)
    (connector : Connector.t) (friendlyName : string) (sourceId : string)
    (args : CreateArgs) : Engine JsWork :=
  run! deleteOldCompletedWorks clk connector in
  let receivedTime := receivedTime args in
  let work := new_work clk workId user connector friendlyName sourceId receivedTime in
  let workTracing := new_workTracing workId in
  run! redisCreateWork workTracing in
  run! elIndex work in
  loadWorkById workId.

(** *** Progress reports *)

(** The numbers that [parseInt] returns: NaN, an infinity, or a finite
    double; the finite doubles that arise from counters are integers. *)
Inductive Number :=
  | NaN
  | Infinity (negative : bool)
  | Num (z : Z).

(** The double nearest to the integer [z], ties to the even significand:
    an integer of at most 53 significant bits is itself; a longer one
    loses its low bits, and one that rounds to 2^1024 or beyond is an
    infinity. *)
Definition round_to_double (z : Z) : Number :=
  let a := Z.abs z in
  let k := Z.log2 a - 52 in
  if (k <=? 0)%Z then Num z
  else
    let q := Z.shiftr a k in
    let r := Z.land a (Z.ones k) in
    let half := Z.shiftl 1 (k - 1) in
    let q' := if (half <? r)%Z || ((r =? half)%Z && Z.odd q) then q + 1 else q in
    let m := Z.shiftl q' k in
    if (2 ^ 1024 <=? m)%Z then Infinity (z <? 0)%Z else Num (Z.sgn z * m).

(** [parseInt(x, 10)] of a counter field: the double nearest to the
    counter, and NaN for the field of a work without counters. *)
Definition parseInt (x : option Z) : Number :=
  match x with
  | Some z => round_to_double z
  | None => NaN
  end.

(** [===] on the results of [parseInt]: NaN equals nothing. *)
Definition strict_equal (a b : Number) : bool :=
  match a, b with
  | Num x, Num y => bool_decide (x = y)
  | Infinity s1, Infinity s2 => bool_decide (s1 = s2)
  | _, _ => false
  end.

Definition isWorkCompleted (workId : WorkId) : Engine Figures :=
  await! figures := redisGetWork workId in
  let pn := WorkTracing.import_processed_number <$> figures in
  let en := WorkTracing.import_expected_number <$> figures in
  ret {| isComplete := strict_equal (parseInt pn) (parseInt en); total := pn |}.

(** The script of [reportActionImport] for the figures the counter store
    reported. *)
Definition action_script (timestamp : Time) (figures : Figures)
    (errorData : option ErrorData) : Script :=
  ((if isComplete figures
    then [SetStatus Complete; SetCompletedNumber (total figures);
          SetCompletedTime timestamp]
    else [])
   ++
   match errorData with
   | Some e => [ErrorsAdd {| log_timestamp := timestamp; log_message := error e;
                             log_source := Some (source e) |}]
   | None => []
   end)%list.

(** [reportActionImport] after [await redisUpdateWorkFigures(workId)]. *)
Definition reportActionImport_update (timestamp : Time) (workId : WorkId)
    (errorData : option ErrorData) (figures : Figures) : Engine WorkId :=
  if isComplete figures || bool_decide (is_Some errorData)
  then
    run! elUpdate workId (action_script timestamp figures errorData) in
    ret workId
  else ret workId.

Definition reportActionImport (clk : Clock) (user : User.t) (workId : WorkId)
    (errorData : option ErrorData) : Engine WorkId :=
  let timestamp := now clk in
  await! figures := redisUpdateWorkFigures workId in
  reportActionImport_update timestamp workId errorData figures.

Definition received_script (received_time : Time) (message : option string) : Script :=
  ([SetStatus Progress; SetReceivedTime received_time]
   ++
   (if isNotEmptyField message
    then [MessagesAdd {| log_timestamp := received_time;
                         log_message := default "" message;
                         log_source := None |}]
    else []))%list.

Definition updateReceivedTime (clk : Clock) (user : User.t) (workId : WorkId)
    (message : option string) : Engine WorkId :=
  run! elUpdate workId (received_script (now clk) message) in
  ret workId.

Definition processed_script (processed_time : Time) (figures : Figures)
    (message : option string) (inError : bool) : Script :=
  ([SetProcessedTime processed_time]
   ++
   (if isComplete figures
    then [SetStatus Complete; SetCompletedNumber (total figures);
          SetCompletedTime processed_time]
    else [])
   ++
   (if isNotEmptyField message
    then
      let entry := {| log_timestamp := processed_time;
                      log_message := default "" message;
                      log_source := None |} in
      if inError then [ErrorsAdd entry] else [MessagesAdd entry]
    else []))%list.

Definition updateProcessedTime (clk : Clock) (user : User.t) (workId : WorkId)
    (message : option string) (inError : bool) : Engine WorkId :=
  await! figures := isWorkCompleted workId in
  run! elUpdate workId (processed_script (now clk) figures message inError) in
  ret workId.

(** ** Sequences of calls *)

(** One call of the engine by a worker or a caller. *)
Inductive Op :=
  | CreateWork (clk : Clock) (workId : WorkId) (user : User.t)
      (connector : Connector.t) (friendlyName sourceId : string) (args : CreateArgs)
  | ReportReceived (clk : Clock) (user : User.t) (workId : WorkId)
      (message : option string)
  | ReportProcessed (clk : Clock) (user : User.t) (workId : WorkId)
      (message : option string) (inError : bool)
  | ReportAction (clk : Clock) (user : User.t) (workId : WorkId)
      (errorData : option ErrorData).

(** The stores after one call. A call that throws leaves the stores as
    they are at the throw. *)
Definition call (op : Op) (st : Stores) : Stores :=
  match op with
  | CreateWork clk workId user connector friendlyName sourceId args =>
      exec (createWork clk workId user connector friendlyName sourceId args) st
  | ReportReceived clk user workId message =>
      exec (updateReceivedTime clk user workId message) st
  | ReportProcessed clk user workId message inError =>
      exec (updateProcessedTime clk user workId message inError) st
  | ReportAction clk user workId errorData =>
      exec (reportActionImport clk user workId errorData) st
  end.

(** The stores after a sequence of calls, one after the other. *)
Definition calls (ops : list Op) (st : Stores) : Stores :=
  foldl (fun st op => call op st) st ops.

(** Wait < Progress < Complete. *)
Definition rank (s : Status) : Z :=
  match s with
  | Wait => 0
  | Progress => 1
  | Complete => 2
  end.

Definition status_of (workId : WorkId) (st : Stores) : option Status :=
  status <$> lookup_work workId (history st).

(** [issues workId op]: [op] is a creation that is issued [workId]. *)
Definition issues (workId : WorkId) (op : Op) : Prop :=
  match op with
  | CreateWork _ i _ _ _ _ _ => i = workId
  | _ => False
  end.

(** [received_before_complete workId ops st]: along the calls [ops]
    from [st], no [updateReceivedTime] reaches the work [workId] while
    its status is 'complete'. *)
Fixpoint received_before_complete (workId : WorkId) (ops : list Op) (st : Stores) : Prop :=
  match ops with
  | [] => True
  | op :: ops' =>
      match op with
      | ReportReceived _ _ i _ => i = workId -> status_of workId st <> Some Complete
      | _ => True
      end /\ received_before_complete workId ops' (call op st)
  end.

(** ** Concurrent calls of [reportActionImport]

    Workers call [reportActionImport] concurrently. A call awaits twice:
    on the atomic operation of the counter store, then on the atomic
    update of the index. Between the two, the calls of the other
    workers may run. A call is modelled by its stage, the system by the
    stages of all the calls and the stores they share, and an
    interleaving by the list of the calls that move, in order. *)

Record ActionCall := {
  call_clock : Clock;
  call_user : User.t;
  call_work : WorkId;
  call_errorData : option ErrorData;
}.

Inductive Stage :=
  | Started (c : ActionCall)                       (* before [await redisUpdateWorkFigures] *)
  | Counted (c : ActionCall) (figures : Figures)   (* before [await elUpdate], if any *)
  | Returned (c : ActionCall) (r : Result WorkId).

Definition stage_call (s : Stage) : ActionCall :=
  match s with
  | Started c => c
  | Counted c _ => c
  | Returned c _ => c
  end.

(** An update that the index has applied. *)
Record Write := {
  write_work : WorkId;
  write_script : Script;
}.

(** One atomic move of a call: the new stage, the stores, and the update
    applied to the index, if any. *)
Definition advance (s : Stage) (st : Stores) : Stage * Stores * list Write :=
  match s with
  | Started c =>
      match redisUpdateWorkFigures (call_work c) st with
      | (Ok figures, st') => (Counted c figures, st', [])
      | (Throw e, st') => (Returned c (Throw e), st', [])
      end
  | Counted c figures =>
      let timestamp := now (call_clock c) in
      match reportActionImport_update timestamp (call_work c) (call_errorData c)
              figures st with
      | (Ok r, st') =>
          (Returned c (Ok r), st',
           if isComplete figures || bool_decide (is_Some (call_errorData c))
           then [{| write_work := call_work c;
                    write_script := action_script timestamp figures (call_errorData c) |}]
           else [])
      | (Throw e, st') => (Returned c (Throw e), st', [])
      end
  | Returned _ _ => (s, st, [])
  end.

Record System := {
  stages : list Stage;
  stores : Stores;
  writes : list Write;
}.

(** The call number [i] moves. *)
Definition schedule_step (i : nat) (sys : System) : System :=
  match stages sys !! i with
  | Some s =>
      let '(s', st', ws) := advance s (stores sys) in
      {| stages := <[i := s']> (stages sys); stores := st';
         writes := writes sys ++ ws |}
  | None => sys
  end.

Definition interleave (schedule : list nat) (sys : System) : System :=
  foldl (fun sys i => schedule_step i sys) sys schedule.

Definition start (cs : list ActionCall) (st : Stores) : System :=
  {| stages := Started <$> cs; stores := st; writes := [] |}.

Definition is_Returned (s : Stage) : Prop :=
  match s with
  | Returned _ _ => True
  | _ => False
  end.

(** How far a call has come: 0 before the counter store, 1 between the
    two stores, 2 once returned. *)
Definition stage_rank (s : Stage) : nat :=
  match s with
  | Started _ => 0
  | Counted _ _ => 1
  | Returned _ _ => 2
  end.

(** The number of moves that the schedule gives to the call number [i]. *)
Definition moves (i : nat) (schedule : list nat) : nat :=
  length (filter (fun j => j = i) schedule).

(** The schedule lets each of the [n] calls make its two moves. *)
Definition runs_to_end (n : nat) (schedule : list nat) : Prop :=
  forall i, (i < n)%nat -> (2 <= moves i schedule)%nat.

Definition sets_complete (s : Stmt) : bool :=
  match s with
  | SetStatus Complete => true
  | _ => false
  end.

(** The write finalizes the work [workId]: it sets its status to
    'complete'. *)
Definition completes (workId : WorkId) (w : Write) : bool :=
  bool_decide (write_work w = workId) && existsb sets_complete (write_script w).

(** The number of times the index was told to finalize [workId]. *)
Definition completions (workId : WorkId) (log : list Write) : nat :=
  length (filter (fun w => completes workId w = true) log).

(** The number of calls on [workId]. *)
Definition calls_on (workId : WorkId) (cs : list ActionCall) : nat :=
  length (filter (fun c => call_work c = workId) cs).

(** 1 for a call on [workId] that has passed the counter store. *)
Definition counted_on (workId : WorkId) (s : Stage) : nat :=
  match s with
  | Started _ => 0
  | _ => if decide (call_work (stage_call s) = workId) then 1 else 0
  end.

(** 1 for a call on [workId] that was told of the completion and has
    not yet updated the index. *)
Definition pending_on (workId : WorkId) (s : Stage) : nat :=
  match s with
  | Counted c figures =>
      if decide (call_work c = workId)
      then (if isComplete figures then 1 else 0)
      else 0
  | _ => 0
  end.

Definition told_total (workId : WorkId) (e : Z) (s : Stage) : Prop :=
  match s with
  | Counted c figures =>
      call_work c = workId -> isComplete figures = true -> total figures = Some e
  | _ => True
  end.

(** The invariant of the interleavings, for a work [workId] whose
    counters read expected = [e] and processed = [p0] and whose record
    is [w0] at the start. *)
Definition race_invariant (workId : WorkId) (e p0 : Z) (w0 : Work)
    (cs : list ActionCall) (sys : System) : Prop :=
  stage_call <$> stages sys = cs /\
  exists t w,
    redis (stores sys) !! workId = Some t /\
    WorkTracing.import_expected_number t = e /\
    WorkTracing.import_processed_number t =
      p0 + Z.of_nat (sum_list (counted_on workId <$> stages sys)) /\
    lookup_work workId (history (stores sys)) = Some w /\
    (sum_list (pending_on workId <$> stages sys) + completions workId (writes sys))%nat =
      (if decide (p0 < e <= WorkTracing.import_processed_number t)%Z
       then 1 else 0)%nat /\
    Forall (told_total workId e) (stages sys) /\
    ((1 <= completions workId (writes sys))%nat ->
     status w = Complete /\ completed_number w = Some e) /\
    (completions workId (writes sys) = 0%nat ->
     status w = status w0 /\ completed_number w = completed_number w0).

(** ** Effects on the stores *)

(** What one call of the scan does to the stores: it removes the
    documents and the counters of a list [ids] of identifiers, each the
    identifier of a stored document that matches the query. *)
Definition scan_effect (clk : Clock) (query : list Clause) (st st' : Stores) : Prop :=
  exists ids : list WorkId,
    history st' = filter (fun w => internal_id w ∉ ids) (history st) /\
    redis st' = foldr delete (redis st) ids /\
    forall i, i ∈ ids ->
      exists w, w ∈ history st /\ internal_id w = i /\ query_matches clk query w = true.

(** The stores after [createWork], from the stores [st1] that the
    retention scan leaves. *)
Definition created (clk : Clock) (workId : WorkId) (user : User.t)
    (connector : Connector.t) (friendlyName sourceId : string)
    (args : CreateArgs) (st1 : Stores) : Stores :=
  {| history :=
       new_work clk workId user connector friendlyName sourceId (receivedTime args)
       :: filter (fun w => internal_id w <> workId) (history st1);
     redis := <[workId := new_workTracing workId]> (redis st1) |}.

(** [removed ids st st']: [st'] is [st] without the documents and the
    counters of the identifiers [ids]. *)
Definition removed (ids : list WorkId) (st st' : Stores) : Prop :=
  history st' = filter (fun w => internal_id w ∉ ids) (history st) /\
  forall i, redis st' !! i = if decide (i ∈ ids) then None else redis st !! i.

(** ** Other listings and lookups of the engine *)

(** [args] of [worksForConnector]. *)
Record ConnectorArgs := {
  cargs_first : option nat;
  cargs_filters : option (list Filter);
}.

(** [filters.push(...)] writes into the array that [args] carries, when
    it carries one: beside the works, the model returns [args] as the
    call leaves it to the caller. Without [args.filters] the array is a
    fresh one and the caller sees nothing. *)
Definition worksForConnector (connectorId : string) (args : ConnectorArgs)
  : Engine (list Work * ConnectorArgs) :=
  let first := default 10%nat (cargs_first args) in
  let filters :=
    default [] (cargs_filters args)
    ++ [{| key := "connector_id"; values := [connectorId] |}] in
  await! works := elPaginate {| orderBy := "timestamp"; first := first;
                                filters := filters |} in
  ret (works,
       {| cargs_first := cargs_first args;
          cargs_filters := (fun _ => filters) <$> cargs_filters args |}).

(** [loadConnectorById] of domain/connector.js is not among the sources;
    it is taken as the registry it reads. *)
Definition connectorForWork (loadConnectorById : string -> option Connector.t)
    (id : WorkId) : Engine (option Connector.t) :=
  await! work := elLoadByIds id in
  match work with
  | Some w => ret (loadConnectorById (connector_id w))
  | None => ret None
  end.

(** ** Commands: the calls that report, and the calls that delete *)

Inductive Command :=
  | Call (op : Op)
  | DeleteWork (workId : WorkId)
  | DeleteWorkForFile (fileId : string)
  | DeleteOldCompletedWorks (clk : Clock) (connector : Connector.t).

Definition command (c : Command) (st : Stores) : Stores :=
  match c with
  | Call op => call op st
  | DeleteWork workId => exec (deleteWork workId) st
  | DeleteWorkForFile fileId => exec (deleteWorkForFile fileId) st
  | DeleteOldCompletedWorks clk connector =>
      exec (deleteOldCompletedWorks clk connector) st
  end.

Definition commands (cs : list Command) (st : Stores) : Stores :=
  foldl (fun st c => command c st) st cs.

(** Every [reportActionImport] of the sequence is called on a work that
    has counters at the time of the call. *)
Fixpoint reports_on_counted_works (cs : list Command) (st : Stores) : Prop :=
  match cs with
  | [] => True
  | c :: cs =>
      match c with
      | Call (ReportAction _ _ workId _) => is_Some (redis st !! workId)
      | _ => True
      end /\ reports_on_counted_works cs (command c st)
  end.

(** The documents of the index have distinct identifiers. *)
Definition unique_ids (st : Stores) : Prop :=
  NoDup (internal_id <$> history st).

(** A work has a record exactly when it has counters. *)
Definition paired (st : Stores) : Prop :=
  forall i, is_Some (lookup_work i (history st)) <-> is_Some (redis st !! i).

(** [w'] is a later state of the record [w]: the fields that identify
    the work are the same, and the logs have only grown at their end. *)
Definition later_state (w w' : Work) : Prop :=
  internal_id w' = internal_id w /\
  timestamp w' = timestamp w /\
  name w' = name w /\
  event_type w' = event_type w /\
  event_source_id w' = event_source_id w /\
  user_id w' = user_id w /\
  connector_id w' = connector_id w /\
  updated_at w' = updated_at w /\
  messages w `prefix_of` messages w' /\
  errors w `prefix_of` errors w'.

(** [op] is one of the three reports. *)
Definition is_report (op : Op) : Prop :=
  match op with
  | CreateWork _ _ _ _ _ _ _ => False
  | _ => True
  end.

(** The work that a report is about. *)
Definition report_work (op : Op) : WorkId :=
  match op with
  | CreateWork _ workId _ _ _ _ _ => workId
  | ReportReceived _ _ workId _ => workId
  | ReportProcessed _ _ workId _ _ => workId
  | ReportAction _ _ workId _ => workId
  end.

(** The number of [reportActionImport] calls on [workId] among [ops]. *)
Fixpoint action_reports (workId : WorkId) (ops : list Op) : nat :=
  match ops with
  | [] => 0
  | ReportAction _ _ i _ :: ops' =>
      ((if decide (i = workId) then 1 else 0) + action_reports workId ops')%nat
  | _ :: ops' => action_reports workId ops'
  end.

(** [op] is a [reportActionImport] call on [workId]. *)
Definition is_action_on (workId : WorkId) (op : Op) : Prop :=
  match op with
  | ReportAction _ _ i _ => i = workId
  | _ => False
  end.

(** * The schema of the cyber observables (schema/stixCyberObservable.js) *)

Definition ENTITY_AUTONOMOUS_SYSTEM : string := "Autonomous-System".
Definition ENTITY_DIRECTORY : string := "Directory".
Definition ENTITY_DOMAIN_NAME : string := "Domain-Name".
Definition ENTITY_EMAIL_ADDR : string := "Email-Addr".
Definition ENTITY_EMAIL_MESSAGE : string := "Email-Message".
Definition ENTITY_EMAIL_MIME_PART_TYPE : string := "Email-Mime-Part-Type".
Definition ENTITY_HASHED_OBSERVABLE_ARTIFACT : string := "Artifact".
Definition ENTITY_HASHED_OBSERVABLE_STIX_FILE : string := "StixFile".
Definition ENTITY_HASHED_OBSERVABLE_X509_CERTIFICATE : string := "X509-Certificate".
Definition ENTITY_IPV4_ADDR : string := "IPv4-Addr".
Definition ENTITY_IPV6_ADDR : string := "IPv6-Addr".
Definition ENTITY_MAC_ADDR : string := "Mac-Addr".
Definition ENTITY_MUTEX : string := "Mutex".
Definition ENTITY_NETWORK_TRAFFIC : string := "Network-Traffic".
Definition ENTITY_PROCESS : string := "Process".
Definition ENTITY_SOFTWARE : string := "Software".
Definition ENTITY_URL : string := "Url".
Definition ENTITY_USER_ACCOUNT : string := "User-Account".
Definition ENTITY_WINDOWS_REGISTRY_KEY : string := "Windows-Registry-Key".
Definition ENTITY_WINDOWS_REGISTRY_VALUE_TYPE : string := "Windows-Registry-Value-Type".
Definition ENTITY_X509_V3_EXTENSIONS_TYPE : string := "X509-V3-Extensions-Type".
Definition ENTITY_X_OPENCTI_CRYPTOGRAPHIC_KEY : string := "X-OpenCTI-Cryptographic-Key".
Definition ENTITY_X_OPENCTI_CRYPTOGRAPHIC_WALLET : string := "X-OpenCTI-Cryptocurrency-Wallet".
Definition ENTITY_X_OPENCTI_HOSTNAME : string := "X-OpenCTI-Hostname".
Definition ENTITY_X_OPENCTI_TEXT : string := "X-OpenCTI-Text".
Definition ENTITY_X_OPENCTI_USER_AGENT : string := "X-OpenCTI-User-Agent".

Definition STIX_CYBER_OBSERVABLES_HASHED_OBSERVABLES : list string :=
  [ENTITY_HASHED_OBSERVABLE_ARTIFACT;
   ENTITY_HASHED_OBSERVABLE_STIX_FILE;
   ENTITY_HASHED_OBSERVABLE_X509_CERTIFICATE].

Definition STIX_CYBER_OBSERVABLES : list string :=
  [ENTITY_AUTONOMOUS_SYSTEM;
   ENTITY_DIRECTORY;
   ENTITY_DOMAIN_NAME;
   ENTITY_EMAIL_ADDR;
   ENTITY_EMAIL_MESSAGE;
   ENTITY_EMAIL_MIME_PART_TYPE;
   ENTITY_HASHED_OBSERVABLE_ARTIFACT;
   ENTITY_HASHED_OBSERVABLE_STIX_FILE;
   ENTITY_HASHED_OBSERVABLE_X509_CERTIFICATE;
   ENTITY_X509_V3_EXTENSIONS_TYPE;
   ENTITY_IPV4_ADDR;
   ENTITY_IPV6_ADDR;
   ENTITY_MAC_ADDR;
   ENTITY_MUTEX;
   ENTITY_NETWORK_TRAFFIC;
   ENTITY_PROCESS;
   ENTITY_SOFTWARE;
   ENTITY_URL;
   ENTITY_USER_ACCOUNT;
   ENTITY_WINDOWS_REGISTRY_KEY;
   ENTITY_WINDOWS_REGISTRY_VALUE_TYPE;
   ENTITY_X_OPENCTI_CRYPTOGRAPHIC_KEY;
   ENTITY_X_OPENCTI_CRYPTOGRAPHIC_WALLET;
   ENTITY_X_OPENCTI_HOSTNAME;
   ENTITY_X_OPENCTI_USER_AGENT;
   ENTITY_X_OPENCTI_TEXT].

(** [R.includes(type, list)] on type names. *)
Definition isStixCyberObservableHashedObservable (type : string) : bool :=
  bool_decide (type ∈ STIX_CYBER_OBSERVABLES_HASHED_OBSERVABLES).

(** [ABSTRACT_STIX_CYBER_OBSERVABLE] is a constant of schema/general.js,
    which is not among the sources: it is an argument here. *)
Definition isStixCyberObservable (ABSTRACT_STIX_CYBER_OBSERVABLE : string)
    (type : string) : bool :=
  bool_decide (type ∈ STIX_CYBER_OBSERVABLES)
  || bool_decide (type = ABSTRACT_STIX_CYBER_OBSERVABLE).

(** An object literal with computed keys, in the order written. *)
Definition JsObject (V : Type) : Type := list (string * V).

(** [obj[key]]: the value of the last entry written under [key], if
    any. *)
Fixpoint js_get {V} (obj : JsObject V) (key : string) : option V :=
  match obj with
  | [] => None
  | (k, v) :: rest =>
      match js_get rest key with
      | Some v' => Some v'
      | None => if decide (k = key) then Some v else None
      end
  end.

(** The fields of an observable that an upsert may update, by type. *)
Definition stixCyberObservableFieldsToBeUpdated : JsObject (list string) :=
  [
   (ENTITY_AUTONOMOUS_SYSTEM,
     ["x_opencti_description"; "x_opencti_score"; "number"; "name"; "rir"]);
   (ENTITY_DIRECTORY,
     ["x_opencti_description"; "x_opencti_score"; "path"; "path_enc"; "ctime"; "mtime";
      "atime"]);
   (ENTITY_DOMAIN_NAME,
     ["x_opencti_description"; "x_opencti_score"; "value"]);
   (ENTITY_EMAIL_ADDR,
     ["x_opencti_description"; "x_opencti_score"; "value"; "display_name"]);
   (ENTITY_EMAIL_MESSAGE,
     ["x_opencti_description"; "x_opencti_score"; "is_multipart"; "attribute_date";
      "content_type"; "message_id"; "subject"; "received_lines"; "body"]);
   (ENTITY_EMAIL_MIME_PART_TYPE,
     ["x_opencti_description"; "x_opencti_score"; "body"; "content_type";
      "content_disposition"]);
   (ENTITY_HASHED_OBSERVABLE_ARTIFACT,
     ["x_opencti_description"; "x_opencti_score"; "hashes"; "payload_bin"; "url";
      "encryption_algorithm"; "decryption_key"]);
   (ENTITY_HASHED_OBSERVABLE_STIX_FILE,
     ["x_opencti_description"; "x_opencti_score"; "hashes"; "extensions"; "size";
      "name"; "name_enc"; "magic_number_hex"; "ctime"; "mtime"; "atime";
      "x_opencti_additional_names"]);
   (ENTITY_HASHED_OBSERVABLE_X509_CERTIFICATE,
     ["x_opencti_description"; "x_opencti_score"; "is_self_signed"; "version";
      "serial_number"; "signature_algorithm"; "issuer"; "validity_not_before";
      "validity_not_after"; "subject"; "subject_public_key_algorithm";
      "subject_public_key_modulus"; "subject_public_key_exponent"]);
   (ENTITY_IPV4_ADDR,
     ["x_opencti_description"; "x_opencti_score"; "value"]);
   (ENTITY_IPV6_ADDR,
     ["x_opencti_description"; "x_opencti_score"; "value"]);
   (ENTITY_MAC_ADDR,
     ["x_opencti_description"; "x_opencti_score"; "value"]);
   (ENTITY_MUTEX,
     ["x_opencti_description"; "x_opencti_score"; "name"]);
   (ENTITY_NETWORK_TRAFFIC,
     ["x_opencti_description"; "x_opencti_score"; "extensions"; "start"; "end";
      "is_active"; "src_port"; "dst_port"; "protocols"; "src_byte_count";
      "dst_byte_count"; "src_packets"; "dst_packets"]);
   (ENTITY_PROCESS,
     ["x_opencti_description"; "x_opencti_score"; "extensions"; "is_hidden"; "pid";
      "created_time"; "cwd"; "command_line"; "environment_variables"]);
   (ENTITY_SOFTWARE,
     ["x_opencti_description"; "x_opencti_score"; "name"; "cpe"; "swid"; "languages";
      "vendor"; "version"]);
   (ENTITY_URL,
     ["x_opencti_description"; "x_opencti_score"; "value"]);
   (ENTITY_USER_ACCOUNT,
     ["x_opencti_description"; "x_opencti_score"; "extensions"; "user_id";
      "credential"; "account_login"; "account_type"; "display_name";
      "is_service_account"; "is_privileged"; "can_escalate_privs"; "is_disabled";
      "account_created"; "account_expires"; "credential_last_changed";
      "account_first_login"; "account_last_login"]);
   (ENTITY_WINDOWS_REGISTRY_KEY,
     ["x_opencti_description"; "x_opencti_score"; "attribute_key"; "modified_time";
      "number_of_subkeys"]);
   (ENTITY_WINDOWS_REGISTRY_VALUE_TYPE,
     ["x_opencti_description"; "x_opencti_score"; "name"; "data"; "data_type"]);
   (ENTITY_X509_V3_EXTENSIONS_TYPE,
     ["x_opencti_description"; "x_opencti_score"; "basic_constraints";
      "name_constraints"; "policy_constraints"; "key_usage"; "extended_key_usage";
      "subject_key_identifier"; "authority_key_identifier"; "subject_alternative_name";
      "issuer_alternative_name"; "subject_directory_attributes";
      "crl_distribution_points"; "inhibit_any_policy";
      "private_key_usage_period_not_before"; "private_key_usage_period_not_after";
      "certificate_policies"; "policy_mappings"]);
   (ENTITY_X_OPENCTI_CRYPTOGRAPHIC_KEY,
     ["x_opencti_description"; "x_opencti_score"; "value"]);
   (ENTITY_X_OPENCTI_CRYPTOGRAPHIC_WALLET,
     ["x_opencti_description"; "x_opencti_score"; "value"]);
   (ENTITY_X_OPENCTI_HOSTNAME,
     ["x_opencti_description"; "x_opencti_score"; "value"]);
   (ENTITY_X_OPENCTI_TEXT,
     ["x_opencti_description"; "x_opencti_score"; "value"]);
   (ENTITY_X_OPENCTI_USER_AGENT,
     ["x_opencti_description"; "x_opencti_score"; "value"])
  ].

(** The attributes registered for each type of observable. *)
Definition stixCyberObservablesAttributes : JsObject (list string) :=
  [
   (ENTITY_AUTONOMOUS_SYSTEM,
     ["internal_id"; "standard_id"; "entity_type"; "x_opencti_stix_ids";
      "spec_version"; "created_at"; "i_created_at_day"; "i_created_at_month";
      "i_created_at_year"; "updated_at"; "x_opencti_description"; "x_opencti_score";
      "number"; "name"; "rir"]);
   (ENTITY_DIRECTORY,
     ["internal_id"; "standard_id"; "entity_type"; "x_opencti_stix_ids";
      "spec_version"; "created_at"; "i_created_at_day"; "i_created_at_month";
      "i_created_at_year"; "updated_at"; "x_opencti_description"; "x_opencti_score";
      "path"; "path_enc"; "ctime"; "mtime"; "atime"]);
   (ENTITY_DOMAIN_NAME,
     ["internal_id"; "standard_id"; "entity_type"; "x_opencti_stix_ids";
      "spec_version"; "created_at"; "i_created_at_day"; "i_created_at_month";
      "i_created_at_year"; "updated_at"; "x_opencti_description"; "x_opencti_score";
      "value"]);
   (ENTITY_EMAIL_ADDR,
     ["internal_id"; "standard_id"; "entity_type"; "x_opencti_stix_ids";
      "spec_version"; "created_at"; "i_created_at_day"; "i_created_at_month";
      "i_created_at_year"; "updated_at"; "x_opencti_description"; "x_opencti_score";
      "value"; "display_name"]);
   (ENTITY_EMAIL_MESSAGE,
     ["internal_id"; "standard_id"; "entity_type"; "x_opencti_stix_ids";
      "spec_version"; "created_at"; "i_created_at_day"; "i_created_at_month";
      "i_created_at_year"; "updated_at"; "x_opencti_description"; "x_opencti_score";
      "is_multipart"; "attribute_date"; "content_type"; "message_id"; "subject";
      "received_lines"; "body"]);
   (ENTITY_EMAIL_MIME_PART_TYPE,
     ["internal_id"; "standard_id"; "entity_type"; "x_opencti_stix_ids";
      "spec_version"; "created_at"; "i_created_at_day"; "i_created_at_month";
      "i_created_at_year"; "updated_at"; "x_opencti_description"; "x_opencti_score";
      "body"; "content_type"; "content_disposition"]);
   (ENTITY_HASHED_OBSERVABLE_ARTIFACT,
     ["internal_id"; "standard_id"; "entity_type"; "x_opencti_stix_ids";
      "spec_version"; "created_at"; "i_created_at_day"; "i_created_at_month";
      "i_created_at_year"; "updated_at"; "x_opencti_description"; "x_opencti_score";
      "hashes"; "payload_bin"; "url"; "encryption_algorithm"; "decryption_key"]);
   (ENTITY_HASHED_OBSERVABLE_STIX_FILE,
     ["internal_id"; "standard_id"; "entity_type"; "x_opencti_stix_ids";
      "spec_version"; "created_at"; "i_created_at_day"; "i_created_at_month";
      "i_created_at_year"; "updated_at"; "x_opencti_description"; "x_opencti_score";
      "hashes"; "extensions"; "size"; "name"; "name_enc"; "magic_number_hex"; "ctime";
      "mtime"; "atime"; "x_opencti_additional_names"]);
   (ENTITY_HASHED_OBSERVABLE_X509_CERTIFICATE,
     ["internal_id"; "standard_id"; "entity_type"; "x_opencti_stix_ids";
      "spec_version"; "created_at"; "i_created_at_day"; "i_created_at_month";
      "i_created_at_year"; "updated_at"; "x_opencti_description"; "x_opencti_score";
      "is_self_signed"; "version"; "serial_number"; "signature_algorithm"; "issuer";
      "validity_not_before"; "validity_not_after"; "subject";
      "subject_public_key_algorithm"; "subject_public_key_modulus";
      "subject_public_key_exponent"]);
   (ENTITY_IPV4_ADDR,
     ["internal_id"; "standard_id"; "entity_type"; "x_opencti_stix_ids";
      "spec_version"; "created_at"; "i_created_at_day"; "i_created_at_month";
      "i_created_at_year"; "updated_at"; "x_opencti_description"; "x_opencti_score";
      "value"]);
   (ENTITY_IPV6_ADDR,
     ["internal_id"; "standard_id"; "entity_type"; "x_opencti_stix_ids";
      "spec_version"; "created_at"; "i_created_at_day"; "i_created_at_month";
      "i_created_at_year"; "updated_at"; "x_opencti_description"; "x_opencti_score";
      "value"]);
   (ENTITY_MAC_ADDR,
     ["internal_id"; "standard_id"; "entity_type"; "x_opencti_stix_ids";
      "spec_version"; "created_at"; "i_created_at_day"; "i_created_at_month";
      "i_created_at_year"; "updated_at"; "x_opencti_description"; "x_opencti_score";
      "value"]);
   (ENTITY_MUTEX,
     ["internal_id"; "standard_id"; "entity_type"; "x_opencti_stix_ids";
      "spec_version"; "created_at"; "i_created_at_day"; "i_created_at_month";
      "i_created_at_year"; "updated_at"; "x_opencti_description"; "x_opencti_score";
      "name"]);
   (ENTITY_NETWORK_TRAFFIC,
     ["internal_id"; "standard_id"; "entity_type"; "x_opencti_stix_ids";
      "spec_version"; "created_at"; "i_created_at_day"; "i_created_at_month";
      "i_created_at_year"; "updated_at"; "x_opencti_description"; "x_opencti_score";
      "extensions"; "start"; "end"; "is_active"; "src_port"; "dst_port"; "protocols";
      "src_byte_count"; "dst_byte_count"; "src_packets"; "dst_packets"]);
   (ENTITY_PROCESS,
     ["internal_id"; "standard_id"; "entity_type"; "x_opencti_stix_ids";
      "spec_version"; "created_at"; "i_created_at_day"; "i_created_at_month";
      "i_created_at_year"; "updated_at"; "x_opencti_description"; "x_opencti_score";
      "extensions"; "is_hidden"; "pid"; "created_time"; "cwd"; "command_line";
      "environment_variables"]);
   (ENTITY_SOFTWARE,
     ["internal_id"; "standard_id"; "entity_type"; "x_opencti_stix_ids";
      "spec_version"; "created_at"; "i_created_at_day"; "i_created_at_month";
      "i_created_at_year"; "updated_at"; "x_opencti_description"; "x_opencti_score";
      "name"; "cpe"; "swid"; "languages"; "vendor"; "version"]);
   (ENTITY_URL,
     ["internal_id"; "standard_id"; "entity_type"; "x_opencti_stix_ids";
      "spec_version"; "created_at"; "i_created_at_day"; "i_created_at_month";
      "i_created_at_year"; "updated_at"; "x_opencti_description"; "x_opencti_score";
      "value"]);
   (ENTITY_USER_ACCOUNT,
     ["internal_id"; "standard_id"; "entity_type"; "x_opencti_stix_ids";
      "spec_version"; "created_at"; "i_created_at_day"; "i_created_at_month";
      "i_created_at_year"; "updated_at"; "x_opencti_description"; "x_opencti_score";
      "extensions"; "user_id"; "credential"; "account_login"; "account_type";
      "display_name"; "is_service_account"; "is_privileged"; "can_escalate_privs";
      "is_disabled"; "account_created"; "account_expires"; "credential_last_changed";
      "account_first_login"; "account_last_login"]);
   (ENTITY_WINDOWS_REGISTRY_KEY,
     ["internal_id"; "standard_id"; "entity_type"; "x_opencti_stix_ids";
      "spec_version"; "created_at"; "i_created_at_day"; "i_created_at_month";
      "i_created_at_year"; "updated_at"; "x_opencti_description"; "x_opencti_score";
      "attribute_key"; "modified_time"; "number_of_subkeys"]);
   (ENTITY_WINDOWS_REGISTRY_VALUE_TYPE,
     ["internal_id"; "standard_id"; "entity_type"; "x_opencti_stix_ids";
      "spec_version"; "created_at"; "i_created_at_day"; "i_created_at_month";
      "i_created_at_year"; "updated_at"; "x_opencti_description"; "x_opencti_score";
      "name"; "data"; "data_type"]);
   (ENTITY_X509_V3_EXTENSIONS_TYPE,
     ["internal_id"; "standard_id"; "entity_type"; "x_opencti_stix_ids";
      "spec_version"; "created_at"; "i_created_at_day"; "i_created_at_month";
      "i_created_at_year"; "updated_at"; "x_opencti_description"; "x_opencti_score";
      "basic_constraints"; "name_constraints"; "policy_constraints"; "key_usage";
      "extended_key_usage"; "subject_key_identifier"; "authority_key_identifier";
      "subject_alternative_name"; "issuer_alternative_name";
      "subject_directory_attributes"; "crl_distribution_points"; "inhibit_any_policy";
      "private_key_usage_period_not_before"; "private_key_usage_period_not_after";
      "certificate_policies"; "policy_mappings"]);
   (ENTITY_X_OPENCTI_CRYPTOGRAPHIC_KEY,
     ["internal_id"; "standard_id"; "entity_type"; "x_opencti_stix_ids";
      "spec_version"; "created_at"; "i_created_at_day"; "i_created_at_month";
      "i_created_at_year"; "updated_at"; "x_opencti_description"; "x_opencti_score";
      "value"]);
   (ENTITY_X_OPENCTI_CRYPTOGRAPHIC_WALLET,
     ["internal_id"; "standard_id"; "entity_type"; "x_opencti_stix_ids";
      "spec_version"; "created_at"; "i_created_at_day"; "i_created_at_month";
      "i_created_at_year"; "updated_at"; "x_opencti_description"; "x_opencti_score";
      "value"]);
   (ENTITY_X_OPENCTI_HOSTNAME,
     ["internal_id"; "standard_id"; "entity_type"; "x_opencti_stix_ids";
      "spec_version"; "created_at"; "i_created_at_day"; "i_created_at_month";
      "i_created_at_year"; "updated_at"; "x_opencti_description"; "x_opencti_score";
      "value"]);
   (ENTITY_X_OPENCTI_TEXT,
     ["internal_id"; "standard_id"; "entity_type"; "x_opencti_stix_ids";
      "spec_version"; "created_at"; "i_created_at_day"; "i_created_at_month";
      "i_created_at_year"; "updated_at"; "x_opencti_description"; "x_opencti_score";
      "value"]);
   (ENTITY_X_OPENCTI_USER_AGENT,
     ["internal_id"; "standard_id"; "entity_type"; "x_opencti_stix_ids";
      "spec_version"; "created_at"; "i_created_at_day"; "i_created_at_month";
      "i_created_at_year"; "updated_at"; "x_opencti_description"; "x_opencti_score";
      "value"])
  ].

(** ** Sample data for the scenarios *)

Definition sample_clock : Clock :=
  {| now := 1000; date_math := fun _ => 500; sinceNowInMinutes := fun _ => 0 |}.

Definition sample_user : User.t := {| User.id := "user-1" |}.

Definition sample_connector : Connector.t :=
  {| Connector.id := "connector-1"; Connector.internal_id := "connector-1";
     Connector.connector_type := "EXTERNAL_IMPORT"; Connector.name := "importer" |}.

Definition empty_stores : Stores := {| history := []; redis := ∅ |}.

Definition work_id (n : nat) : WorkId := "work-" +:+ pretty n.

(** A completed work of [sample_connector] on source [src], created and
    completed at instant [t]. *)
Definition completed_work (n : nat) (src : string) (t : Time) : Work :=
  {| internal_id := work_id n; timestamp := t; name := "f.csv";
     event_type := "EXTERNAL_IMPORT"; event_source_id := src;
     user_id := "user-1"; connector_id := "connector-1";
     status := Complete; received_time := Some t; processed_time := Some t;
     completed_time := Some t; completed_number := Some 0;
     messages := []; errors := []; updated_at := None |}.

(** Stores holding the given works, each with its counters. *)
Definition stores_of (works : list Work) : Stores :=
  {| history := works;
     redis := list_to_map
                ((fun w => (internal_id w, new_workTracing (internal_id w))) <$> works) |}.

(** Eleven works on one source, created at instants 0 to 10. *)
Definition eleven_works : Stores :=
  stores_of ((fun n => completed_work n "src1" (Z.of_nat n)) <$> seq 0 11).

(** 501 works of one connector, completed at or before the retention
    horizon 500 of [sample_clock]: works 2 to 500 at the instants 2 to
    500, works 0 and 1 both at the instant 1. *)
Definition tied_works : Stores :=
  stores_of ((fun n => completed_work n "src1" (Z.max 1 (Z.of_nat n))) <$> seq 0 501).

(** A work waiting for its first report, with three sub-items expected
    and none processed. *)
Definition waiting_work : Work :=
  new_work sample_clock "work-1" sample_user sample_connector "f.csv" "src1" None.

Definition three_expected : WorkTracing.t :=
  {| WorkTracing.internal_id := "work-1";
     WorkTracing.import_expected_number := 3;
     WorkTracing.import_processed_number := 0 |}.

Definition counting_stores : Stores :=
  {| history := [waiting_work]; redis := {[ "work-1" := three_expected ]} |}.

(** Three workers report one processed sub-item each on "work-1". *)
Definition three_calls : list ActionCall :=
  replicate 3 {| call_clock := sample_clock; call_user := sample_user;
                 call_work := "work-1"; call_errorData := None |}.

(** A received report, a processed report and three action reports on
    "work-1". *)
Definition sample_reports : list Op :=
  [ReportReceived sample_clock sample_user "work-1" (Some "received");
   ReportProcessed sample_clock sample_user "work-1" None false;
   ReportAction sample_clock sample_user "work-1" None;
   ReportAction sample_clock sample_user "work-1" None;
   ReportAction sample_clock sample_user "work-1" None].

(** Counters of "work-1" whose record is gone from the index. *)
Definition orphan_counters : Stores :=
  {| history := []; redis := {[ "work-1" := three_expected ]} |}.

(** Three action reports on "work-1". *)
Definition three_reports : list Op :=
  replicate 3 (ReportAction sample_clock sample_user "work-1" None).

(** A creation, a report and the three deletions. *)
Definition sample_commands : list Command :=
  [Call (CreateWork sample_clock "work-2" sample_user sample_connector "g.csv" "src2"
           {| receivedTime := Some 900 |});
   Call (ReportAction sample_clock sample_user "work-2" None);
   DeleteWork "work-1";
   DeleteWorkForFile "src2";
   DeleteOldCompletedWorks sample_clock sample_connector].

(** Three completed works of [sample_connector] on the source "src1",
    all completed before the horizon of [sample_clock]. *)
Definition three_works : Stores :=
  stores_of ((fun n => completed_work n "src1" (Z.of_nat n)) <$> seq 0 3).

(** Counters beyond 2^53: one sub-item short of the expected count. *)
Definition rounding_stores : Stores :=
  {| history := [waiting_work];
     redis := {[ "work-1" :=
                   {| WorkTracing.internal_id := "work-1";
                      WorkTracing.import_expected_number := 9007199254740993;
                      WorkTracing.import_processed_number := 9007199254740992 |} ]} |}.

(** * Properties *)

(** ** The monad *)

Lemma bind_Ok {A B} (m : Engine A) (k : A -> Engine B) st a st' :
  m st = (Ok a, st') -> bind m k st = k a st'.
Proof. intros H. unfold bind. by rewrite H. Qed.

Lemma bind_Throw {A B} (m : Engine A) (k : A -> Engine B) st e st' :
  m st = (Throw e, st') -> bind m k st = (Throw e, st').
Proof. intros H. unfold bind. by rewrite H. Qed.

Lemma exec_then_ret {A B} (m : Engine A) (b : B) st :
  exec (run! m in ret b) st = exec m st.
Proof. unfold exec, bind. by destruct (m st) as [[a|e] st']. Qed.

Lemma with_history_id st : with_history (history st) st = st.
Proof. by destruct st. Qed.

Lemma with_redis_id st : with_redis (redis st) st = st.
Proof. by destruct st. Qed.

(** ** Documents and scripts *)

Lemma run_stmt_internal_id s w : internal_id (run_stmt s w) = internal_id w.
Proof. by destruct s. Qed.

Lemma run_script_internal_id sc w : internal_id (run_script sc w) = internal_id w.
Proof.
  unfold run_script. revert w.
  induction sc as [|s sc IH]; intros w; simpl; [done|].
  by rewrite IH, run_stmt_internal_id.
Qed.

Lemma run_script_app sc1 sc2 w :
  run_script (sc1 ++ sc2) w = run_script sc2 (run_script sc1 w).
Proof. unfold run_script. apply foldl_app. Qed.

(** ** Lookups in the history index *)

Lemma lookup_work_cons i w h :
  lookup_work i (w :: h) =
    if decide (internal_id w = i) then Some w else lookup_work i h.
Proof.
  unfold lookup_work. rewrite filter_cons.
  by destruct (decide (internal_id w = i)).
Qed.

Lemma lookup_work_Some i h w :
  lookup_work i h = Some w -> w ∈ h /\ internal_id w = i.
Proof.
  induction h as [|x h IH]; [done|].
  rewrite lookup_work_cons. destruct (decide (internal_id x = i)) as [E|E].
  - intros [= ->]. split; [left|done].
  - intros H. destruct (IH H) as [? ?]. split; [by right|done].
Qed.


Lemma lookup_work_fmap (f : Work -> Work) i h :
  (forall w, internal_id (f w) = internal_id w) ->
  lookup_work i (f <$> h) = f <$> lookup_work i h.
Proof.
  intros Hf. induction h as [|x h IH]; [done|].
  rewrite fmap_cons, !lookup_work_cons, Hf.
  by destruct (decide (internal_id x = i)).
Qed.

(** Filtering the documents on their identifier keeps or drops all the
    documents of one identifier together. *)
Lemma lookup_work_filter_ids (P : WorkId -> Prop) `{!forall i, Decision (P i)} i h :
  lookup_work i (filter (fun w => P (internal_id w)) h) =
    if decide (P i) then lookup_work i h else None.
Proof.
  induction h as [|x h IH].
  - by destruct (decide (P i)).
  - rewrite filter_cons. destruct (decide (P (internal_id x))) as [Hx|Hx].
    + rewrite !lookup_work_cons, IH.
      destruct (decide (internal_id x = i)) as [<-|]; [|done].
      by destruct (decide (P (internal_id x))).
    + rewrite IH, lookup_work_cons.
      destruct (decide (internal_id x = i)) as [<-|]; [|done].
      by destruct (decide (P (internal_id x))).
Qed.

(** ** The store operations, one by one *)

Lemma elUpdate_found workId script st w :
  lookup_work workId (history st) = Some w ->
  elUpdate workId script st =
    (Ok tt,
     with_history
       ((fun w => if decide (internal_id w = workId)
                  then run_script script w else w) <$> history st) st).
Proof. intros H. unfold elUpdate. by rewrite H. Qed.

Lemma elUpdate_missing workId script st :
  lookup_work workId (history st) = None ->
  elUpdate workId script st = (Throw (DocumentMissing workId), st).
Proof. intros H. unfold elUpdate. by rewrite H. Qed.

Lemma lookup_work_updated workId script i h :
  lookup_work i
    ((fun w => if decide (internal_id w = workId)
               then run_script script w else w) <$> h) =
  (if decide (i = workId) then run_script script else id) <$> lookup_work i h.
Proof.
  induction h as [|x h IH].
  - by destruct (decide (i = workId)).
  - rewrite fmap_cons, !lookup_work_cons.
    destruct (decide (internal_id x = workId)) as [E|E].
    + rewrite run_script_internal_id.
      destruct (decide (internal_id x = i)) as [E'|E']; [|done].
      simpl. rewrite decide_True by congruence. done.
    + destruct (decide (internal_id x = i)) as [E'|E']; [|done].
      simpl. rewrite decide_False by congruence. done.
Qed.

Lemma lookup_work_elUpdate workId script st w :
  lookup_work workId (history st) = Some w ->
  lookup_work workId (history (exec (elUpdate workId script) st)) =
    Some (run_script script w).
Proof.
  intros H. unfold exec. rewrite (elUpdate_found _ _ _ _ H). simpl.
  rewrite lookup_work_updated, H. simpl. by rewrite decide_True.
Qed.

(** ** The retention scan *)

Lemma elem_of_sort_desc field (l : list Work) x : x ∈ sort_desc field l <-> x ∈ l.
Proof. unfold sort_desc. by rewrite merge_sort_Permutation. Qed.

Lemma elem_of_take_inv {A} (x : A) n l : x ∈ take n l -> x ∈ l.
Proof. rewrite elem_of_take. intros (i & Hi & _). by eapply list_elem_of_lookup_2. Qed.

Lemma elem_of_search_page clk body h x :
  x ∈ search_page clk body h ->
  x ∈ h /\ query_matches clk (query body) x = true.
Proof.
  unfold search_page. intros Hx.
  apply elem_of_take_inv in Hx.
  assert (x ∈ sort_desc (sort_field body)
            (filter (fun w => query_matches clk (query body) w = true) h)) as Hs.
  { destruct (search_after body); [|done].
    by apply list_elem_of_filter in Hx as [_ Hx]. }
  apply elem_of_sort_desc, list_elem_of_filter in Hs as [? ?]. done.
Qed.

Lemma omap_js_of_work (works : list Work) :
  omap js_internal_id (js_of_work <$> works) = internal_id <$> works.
Proof. induction works as [|w works IH]; [done|]. simpl. f_equal. exact IH. Qed.

Lemma filter_not_in_app (ids1 ids2 : list WorkId) (h : list Work) :
  filter (fun w => internal_id w ∉ ids2) (filter (fun w => internal_id w ∉ ids1) h) =
  filter (fun w => internal_id w ∉ ids2 ++ ids1) h.
Proof.
  rewrite list_filter_filter. apply list_filter_iff. intros w.
  rewrite not_elem_of_app. tauto.
Qed.

Lemma filter_not_in_nil (h : list Work) :
  filter (fun w => internal_id w ∉ @nil WorkId) h = h.
Proof.
  induction h as [|w h IH]; [done|].
  rewrite filter_cons_True by apply not_elem_of_nil. by f_equal.
Qed.

Lemma scan_pages_spec fuel clk query : forall counter searchAfter totalToDelete st,
  (length (history st) < fuel)%nat ->
  exists r st',
    scan_pages fuel clk query counter searchAfter totalToDelete st = (Ok r, st') /\
    scan_effect clk query st st'.
Proof.
  induction fuel as [|fuel IH]; intros counter searchAfter totalToDelete st Hfuel; [lia|].
  cbn [scan_pages].
  set (body := {| query := query; size := paginationCount;
                  sort_field := "completed_time";
                  search_after := truthy_cursor searchAfter |}).
  unfold bind at 1. unfold el_search. cbn [hits total_value].
  destruct (search_page clk body (history st)) as [|x page] eqn:Hpage.
  - simpl. eexists _, st. split; [done|]. exists []. repeat split.
    + by rewrite filter_not_in_nil.
    + intros i Hi. by apply elem_of_nil in Hi.
  - rewrite fmap_cons.
    set (hits := {| _source := x; sort := [sort_value (sort_field body) x] |}
                 :: ((fun w => {| _source := w; sort := [sort_value (sort_field body) w] |})
                       <$> page)).
    assert (_source <$> hits = x :: page) as Hsrc.
    { unfold hits. rewrite fmap_cons. simpl. f_equal.
      rewrite <- list_fmap_compose. apply list_fmap_id. }
    change (_source <$> hits) with (_source <$> hits). rewrite Hsrc.
    set (ids := internal_id <$> (x :: page)).
    unfold bind, redisDeleteWork, elDeleteInstanceIds. simpl.
    rewrite omap_js_of_work.
    set (st1 := with_history _ _).
    assert (forall w, w ∈ x :: page ->
              w ∈ history st /\ query_matches clk query w = true) as Hin.
    { intros w Hw. rewrite <- Hpage in Hw.
      by apply elem_of_search_page in Hw. }
    assert (length (history st1) < length (history st))%nat as Hlt.
    { unfold st1. simpl. apply (length_filter_lt _ _ x).
      - apply Hin. left.
      - intros Hx. apply Hx. simpl. left. }
    match goal with
    | |- context [scan_pages fuel clk query ?n ?cursor ?tot st1] =>
        destruct (IH n cursor tot st1)
          as (r & st' & Hrun & ids' & Hh & Hr & Hids); [lia|]
    end.
    exists r, st'. split; [exact Hrun|].
    exists (ids' ++ (internal_id <$> (x :: page))). repeat split.
    + rewrite Hh. unfold st1. simpl. apply (filter_not_in_app _ ids').
    + rewrite Hr. unfold st1. simpl. by rewrite foldr_app.
    + intros i Hi. apply elem_of_app in Hi as [Hi|Hi].
      * destruct (Hids i Hi) as (w & Hw & Hwi & Hq).
        exists w. split; [|done]. unfold st1 in Hw. simpl in Hw.
        by apply list_elem_of_filter in Hw as [_ Hw].
      * apply list_elem_of_fmap in Hi as (w & -> & Hw).
        exists w. destruct (Hin w Hw). done.
Qed.

(** The scan always returns. *)
Lemma deleteOldCompletedWorks_returns clk connector st :
  exists st', deleteOldCompletedWorks clk connector st = (Ok tt, st') /\
              scan_effect clk (retention_query connector) st st'.
Proof.
  unfold deleteOldCompletedWorks.
  destruct (scan_pages_spec (scan_fuel st) clk (retention_query connector)
              0%nat None None st) as (r & st' & Hrun & Heff); [unfold scan_fuel; lia|].
  exists st'. split; [|done]. by rewrite (bind_Ok _ _ _ _ _ Hrun).
Qed.

(** ** Creation *)

Lemma createWork_run clk workId user connector friendlyName sourceId args st :
  exists st1,
    scan_effect clk (retention_query connector) st st1 /\
    createWork clk workId user connector friendlyName sourceId args st =
      (Ok {| js_id := Some workId;
             js_fields := Some (new_work clk workId user connector friendlyName
                                  sourceId (receivedTime args)) |},
       created clk workId user connector friendlyName sourceId args st1).
Proof.
  destruct (deleteOldCompletedWorks_returns clk connector st) as (st1 & Hscan & Heff).
  exists st1. split; [done|].
  unfold createWork. rewrite (bind_Ok _ _ _ _ _ Hscan).
  unfold bind, redisCreateWork, elIndex, loadWorkById, bind, elLoadByIds, ret.
  simpl. rewrite lookup_work_cons. simpl. rewrite decide_True by done.
  done.
Qed.

Lemma lookup_created clk workId user connector friendlyName sourceId args st1 :
  lookup_work workId
    (history (created clk workId user connector friendlyName sourceId args st1)) =
  Some (new_work clk workId user connector friendlyName sourceId (receivedTime args)).
Proof. simpl. rewrite lookup_work_cons. simpl. by rewrite decide_True. Qed.

(** C4, as amended: [createWork] returns the record it has just stored,
    with status 'progress' when [receivedTime] was supplied and 'wait'
    otherwise, [received_time] equal to the supplied [receivedTime] (null
    only when none was supplied), [processed_time] and [completed_time]
    null, [messages] and [errors] empty; and the counters of the work
    are created with expected = 0 and processed = 0. *)
Theorem createWork_initial_record clk workId user connector friendlyName sourceId args st :
  exists work tracing,
    eval (createWork clk workId user connector friendlyName sourceId args) st =
      Ok {| js_id := Some workId; js_fields := Some work |} /\
    lookup_work workId
      (history (exec (createWork clk workId user connector friendlyName sourceId args) st)) =
      Some work /\
    status work = match receivedTime args with Some _ => Progress | None => Wait end /\
    received_time work = receivedTime args /\
    processed_time work = None /\
    completed_time work = None /\
    messages work = [] /\
    errors work = [] /\
    redis (exec (createWork clk workId user connector friendlyName sourceId args) st)
      !! workId = Some tracing /\
    WorkTracing.import_expected_number tracing = 0 /\
    WorkTracing.import_processed_number tracing = 0.
Proof.
  destruct (createWork_run clk workId user connector friendlyName sourceId args st)
    as (st1 & _ & Hrun).
  exists (new_work clk workId user connector friendlyName sourceId (receivedTime args)),
         (new_workTracing workId).
  unfold eval, exec. rewrite Hrun. cbn [fst snd].
  rewrite lookup_created. repeat split; try done.
  simpl. apply lookup_insert_eq.
Qed.

(** C4, as stated, fails: with a [receivedTime] supplied, the returned
    record carries it in [received_time], which is then not null. *)
Lemma createWork_received_time_not_null :
  exists work,
    eval (createWork sample_clock "work-1" sample_user sample_connector
            "f.csv" "src1" {| receivedTime := Some 7 |}) empty_stores =
      Ok {| js_id := Some "work-1"; js_fields := Some work |} /\
    status work = Progress /\
    received_time work = Some 7 /\
    received_time work <> None.
Proof.
  eexists. split; [vm_compute; reflexivity|]. by repeat split.
Qed.

(** ** Progress reports *)

Lemma isWorkCompleted_run workId st :
  isWorkCompleted workId st =
    (Ok {| isComplete :=
             strict_equal
               (parseInt (WorkTracing.import_processed_number <$> redis st !! workId))
               (parseInt (WorkTracing.import_expected_number <$> redis st !! workId));
           total := WorkTracing.import_processed_number <$> redis st !! workId |},
     st).
Proof. reflexivity. Qed.

Lemma round_to_double_not_NaN z : round_to_double z <> NaN.
Proof.
  unfold round_to_double.
  destruct (Z.log2 (Z.abs z) - 52 <=? 0)%Z; [done|].
  by destruct (2 ^ 1024 <=? _)%Z.
Qed.

(** [===] on two results of [parseInt] of counters is their equality. *)
Lemma strict_equal_round x y :
  strict_equal (round_to_double x) (round_to_double y) = true <->
  round_to_double x = round_to_double y.
Proof.
  pose proof (round_to_double_not_NaN x) as Hx.
  pose proof (round_to_double_not_NaN y) as Hy.
  destruct (round_to_double x) as [|s1|a], (round_to_double y) as [|s2|b];
    try done; cbn [strict_equal]; rewrite bool_decide_eq_true;
    split; congruence.
Qed.

(** Equal counters are equal numbers. *)
Lemma strict_equal_counters (t : WorkTracing.t) :
  WorkTracing.import_processed_number t = WorkTracing.import_expected_number t ->
  strict_equal (parseInt (Some (WorkTracing.import_processed_number t)))
               (parseInt (Some (WorkTracing.import_expected_number t))) = true.
Proof. intros ->. by apply strict_equal_round. Qed.

(** Up to 2^53 in absolute value, a counter is its own double. *)
Lemma round_to_double_exact z :
  - 2 ^ 53 < z < 2 ^ 53 -> round_to_double z = Num z.
Proof.
  intros Hz. unfold round_to_double.
  destruct (Z.leb_spec (Z.log2 (Z.abs z) - 52) 0) as [_|Hk]; [done|].
  exfalso.
  destruct (decide (Z.abs z = 0)) as [H0|H0].
  - rewrite H0 in Hk. cbn in Hk. lia.
  - assert (Z.log2 (Z.abs z) < 53); [|lia].
    apply Z.log2_lt_pow2; lia.
Qed.

Lemma updateProcessedTime_run clk user workId message inError st w :
  lookup_work workId (history st) = Some w ->
  exists figures,
    eval (isWorkCompleted workId) st = Ok figures /\
    updateProcessedTime clk user workId message inError st =
      (Ok workId,
       exec (elUpdate workId (processed_script (now clk) figures message inError)) st).
Proof.
  intros Hw. eexists. split; [reflexivity|].
  unfold updateProcessedTime. rewrite (bind_Ok _ _ _ _ _ (isWorkCompleted_run _ _)).
  unfold bind, exec, parseInt. by rewrite !(elUpdate_found _ _ _ _ Hw).
Qed.

(** C6: [updateProcessedTime] on a stored work is one atomic update of
    its record, which sets [processed_time] to now; when the counters
    read show processed = expected it also sets the status to
    'complete', [completed_number] to the processed count and
    [completed_time] to now; and a non-empty message is appended to
    [errors] when [inError] and to [messages] otherwise, the other log
    being left as it is. *)
Theorem updateProcessedTime_effect clk user workId message inError st w :
  lookup_work workId (history st) = Some w ->
  exists script w',
    updateProcessedTime clk user workId message inError st =
      (Ok workId, exec (elUpdate workId script) st) /\
    lookup_work workId
      (history (exec (updateProcessedTime clk user workId message inError) st)) = Some w' /\
    w' = run_script script w /\
    processed_time w' = Some (now clk) /\
    (forall t, redis st !! workId = Some t ->
       WorkTracing.import_processed_number t = WorkTracing.import_expected_number t ->
       status w' = Complete /\
       completed_number w' = Some (WorkTracing.import_processed_number t) /\
       completed_time w' = Some (now clk)) /\
    (forall text, message = Some text -> text <> "" ->
       let entry := {| log_timestamp := now clk; log_message := text;
                       log_source := None |} in
       if inError
       then errors w' = errors w ++ [entry] /\ messages w' = messages w
       else messages w' = messages w ++ [entry] /\ errors w' = errors w) /\
    (isNotEmptyField message = false ->
       messages w' = messages w /\ errors w' = errors w).
Proof.
  intros Hw.
  destruct (updateProcessedTime_run clk user workId message inError st w Hw)
    as (figures & Hfig & Hrun).
  exists (processed_script (now clk) figures message inError),
         (run_script (processed_script (now clk) figures message inError) w).
  split; [done|]. split.
  { unfold exec at 1. rewrite Hrun. cbn [snd]. by apply lookup_work_elUpdate. }
  split; [done|].
  unfold eval in Hfig. rewrite isWorkCompleted_run in Hfig. cbn [fst] in Hfig.
  injection Hfig as <-.
  split; [|split; [|split]].
  - unfold processed_script.
    destruct (strict_equal _ _), (isNotEmptyField message), inError; reflexivity.
  - intros t Ht Heq. rewrite Ht. unfold processed_script.
    cbn [fmap option_fmap option_map isComplete total].
    rewrite (strict_equal_counters t Heq).
    destruct (isNotEmptyField message), inError; by repeat split.
  - intros text -> Htext entry. unfold processed_script. simpl.
    rewrite bool_decide_eq_false_2 by done. simpl.
    destruct (strict_equal _ _), inError; split; reflexivity.
  - intros Hempty. unfold processed_script. rewrite Hempty.
    destruct (strict_equal _ _); split; reflexivity.
Qed.

(** C10: on a work fresh from [createWork], whose counters still read
    expected = 0 and processed = 0, one [updateProcessedTime] sees
    0 = 0 and finalizes the work: status 'complete', [completed_number]
    0 and [completed_time] set, with no sub-item ever processed. *)
Theorem fresh_work_completes_on_first_processed_report
    clk workId user connector friendlyName sourceId args
    clk' user' message inError st :
  let st1 := exec (createWork clk workId user connector friendlyName sourceId args) st in
  exists w',
    eval (isWorkCompleted workId) st1 = Ok {| isComplete := true; total := Some 0 |} /\
    eval (updateProcessedTime clk' user' workId message inError) st1 = Ok workId /\
    lookup_work workId
      (history (exec (updateProcessedTime clk' user' workId message inError) st1)) =
      Some w' /\
    status w' = Complete /\
    completed_number w' = Some 0 /\
    completed_time w' = Some (now clk') /\
    processed_time w' = Some (now clk').
Proof.
  intros st1.
  destruct (createWork_run clk workId user connector friendlyName sourceId args st)
    as (st0 & _ & Hrun).
  assert (st1 = created clk workId user connector friendlyName sourceId args st0) as ->.
  { unfold st1, exec. by rewrite Hrun. }
  set (stc := created clk workId user connector friendlyName sourceId args st0).
  assert (redis stc !! workId = Some (new_workTracing workId)) as Hred.
  { simpl. apply lookup_insert_eq. }
  pose proof (lookup_created clk workId user connector friendlyName sourceId args st0) as Hw.
  fold stc in Hw.
  assert (eval (isWorkCompleted workId) stc = Ok {| isComplete := true; total := Some 0 |})
    as Hfig.
  { unfold eval. rewrite isWorkCompleted_run, Hred. reflexivity. }
  destruct (updateProcessedTime_run clk' user' workId message inError stc _ Hw)
    as (figures & Hfig' & Hupd).
  rewrite Hfig in Hfig'. injection Hfig' as <-.
  eexists. split; [done|]. split; [unfold eval; by rewrite Hupd|].
  split.
  { unfold exec at 1. rewrite Hupd. cbn [snd]. by apply lookup_work_elUpdate. }
  unfold processed_script. simpl.
  destruct (isNotEmptyField message), inError; by repeat split.
Qed.

Lemma redisUpdateWorkFigures_history workId st :
  history (exec (redisUpdateWorkFigures workId) st) = history st.
Proof.
  unfold exec, redisUpdateWorkFigures. by destruct (redis st !! workId).
Qed.

Lemma redisUpdateWorkFigures_counted workId st t :
  redis st !! workId = Some t ->
  eval (redisUpdateWorkFigures workId) st =
    Ok {| isComplete :=
            bool_decide (WorkTracing.import_processed_number t + 1 =
                         WorkTracing.import_expected_number t);
          total := Some (WorkTracing.import_processed_number t + 1) |}.
Proof. intros H. unfold eval, redisUpdateWorkFigures. by rewrite H. Qed.

Lemma reportActionImport_unfold clk user workId errorData st :
  reportActionImport clk user workId errorData st =
    reportActionImport_update (now clk) workId errorData
      (match eval (redisUpdateWorkFigures workId) st with
       | Ok figures => figures
       | Throw _ => {| isComplete := false; total := None |}
       end)
      (exec (redisUpdateWorkFigures workId) st).
Proof.
  unfold reportActionImport, bind, eval, exec, redisUpdateWorkFigures.
  by destruct (redis st !! workId).
Qed.

(** C5: [reportActionImport] on a stored work. With [figures] the
    answer of the atomic counter increment: when it reports completion
    or [errorData] is present, the record is updated by one atomic
    write, which on completion sets the status to 'complete',
    [completed_number] to the counter's total and [completed_time] to
    now, and with [errorData] appends [{timestamp, message: error,
    source}] to [errors]; without completion that write leaves the
    status as it was. With neither, the record is not written at all. *)
Theorem reportActionImport_effect clk user workId errorData st w :
  lookup_work workId (history st) = Some w ->
  exists figures st1,
    redisUpdateWorkFigures workId st = (Ok figures, st1) /\
    history st1 = history st /\
    (isComplete figures = true \/ is_Some errorData ->
     exists script w',
       reportActionImport clk user workId errorData st =
         (Ok workId, exec (elUpdate workId script) st1) /\
       lookup_work workId
         (history (exec (reportActionImport clk user workId errorData) st)) = Some w' /\
       w' = run_script script w /\
       (isComplete figures = true ->
          status w' = Complete /\
          completed_number w' = total figures /\
          completed_time w' = Some (now clk)) /\
       (isComplete figures = false ->
          status w' = status w /\
          completed_number w' = completed_number w /\
          completed_time w' = completed_time w) /\
       (forall e, errorData = Some e ->
          errors w' = errors w ++ [{| log_timestamp := now clk;
                                      log_message := error e;
                                      log_source := Some (source e) |}]) /\
       (errorData = None -> errors w' = errors w) /\
       messages w' = messages w) /\
    (isComplete figures = false -> errorData = None ->
     reportActionImport clk user workId errorData st = (Ok workId, st1)).
Proof.
  intros Hw.
  destruct (redisUpdateWorkFigures workId st) as [[figures|e] st1] eqn:Hfig.
  2:{ exfalso. unfold redisUpdateWorkFigures in Hfig.
      by destruct (redis st !! workId). }
  assert (history st1 = history st) as Hh.
  { pose proof (redisUpdateWorkFigures_history workId st) as H.
    unfold exec in H. by rewrite Hfig in H. }
  assert (lookup_work workId (history st1) = Some w) as Hw1 by by rewrite Hh.
  exists figures, st1. split; [done|]. split; [done|].
  assert (reportActionImport clk user workId errorData st =
          reportActionImport_update (now clk) workId errorData figures st1) as Hrun.
  { rewrite reportActionImport_unfold. unfold eval, exec. by rewrite Hfig. }
  split.
  - intros Hcond.
    exists (action_script (now clk) figures errorData),
           (run_script (action_script (now clk) figures errorData) w).
    assert (reportActionImport clk user workId errorData st =
            (Ok workId,
             exec (elUpdate workId (action_script (now clk) figures errorData)) st1))
      as Hrun'.
    { rewrite Hrun. unfold reportActionImport_update.
      assert (isComplete figures || bool_decide (is_Some errorData) = true) as ->.
      { destruct Hcond as [->|He]; [done|].
        rewrite (bool_decide_eq_true_2 _ He). apply orb_true_r. }
      unfold bind, exec. by rewrite (elUpdate_found _ _ _ _ Hw1). }
    split; [done|]. split.
    { unfold exec at 1. rewrite Hrun'. cbn [snd]. by apply lookup_work_elUpdate. }
    split; [done|].
    unfold action_script.
    destruct (isComplete figures), errorData as [e|]; simpl;
      repeat split; try done; intros; simplify_eq; done.
  - intros Hc ->. rewrite Hrun. unfold reportActionImport_update. rewrite Hc.
    reflexivity.
Qed.

(** ** Deletion of one work *)

(** C9: [deleteWork] of an identifier under which no record is stored
    returns normally and leaves both stores as they were. *)
Theorem deleteWork_missing_is_noop workId st :
  lookup_work workId (history st) = None ->
  deleteWork workId st = (Ok None, st).
Proof.
  intros Hw.
  unfold deleteWork, loadWorkById, bind, elLoadByIds, ret. rewrite Hw.
  unfold deleteWorkRaw, bind, elDeleteInstanceIds, redisDeleteWork, ret.
  cbn [omap list_omap js_internal_id js_fields fmap option_fmap option_map
       option_list foldr].
  change (omap js_internal_id [{| js_id := Some workId; js_fields := None |}])
    with (@nil WorkId).
  rewrite filter_not_in_nil. by destruct st.
Qed.

(** ** The export-progress projection *)

#[global] Instance desc_trans field : Transitive (desc field).
Proof. unfold desc. intros x y z ? ?. lia. Qed.

#[global] Instance desc_total field : Total (desc field).
Proof. unfold desc. intros x y. lia. Qed.

Lemma sort_desc_sorted field l : StronglySorted (desc field) (sort_desc field l).
Proof. unfold sort_desc. apply StronglySorted_merge_sort; apply _. Qed.

Lemma sort_desc_perm field l : sort_desc field l ≡ₚ l.
Proof. apply merge_sort_Permutation. Qed.

Lemma worksForSource_run sourceId args st :
  worksForSource sourceId args st =
    (Ok (take (default 10%nat (args_first args))
           (sort_desc "timestamp"
              (filter
                 (fun w =>
                    forallb (fun f => filter_matches f w)
                      (([{| key := "event_source_id"; values := [sourceId] |}]
                        ++ match args_type args with
                           | Some type =>
                               if decide (type = "") then []
                               else [{| key := "event_type"; values := [type] |}]
                           | None => []
                           end)
                       ++ default [] (args_filters args)) = true)
                 (history st)))),
     st).
Proof.
  unfold worksForSource, elPaginate. cbn [orderBy first filters].
  destruct (args_type args) as [type|]; [|done].
  by destruct (decide (type = "")).
Qed.

Lemma export_filters_match sourceId w :
  forallb (fun f => filter_matches f w)
    [{| key := "event_source_id"; values := [sourceId] |};
     {| key := "event_type"; values := [CONNECTOR_INTERNAL_EXPORT_FILE] |}] = true <->
  event_source_id w = sourceId /\ event_type w = CONNECTOR_INTERNAL_EXPORT_FILE.
Proof.
  cbn [forallb]. rewrite andb_true_r, andb_true_iff.
  change (filter_matches {| key := "event_source_id"; values := [sourceId] |} w)
    with (bool_decide (event_source_id w ∈ [sourceId])).
  change (filter_matches
            {| key := "event_type"; values := [CONNECTOR_INTERNAL_EXPORT_FILE] |} w)
    with (bool_decide (event_type w ∈ [CONNECTOR_INTERNAL_EXPORT_FILE])).
  by rewrite !bool_decide_eq_true, !list_elem_of_singleton.
Qed.

(** C8: [loadExportWorksAsProgressFiles] looks at the export works of
    the source, newest first, at most 10 of them ([recent], the head of
    the sorted list of all of them); it drops a work if and only if its
    status is 'complete' and its errors are empty, maps each work kept
    to its descriptor, and leaves the stores as they were. *)
Theorem loadExportWorksAsProgressFiles_projection clk sourceId st :
  let exports :=
    filter (fun w => event_source_id w = sourceId /\
                     event_type w = CONNECTOR_INTERNAL_EXPORT_FILE) (history st) in
  exists recent older,
    recent ++ older ≡ₚ exports /\
    StronglySorted (fun w1 w2 => timestamp w2 <= timestamp w1) (recent ++ older) /\
    length recent = Nat.min 10 (length exports) /\
    loadExportWorksAsProgressFiles clk sourceId st =
      (Ok (workToExportFile clk
             <$> filter (fun w => ~ (status w = Complete /\ errors w = [])) recent),
       st) /\
    forall w,
      ExportFile.id (workToExportFile clk w) = internal_id w /\
      ExportFile.name (workToExportFile clk w) =
        (if decide (name w = "") then "Unknown" else name w) /\
      ExportFile.size (workToExportFile clk w) = 0 /\
      ExportFile.lastModified (workToExportFile clk w) =
        default (now clk) (updated_at w) /\
      ExportFile.uploadStatus (workToExportFile clk w) = status w /\
      ExportFile.messages (ExportFile.metaData (workToExportFile clk w)) = messages w /\
      ExportFile.errors (ExportFile.metaData (workToExportFile clk w)) = errors w.
Proof.
  intros exports.
  set (sorted := sort_desc "timestamp" exports).
  exists (take 10 sorted), (drop 10 sorted).
  rewrite take_drop.
  split; [apply sort_desc_perm|].
  split; [apply (sort_desc_sorted "timestamp")|].
  split.
  { rewrite length_take. unfold sorted. by rewrite (sort_desc_perm "timestamp" exports). }
  split; [|by intros w].
  unfold loadExportWorksAsProgressFiles.
  rewrite (bind_Ok _ _ _ _ _ (worksForSource_run _ _ _)).
  cbn [args_first args_type args_filters default].
  unfold ret. f_equal. f_equal. f_equal.
  assert (filter
            (fun w =>
               forallb (fun f => filter_matches f w)
                 (([{| key := "event_source_id"; values := [sourceId] |}]
                   ++ (if decide (CONNECTOR_INTERNAL_EXPORT_FILE = "") then []
                       else [{| key := "event_type";
                                values := [CONNECTOR_INTERNAL_EXPORT_FILE] |}]))
                  ++ []) = true)
            (history st) = exports) as ->.
  { apply list_filter_iff. intros w. apply export_filters_match. }
  apply list_filter_iff. intros w. fold sorted.
  destruct (errors w) as [|e es]; simpl.
  - split.
    + intros [Hs|Hl]; [intros [? _]; done|lia].
    + intros Hn. left. intros Hs. by apply Hn.
  - split.
    + intros _ [_ ?]. done.
    + intros _. right. lia.
Qed.

(** ** Deletion of the works of a source *)

Lemma removed_nil st : removed [] st st.
Proof.
  split; [by rewrite filter_not_in_nil|].
  intros i. rewrite decide_False; [done|apply not_elem_of_nil].
Qed.

Lemma removed_cons i ids st st1 st' :
  removed [i] st st1 -> removed ids st1 st' -> removed (i :: ids) st st'.
Proof.
  intros [Hh1 Hr1] [Hh Hr]. split.
  - rewrite Hh, Hh1, list_filter_filter. apply list_filter_iff. intros w.
    rewrite !not_elem_of_cons. pose proof (not_elem_of_nil (internal_id w)). tauto.
  - intros k. rewrite Hr, Hr1.
    destruct (decide (k ∈ ids)) as [Hk|Hk].
    + rewrite decide_True; [done|by right].
    + destruct (decide (k ∈ [i])) as [Hi|Hi].
      * rewrite decide_True; [done|]. apply list_elem_of_singleton in Hi as ->. left.
      * rewrite decide_False; [done|].
        rewrite not_elem_of_cons. split; [|done].
        intros ->. apply Hi. left.
Qed.

Lemma deleteWorkRaw_stored w st :
  exists st', deleteWorkRaw (js_of_work w) st = (Ok (Some (internal_id w)), st') /\
              removed [internal_id w] st st'.
Proof.
  eexists. split; [reflexivity|]. split; [done|].
  intros i. simpl. destruct (decide (i = internal_id w)) as [->|Hi].
  - rewrite lookup_delete_eq. rewrite decide_True; [done|left].
  - rewrite lookup_delete_ne by done.
    rewrite decide_False; [done|]. by rewrite list_elem_of_singleton.
Qed.

Lemma delete_all_run works : forall st,
  exists st', delete_all works st = (Ok tt, st') /\
              removed (internal_id <$> works) st st'.
Proof.
  induction works as [|w works IH]; intros st.
  - exists st. split; [done|apply removed_nil].
  - destruct (deleteWorkRaw_stored w st) as (st1 & Hdel & Hrem1).
    destruct (IH st1) as (st' & Hrun & Hrem).
    exists st'. split.
    + cbn [delete_all]. by rewrite (bind_Ok _ _ _ _ _ Hdel).
    + rewrite fmap_cons. by eapply removed_cons.
Qed.

(** What [deleteWorkForFile] removes: the works that [worksForSource]
    lists with its default arguments, that is the 10 newest works of
    the source. *)
Lemma deleteWorkForFile_run fileId st :
  exists st',
    deleteWorkForFile fileId st = (Ok true, st') /\
    removed
      (internal_id <$>
         take 10 (sort_desc "timestamp"
                    (filter (fun w => event_source_id w = fileId) (history st))))
      st st'.
Proof.
  set (works := take 10 (sort_desc "timestamp"
                  (filter (fun w => event_source_id w = fileId) (history st)))).
  destruct (delete_all_run works st) as (st' & Hrun & Hrem).
  exists st'. split; [|done].
  unfold deleteWorkForFile.
  rewrite (bind_Ok _ _ _ _ _ (worksForSource_run _ _ _)).
  cbn [args_first args_type args_filters no_args default].
  assert (filter
            (fun w =>
               forallb (fun f => filter_matches f w)
                 (([{| key := "event_source_id"; values := [fileId] |}] ++ []) ++ [])
               = true) (history st) =
          filter (fun w => event_source_id w = fileId) (history st)) as ->.
  { apply list_filter_iff. intros w. cbn [app forallb]. rewrite andb_true_r.
    change (filter_matches {| key := "event_source_id"; values := [fileId] |} w)
      with (bool_decide (event_source_id w ∈ [fileId])).
    by rewrite bool_decide_eq_true, list_elem_of_singleton. }
  fold works. by rewrite (bind_Ok _ _ _ _ _ Hrun).
Qed.

(** X22: with at most 10 works on the source, [deleteWorkForFile]
    leaves none, record or counters. *)
Lemma deleteWorkForFile_up_to_ten fileId st :
  (length (filter (fun w => event_source_id w = fileId) (history st)) <= 10)%nat ->
  exists st',
    deleteWorkForFile fileId st = (Ok true, st') /\
    (forall w, w ∈ history st' -> event_source_id w <> fileId) /\
    (forall w, w ∈ history st -> event_source_id w = fileId ->
               redis st' !! internal_id w = None).
Proof.
  intros Hlen.
  destruct (deleteWorkForFile_run fileId st) as (st' & Hrun & Hh & Hr).
  exists st'. split; [done|].
  rewrite take_ge in Hh, Hr
    by (unfold sort_desc; by rewrite merge_sort_Permutation).
  assert (forall w, w ∈ history st -> event_source_id w = fileId ->
            internal_id w ∈ internal_id <$>
              sort_desc "timestamp"
                (filter (fun w => event_source_id w = fileId) (history st))) as Hin.
  { intros w Hw Hsrc. apply list_elem_of_fmap_2.
    apply elem_of_sort_desc, list_elem_of_filter. done. }
  split.
  - intros w Hw Hsrc. rewrite Hh in Hw.
    apply list_elem_of_filter in Hw as [Hnot Hw]. apply Hnot. by apply Hin.
  - intros w Hw Hsrc. rewrite Hr. rewrite decide_True; [done|]. by apply Hin.
Qed.

(** C3 fails on eleven works of one source: [deleteWorkForFile] lists
    the works of the source with the default page of 10, deletes those
    and returns; the oldest work stays, with its counters. *)
Theorem deleteWorkForFile_leaves_eleventh :
  eval (deleteWorkForFile "src1") eleven_works = Ok true /\
  history (exec (deleteWorkForFile "src1") eleven_works) =
    [completed_work 0 "src1" 0] /\
  event_source_id (completed_work 0 "src1" 0) = "src1" /\
  redis (exec (deleteWorkForFile "src1") eleven_works) !! work_id 0 =
    Some (new_workTracing (work_id 0)).
Proof. vm_compute. by repeat split. Qed.

(** ** What the retention scan deletes *)

Lemma status_keyword_complete s : status_keyword s = "complete" <-> s = Complete.
Proof. by destruct s. Qed.

Lemma retention_query_matches clk connector w :
  query_matches clk (retention_query connector) w = true <->
  connector_id w = Connector.id connector /\
  status w = Complete /\
  exists t, completed_time w = Some t /\ t <= date_math clk (rangeToKeep connector).
Proof.
  unfold query_matches, retention_query. cbn [forallb clause_matches].
  change (keyword_attr "connector_id.keyword" w) with (Some (connector_id w)).
  change (keyword_attr "status.keyword" w) with (Some (status_keyword (status w))).
  change (date_attr "completed_time" w) with (completed_time w).
  rewrite andb_true_r, !andb_true_iff, !bool_decide_eq_true.
  split.
  - intros (Hc & Hs & Ht). split; [congruence|]. split.
    + apply status_keyword_complete. congruence.
    + destruct (completed_time w) as [t|]; [|done].
      exists t. split; [done|]. by apply bool_decide_eq_true in Ht.
  - intros (Hc & Hs & t & Ht & Hle). rewrite Hc, Hs, Ht.
    repeat split. by apply bool_decide_eq_true.
Qed.

(** The horizon is selected by the type of the connector. *)
Lemma rangeToKeep_by_type connector :
  rangeToKeep connector =
    if decide (Connector.connector_type connector = CONNECTOR_INTERNAL_ENRICHMENT)
    then "now-2d/d" else "now-30d/d".
Proof. reflexivity. Qed.

Lemma NoDup_fmap_eq {A B} (f : A -> B) (l : list A) x y :
  NoDup (f <$> l) -> x ∈ l -> y ∈ l -> f x = f y -> x = y.
Proof.
  induction l as [|a l IH]; intros Hnd Hx Hy Hf.
  - by apply elem_of_nil in Hx.
  - rewrite fmap_cons in Hnd. apply NoDup_cons in Hnd as [Ha Hnd].
    apply elem_of_cons in Hx as [->|Hx]; apply elem_of_cons in Hy as [->|Hy].
    + done.
    + exfalso. apply Ha. rewrite Hf. by apply list_elem_of_fmap_2.
    + exfalso. apply Ha. rewrite <- Hf. by apply list_elem_of_fmap_2.
    + by apply IH.
Qed.

(** X23: on an index whose documents have distinct identifiers, the
    scan of [deleteOldCompletedWorks] deletes no work but a completed
    work of the connector whose [completed_time] is at or before the
    horizon: never a work that is not complete, whatever its age. *)
Lemma deleteOldCompletedWorks_only_expired clk connector st :
  NoDup (internal_id <$> history st) ->
  exists st',
    deleteOldCompletedWorks clk connector st = (Ok tt, st') /\
    forall w, w ∈ history st -> w ∉ history st' ->
      connector_id w = Connector.id connector /\
      status w = Complete /\
      exists t, completed_time w = Some t /\ t <= date_math clk (rangeToKeep connector).
Proof.
  intros Hnd.
  destruct (deleteOldCompletedWorks_returns clk connector st)
    as (st' & Hrun & ids & Hh & _ & Hids).
  exists st'. split; [done|]. intros w Hw Hgone.
  apply retention_query_matches.
  destruct (decide (internal_id w ∈ ids)) as [Hin|Hout].
  - destruct (Hids _ Hin) as (w2 & Hw2 & Hid & Hq).
    by rewrite <- (NoDup_fmap_eq internal_id (history st) w2 w Hnd Hw2 Hw Hid).
  - exfalso. apply Hgone. rewrite Hh. by apply list_elem_of_filter.
Qed.

Lemma scan_pages_one_page fuel clk q counter totalToDelete st :
  (length (history st) < fuel)%nat ->
  (length (filter (fun w => query_matches clk q w = true) (history st))
   <= paginationCount)%nat ->
  exists r st',
    scan_pages fuel clk q counter None totalToDelete st = (Ok r, st') /\
    forall w, w ∈ history st' -> query_matches clk q w = false.
Proof.
  intros Hfuel Hlen. destruct fuel as [|fuel]; [lia|]. cbn [scan_pages].
  set (body := {| query := q; size := paginationCount;
                  sort_field := "completed_time"; search_after := truthy_cursor None |}).
  set (matching := filter (fun w => query_matches clk q w = true) (history st)) in *.
  assert (search_page clk body (history st) = sort_desc "completed_time" matching) as Hpage.
  { unfold search_page. cbn [search_after body truthy_cursor query sort_field size].
    apply take_ge. fold matching. by rewrite (sort_desc_perm "completed_time" matching). }
  unfold bind at 1. unfold el_search. cbn [hits total_value]. rewrite Hpage.
  assert (forall w, w ∈ history st -> query_matches clk q w = true ->
            w ∈ sort_desc "completed_time" matching) as Hall.
  { intros w Hw Hq. apply elem_of_sort_desc, list_elem_of_filter. done. }
  destruct (sort_desc "completed_time" matching) as [|x page] eqn:Hsorted.
  - eexists _, st. split; [done|]. intros w Hw.
    destruct (query_matches clk q w) eqn:Hq; [|done].
    specialize (Hall w Hw Hq). by apply elem_of_nil in Hall.
  - rewrite fmap_cons.
    set (hits := {| _source := x; sort := [sort_value (sort_field body) x] |}
                 :: ((fun w => {| _source := w; sort := [sort_value (sort_field body) w] |})
                       <$> page)).
    assert (_source <$> hits = x :: page) as Hsrc.
    { unfold hits. rewrite fmap_cons. simpl. f_equal.
      rewrite <- list_fmap_compose. apply list_fmap_id. }
    rewrite Hsrc.
    unfold bind at 1 2, redisDeleteWork, elDeleteInstanceIds. cbn [fst snd].
    rewrite omap_js_of_work.
    set (st1 := with_history _ _).
    assert (length (history st1) < length (history st))%nat as Hlt.
    { unfold st1. cbn [history with_history]. apply (length_filter_lt _ _ x).
      - assert (x ∈ sort_desc "completed_time" matching) as Hx by (rewrite Hsorted; left).
        apply elem_of_sort_desc in Hx. unfold matching in Hx.
        by apply list_elem_of_filter in Hx as [_ Hx].
      - intros Hx. apply Hx. rewrite fmap_cons. left. }
    match goal with
    | |- context [scan_pages fuel clk q ?n ?cursor ?tot st1] =>
        destruct (scan_pages_spec fuel clk q n cursor tot st1)
          as (r & st' & Hrun & ids' & Hh & _ & _); [lia|]
    end.
    exists r, st'. split; [exact Hrun|]. intros w Hw.
    rewrite Hh in Hw. apply list_elem_of_filter in Hw as [_ Hw].
    unfold st1 in Hw. cbn [history with_history] in Hw.
    apply list_elem_of_filter in Hw as [Hnot Hw].
    destruct (query_matches clk q w) eqn:Hq; [|done].
    exfalso. apply Hnot. apply list_elem_of_fmap_2. by apply Hall.
Qed.

(** With at most one page of works to delete, the scan deletes them all. *)
Lemma deleteOldCompletedWorks_one_page clk connector st :
  (length (filter (fun w => query_matches clk (retention_query connector) w = true)
             (history st)) <= paginationCount)%nat ->
  exists st',
    deleteOldCompletedWorks clk connector st = (Ok tt, st') /\
    forall w, w ∈ history st' ->
      query_matches clk (retention_query connector) w = false.
Proof.
  intros Hlen. unfold deleteOldCompletedWorks.
  destruct (scan_pages_one_page (scan_fuel st) clk (retention_query connector)
              0%nat None st) as (r & st' & Hrun & Hall);
    [unfold scan_fuel; lia|done|].
  exists st'. split; [|done]. by rewrite (bind_Ok _ _ _ _ _ Hrun).
Qed.

(** C7 fails on 501 expired works of one connector of which the two
    oldest were completed at the same instant: the first page deletes
    the 500 that sort first, one of the two among them; the cursor
    moves to the sort value of that one; the next search asks for what
    sorts strictly after the cursor and finds nothing, and the scan
    stops with one expired completed work left, with its counters: by
    the loop's own account, 500 deleted of 501 to delete. *)
Theorem deleteOldCompletedWorks_leaves_tied_work :
  eval (deleteOldCompletedWorks sample_clock sample_connector) tied_works = Ok tt /\
  eval (scan_pages (scan_fuel tied_works) sample_clock
          (retention_query sample_connector) 0%nat None None) tied_works =
    Ok (500%nat, Some 501%nat) /\
  length (history tied_works) = 501%nat /\
  (forall w, w ∈ history tied_works ->
     query_matches sample_clock (retention_query sample_connector) w = true) /\
  history (exec (deleteOldCompletedWorks sample_clock sample_connector) tied_works) =
    [completed_work 1 "src1" 1] /\
  redis (exec (deleteOldCompletedWorks sample_clock sample_connector) tied_works)
    !! work_id 1 = Some (new_workTracing (work_id 1)) /\
  query_matches sample_clock (retention_query sample_connector)
    (completed_work 1 "src1" 1) = true.
Proof.
  split; [by vm_compute|]. split; [by vm_compute|]. split; [by vm_compute|]. split.
  - intros w Hw. unfold tied_works, stores_of in Hw. cbn [history] in Hw.
    apply list_elem_of_fmap in Hw as (n & -> & Hn).
    apply elem_of_seq in Hn.
    apply retention_query_matches. split; [done|]. split; [done|].
    eexists. split; [reflexivity|]. change (date_math sample_clock _) with 500. lia.
  - split; [by vm_compute|]. split; [by vm_compute|reflexivity].
Qed.

(** ** The status of a work along a sequence of calls *)

Lemma elUpdate_lookup j script st i :
  lookup_work i (history (exec (elUpdate j script) st)) =
    (if decide (i = j) then run_script script else id) <$> lookup_work i (history st).
Proof.
  unfold exec, elUpdate.
  destruct (lookup_work j (history st)) as [w|] eqn:Hj; cbn [snd history with_history].
  - apply lookup_work_updated.
  - destruct (decide (i = j)) as [->|_]; [by rewrite Hj|].
    by destruct (lookup_work i (history st)).
Qed.

Lemma received_script_status t message w :
  status (run_script (received_script t message) w) = Progress.
Proof. unfold received_script. by destruct (isNotEmptyField message). Qed.

Lemma processed_script_status t figures message inError w :
  status (run_script (processed_script t figures message inError) w) =
    if isComplete figures then Complete else status w.
Proof.
  unfold processed_script.
  by destruct (isComplete figures), (isNotEmptyField message), inError.
Qed.

Lemma action_script_status t figures errorData w :
  status (run_script (action_script t figures errorData) w) =
    if isComplete figures then Complete else status w.
Proof.
  unfold action_script. by destruct (isComplete figures), errorData.
Qed.

Lemma rank_le_Complete s : rank s <= rank Complete.
Proof. destruct s; simpl; lia. Qed.

Lemma updateReceivedTime_exec clk user workId message st :
  exec (updateReceivedTime clk user workId message) st =
    exec (elUpdate workId (received_script (now clk) message)) st.
Proof.
  apply exec_then_ret.
Qed.

Lemma updateProcessedTime_exec clk user workId message inError st :
  exists figures,
    exec (updateProcessedTime clk user workId message inError) st =
      exec (elUpdate workId (processed_script (now clk) figures message inError)) st.
Proof.
  eexists. unfold updateProcessedTime.
  unfold exec at 1. rewrite (bind_Ok _ _ _ _ _ (isWorkCompleted_run _ _)).
  apply exec_then_ret.
Qed.

Lemma reportActionImport_update_exec t workId errorData figures st :
  exec (reportActionImport_update t workId errorData figures) st = st \/
  exec (reportActionImport_update t workId errorData figures) st =
    exec (elUpdate workId (action_script t figures errorData)) st.
Proof.
  unfold reportActionImport_update.
  destruct (isComplete figures || bool_decide (is_Some errorData)); [right|by left].
  apply exec_then_ret.
Qed.

(** What one call does to the record of a work [workId] that it does
    not create: the record stays as it is, or is deleted, or is updated
    in place with its status kept, set to 'complete', or, by
    [updateReceivedTime], set to 'progress'. *)
Lemma call_lookup op workId st :
  ~ issues workId op ->
  lookup_work workId (history (call op st)) = None \/
  exists w w',
    lookup_work workId (history st) = Some w /\
    lookup_work workId (history (call op st)) = Some w' /\
    (status w' = status w \/ status w' = Complete \/
     exists clk user message,
       op = ReportReceived clk user workId message /\ status w' = Progress).
Proof.
  intros Hissue.
  destruct (lookup_work workId (history (call op st))) as [w'|] eqn:Hafter; [right|by left].
  destruct op as [clk i user connector friendlyName sourceId args
                 |clk user j message|clk user j message inError|clk user j errorData];
    cbn [call issues] in *.
  - destruct (createWork_run clk i user connector friendlyName sourceId args st)
      as (st1 & (ids & Hh & _ & _) & Hrun).
    unfold exec in Hafter. rewrite Hrun in Hafter. cbn [snd created history] in Hafter.
    rewrite lookup_work_cons in Hafter. cbn [new_work internal_id] in Hafter.
    rewrite decide_False in Hafter by done.
    pose proof (lookup_work_filter_ids (fun k => k <> i) workId (history st1)) as Hf.
    cbv beta in Hf. rewrite Hf in Hafter. clear Hf.
    rewrite decide_True in Hafter by congruence.
    rewrite Hh in Hafter.
    pose proof (lookup_work_filter_ids (fun k => k ∉ ids) workId (history st)) as Hf.
    cbv beta in Hf. rewrite Hf in Hafter. clear Hf.
    destruct (decide (workId ∉ ids)); [|done].
    exists w', w'. split; [done|]. split; [done|by left].
  - rewrite updateReceivedTime_exec, elUpdate_lookup in Hafter.
    destruct (lookup_work workId (history st)) as [w|] eqn:Hw; [|done].
    exists w, w'. split; [done|]. split; [done|].
    destruct (decide (workId = j)) as [->|_];
      cbn [fmap option_fmap option_map id] in Hafter;
      apply (inj Some) in Hafter; subst w'.
    + right. right. exists clk, user, message. split; [done|].
      apply received_script_status.
    + by left.
  - destruct (updateProcessedTime_exec clk user j message inError st) as (figures & Hexec).
    rewrite Hexec, elUpdate_lookup in Hafter.
    destruct (lookup_work workId (history st)) as [w|] eqn:Hw; [|done].
    exists w, w'. split; [done|]. split; [done|].
    destruct (decide (workId = j)) as [->|_];
      cbn [fmap option_fmap option_map id] in Hafter;
      apply (inj Some) in Hafter; subst w'.
    + rewrite processed_script_status. destruct (isComplete figures); auto.
    + by left.
  - unfold exec in Hafter. rewrite reportActionImport_unfold in Hafter.
    set (figures := match eval (redisUpdateWorkFigures j) st with
                    | Ok f => f | Throw _ => _ end) in Hafter.
    set (st1 := exec (redisUpdateWorkFigures j) st) in Hafter.
    assert (history st1 = history st) as Hh by apply redisUpdateWorkFigures_history.
    change (snd (reportActionImport_update (now clk) j errorData figures st1))
      with (exec (reportActionImport_update (now clk) j errorData figures) st1) in Hafter.
    destruct (reportActionImport_update_exec (now clk) j errorData figures st1) as [He|He];
      rewrite He in Hafter.
    + rewrite Hh in Hafter. exists w', w'. split; [done|]. split; [done|by left].
    + rewrite elUpdate_lookup, Hh in Hafter.
      destruct (lookup_work workId (history st)) as [w|] eqn:Hw; [|done].
      exists w, w'. split; [done|]. split; [done|].
      destruct (decide (workId = j)) as [->|_];
      cbn [fmap option_fmap option_map id] in Hafter;
      apply (inj Some) in Hafter; subst w'.
      * rewrite action_script_status. destruct (isComplete figures); auto.
      * by left.
Qed.

Lemma calls_cons op ops st : calls (op :: ops) st = calls ops (call op st).
Proof. reflexivity. Qed.

(** A work that is not stored does not appear unless a creation is
    issued its identifier. *)
Lemma calls_absent workId ops : forall st,
  Forall (fun op => ~ issues workId op) ops ->
  lookup_work workId (history st) = None ->
  lookup_work workId (history (calls ops st)) = None.
Proof.
  induction ops as [|op ops IH]; intros st Hfresh Hw; [done|].
  apply Forall_cons in Hfresh as [Hop Hfresh].
  rewrite calls_cons. apply IH; [done|].
  destruct (call_lookup op workId st Hop) as [Hnone|(w & w' & Hsome & _)]; [done|].
  congruence.
Qed.

(** C2, as amended: along every sequence of calls of [createWork],
    [updateReceivedTime], [updateProcessedTime] and [reportActionImport]
    (whether they return or throw), the status of a stored work only
    moves forward along wait, progress, complete, provided that no
    later creation is issued the identifier of the work and that no
    [updateReceivedTime] reaches the work while it is complete. *)
Theorem status_moves_forward ops : forall st workId w w',
  lookup_work workId (history st) = Some w ->
  lookup_work workId (history (calls ops st)) = Some w' ->
  Forall (fun op => ~ issues workId op) ops ->
  received_before_complete workId ops st ->
  rank (status w) <= rank (status w').
Proof.
  induction ops as [|op ops IH]; intros st workId w w' Hw Hw' Hfresh Hguard.
  - cbn in Hw'. rewrite Hw in Hw'. injection Hw' as <-. lia.
  - apply Forall_cons in Hfresh as [Hop Hfresh].
    destruct Hguard as [Hrecv Hguard]. rewrite calls_cons in Hw'.
    destruct (call_lookup op workId st Hop) as [Hnone|(w0 & w1 & Hw0 & Hw1 & Hstep)].
    + rewrite (calls_absent workId ops _ Hfresh Hnone) in Hw'. done.
    + rewrite Hw in Hw0. injection Hw0 as <-.
      specialize (IH (call op st) workId w1 w' Hw1 Hw' Hfresh Hguard).
      assert (rank (status w) <= rank (status w1)); [|lia].
      destruct Hstep as [->|[->|(clk & user & message & -> & ->)]].
      * lia.
      * apply rank_le_Complete.
      * assert (status w <> Complete) as Hnc.
        { intros Hc. apply Hrecv; [done|]. unfold status_of. by rewrite Hw, <- Hc. }
        destruct (status w); simpl; try lia. done.
Qed.

(** C2, as stated, fails: a work is created, completes on its first
    [updateProcessedTime], and a later [updateReceivedTime] sets its
    status back to 'progress'. *)
Lemma updateReceivedTime_reopens_complete_work :
  let st1 :=
    calls [CreateWork sample_clock "work-1" sample_user sample_connector
             "f.csv" "src1" {| receivedTime := None |};
           ReportProcessed sample_clock sample_user "work-1" None false]
      empty_stores in
  status_of "work-1" st1 = Some Complete /\
  eval (updateReceivedTime sample_clock sample_user "work-1" None) st1 = Ok "work-1" /\
  status_of "work-1"
    (exec (updateReceivedTime sample_clock sample_user "work-1" None) st1) =
    Some Progress /\
  rank Progress < rank Complete.
Proof. vm_compute. by repeat split. Qed.

(** ** Concurrent calls of [reportActionImport] *)

(** The two moves of a call, run with nothing in between, are the call. *)
Lemma advance_twice c st :
  let '(s1, st1, _) := advance (Started c) st in
  let '(s2, st2, _) := advance s1 st1 in
  s2 = Returned c (eval (reportActionImport (call_clock c) (call_user c)
                           (call_work c) (call_errorData c)) st) /\
  st2 = exec (reportActionImport (call_clock c) (call_user c)
                (call_work c) (call_errorData c)) st.
Proof.
  unfold eval, exec, reportActionImport, bind. cbn [advance].
  destruct (redisUpdateWorkFigures (call_work c) st) as [[figures|e] st1]; [|done].
  cbn [advance].
  by destruct (reportActionImport_update _ _ _ figures st1) as [[r|e] st2].
Qed.

Lemma sum_list_fmap_insert {A} (f : A -> nat) (l : list A) i x y :
  l !! i = Some x ->
  (sum_list (f <$> <[i:=y]> l) + f x = sum_list (f <$> l) + f y)%nat.
Proof.
  revert i. induction l as [|a l IH]; intros i Hi; [done|].
  destruct i as [|i]; simpl in *.
  - injection Hi as ->. lia.
  - rewrite <- !Nat.add_assoc. f_equal. exact (IH i Hi).
Qed.

Lemma action_script_sets_complete t figures errorData :
  existsb sets_complete (action_script t figures errorData) = isComplete figures.
Proof. unfold action_script. by destruct (isComplete figures), errorData. Qed.

Lemma action_script_completed_number t figures errorData w :
  completed_number (run_script (action_script t figures errorData) w) =
    if isComplete figures then total figures else completed_number w.
Proof. unfold action_script. by destruct (isComplete figures), errorData. Qed.

(** Closes the local conditions of a move that leaves the work alone. *)
Ltac work_untouched :=
  repeat (split; [first [done | lia | by intros ?]|]);
  first [done | lia | by intros ?].

Section Race.
(** The work under watch, its counters at the start, and the calls. *)
Variables (workId : WorkId) (e p0 : Z) (w0 : Work) (cs : list ActionCall).

Lemma completions_app l1 l2 :
  completions workId (l1 ++ l2) = (completions workId l1 + completions workId l2)%nat.
Proof. unfold completions. by rewrite filter_app, length_app. Qed.

Lemma completions_nil : completions workId [] = 0%nat.
Proof. reflexivity. Qed.

Lemma completions_singleton k t figures errorData :
  completions workId
    [{| write_work := k; write_script := action_script t figures errorData |}] =
  if decide (k = workId) then (if isComplete figures then 1%nat else 0%nat) else 0%nat.
Proof.
  unfold completions. rewrite filter_cons, filter_nil.
  unfold completes. cbn [write_work write_script].
  rewrite action_script_sets_complete.
  destruct (decide (k = workId)) as [->|Hk].
  - rewrite bool_decide_eq_true_2 by done. cbn [andb].
    by destruct (isComplete figures).
  - rewrite bool_decide_eq_false_2 by done. done.
Qed.

(** One move keeps the invariant, if it keeps it locally: on the stage
    that moves, on the counters and the record of the work, and on the
    writes it adds. *)
Lemma race_invariant_move sys i s s' st' ws :
  race_invariant workId e p0 w0 cs sys ->
  stages sys !! i = Some s ->
  stage_call s' = stage_call s ->
  (forall t w,
     redis (stores sys) !! workId = Some t ->
     lookup_work workId (history (stores sys)) = Some w ->
     p0 <= WorkTracing.import_processed_number t ->
     told_total workId (WorkTracing.import_expected_number t) s ->
     exists t' w',
       redis st' !! workId = Some t' /\
       WorkTracing.import_expected_number t' = WorkTracing.import_expected_number t /\
       WorkTracing.import_processed_number t' + Z.of_nat (counted_on workId s) =
         WorkTracing.import_processed_number t + Z.of_nat (counted_on workId s') /\
       lookup_work workId (history st') = Some w' /\
       (pending_on workId s' + completions workId ws
        + (if decide (p0 < WorkTracing.import_expected_number t
                         <= WorkTracing.import_processed_number t)%Z then 1 else 0) =
        pending_on workId s
        + (if decide (p0 < WorkTracing.import_expected_number t
                         <= WorkTracing.import_processed_number t')%Z then 1 else 0))%nat /\
       told_total workId (WorkTracing.import_expected_number t) s' /\
       ((1 <= completions workId ws)%nat ->
        status w' = Complete /\
        completed_number w' = Some (WorkTracing.import_expected_number t)) /\
       (completions workId ws = 0%nat ->
        status w' = status w /\ completed_number w' = completed_number w)) ->
  race_invariant workId e p0 w0 cs
    {| stages := <[i := s']> (stages sys); stores := st'; writes := writes sys ++ ws |}.
Proof.
  intros (Hcs & t & w & Hred & He & Hp & Hw & Hcount & Htold & Hdone & Hquiet)
    Hs Hcall Hlocal.
  destruct (Hlocal t w Hred Hw) as
    (t' & w' & Hred' & He' & Hp' & Hw' & Hcount' & Htold' & Hdone1 & Hdone0).
  { lia. }
  { rewrite He. by apply (Forall_lookup_1 _ _ _ _ Htold Hs). }
  pose proof (sum_list_fmap_insert (counted_on workId) (stages sys) i s s' Hs) as Hc.
  pose proof (sum_list_fmap_insert (pending_on workId) (stages sys) i s s' Hs) as Hq.
  split.
  - cbn [stages]. rewrite list_fmap_insert, Hcall, <- Hcs. apply list_insert_id.
    by rewrite list_lookup_fmap, Hs.
  - exists t', w'. cbn [stages stores writes].
    split; [done|]. split; [congruence|]. split; [lia|]. split; [done|].
    rewrite completions_app. rewrite <- He in *. split; [|split; [|split]].
    + lia.
    + by apply Forall_insert.
    + intros Hge.
      destruct (decide (1 <= completions workId ws)%nat) as [H1|H0]; [by apply Hdone1|].
      destruct Hdone0 as [-> ->]; [lia|]. apply Hdone. lia.
    + intros Hnone.
      destruct Hdone0 as [-> ->]; [lia|]. apply Hquiet. lia.
Qed.

(** A call passes the counter store. *)
Lemma race_invariant_Started sys i c :
  race_invariant workId e p0 w0 cs sys ->
  stages sys !! i = Some (Started c) ->
  race_invariant workId e p0 w0 cs (schedule_step i sys).
Proof.
  intros Hinv Hs. unfold schedule_step. rewrite Hs. cbn [advance].
  unfold redisUpdateWorkFigures.
  destruct (redis (stores sys) !! call_work c) as [tk|] eqn:Hk.
  - apply (race_invariant_move _ _ _ _ _ _ Hinv Hs); [done|].
    intros t w Hred Hw Hle _.
    destruct (decide (call_work c = workId)) as [Hc|Hc].
    + rewrite Hc in Hk. rewrite Hk in Hred. injection Hred as ->.
      eexists _, w. cbn [redis history with_redis].
      split; [rewrite Hc; apply lookup_insert_eq|].
      cbn [WorkTracing.import_expected_number WorkTracing.import_processed_number
           counted_on pending_on stage_call].
      rewrite !decide_True by done. rewrite completions_nil.
      split; [done|]. split; [lia|]. split; [done|].
      split.
      { cbn [isComplete].
        destruct (bool_decide_reflect
                    (WorkTracing.import_processed_number t + 1 =
                     WorkTracing.import_expected_number t)) as [Heq|Hne];
          repeat case_decide; lia. }
      split.
      { intros _ Hcomplete. cbn [isComplete total] in *.
        apply bool_decide_eq_true in Hcomplete. by f_equal. }
      split; [lia|done].
    + exists t, w. cbn [redis history with_redis].
      split; [by rewrite lookup_insert_ne|].
      cbn [counted_on pending_on stage_call].
      rewrite !decide_False by done. rewrite completions_nil.
      work_untouched.
  - apply (race_invariant_move _ _ _ _ _ _ Hinv Hs); [done|].
    intros t w Hred Hw Hle _.
    assert (call_work c <> workId) as Hc by (intros Hc; congruence).
    exists t, w. cbn [counted_on pending_on stage_call].
    rewrite !decide_False by done. rewrite completions_nil.
    work_untouched.
Qed.

(** A call passes the index, or returns without a write. *)
Lemma race_invariant_Counted sys i c figures :
  race_invariant workId e p0 w0 cs sys ->
  stages sys !! i = Some (Counted c figures) ->
  race_invariant workId e p0 w0 cs (schedule_step i sys).
Proof.
  intros Hinv Hs. unfold schedule_step. rewrite Hs. cbn [advance].
  unfold reportActionImport_update.
  destruct (isComplete figures || bool_decide (is_Some (call_errorData c))) eqn:Hcond.
  - unfold bind, elUpdate.
    destruct (lookup_work (call_work c) (history (stores sys))) as [wk|] eqn:Hk;
      cbn [ret].
    + apply (race_invariant_move _ _ _ _ _ _ Hinv Hs); [done|].
      intros t w Hred Hw Hle Htold.
      cbn [redis history with_history counted_on pending_on stage_call].
      rewrite lookup_work_updated, Hw, completions_singleton.
      destruct (decide (call_work c = workId)) as [Hc|Hc].
      * rewrite (decide_True (P := workId = call_work c)) by done.
        eexists t, _. split; [done|]. split; [done|]. split; [lia|].
        split; [reflexivity|].
        rewrite action_script_status, action_script_completed_number.
        destruct (isComplete figures) eqn:Hcomplete.
        -- split; [lia|]. split; [done|]. split; [|lia].
           intros _. split; [done|]. by apply Htold.
        -- work_untouched.
      * rewrite (decide_False (P := workId = call_work c)) by done.
        exists t, w. work_untouched.
    + apply (race_invariant_move _ _ _ _ _ _ Hinv Hs); [done|].
      intros t w Hred Hw Hle Htold.
      assert (call_work c <> workId) as Hc by (intros Hc; congruence).
      exists t, w. cbn [counted_on pending_on stage_call].
      destruct (decide (call_work c = workId)) as [?|_]; [done|].
      rewrite completions_nil. work_untouched.
  - cbn [ret].
    apply (race_invariant_move _ _ _ _ _ _ Hinv Hs); [done|].
    intros t w Hred Hw Hle Htold.
    apply orb_false_iff in Hcond as [Hcomplete _].
    exists t, w. cbn [counted_on pending_on stage_call]. rewrite Hcomplete.
    rewrite completions_nil.
    destruct (decide (call_work c = workId)); work_untouched.
Qed.

Lemma race_invariant_Returned sys i c r :
  race_invariant workId e p0 w0 cs sys ->
  stages sys !! i = Some (Returned c r) ->
  race_invariant workId e p0 w0 cs (schedule_step i sys).
Proof.
  intros Hinv Hs. unfold schedule_step. rewrite Hs. cbn [advance].
  apply (race_invariant_move _ _ _ _ _ _ Hinv Hs); [done|].
  intros t w Hred Hw Hle Htold. exists t, w. rewrite completions_nil.
  work_untouched.
Qed.

Lemma race_invariant_step sys i :
  race_invariant workId e p0 w0 cs sys ->
  race_invariant workId e p0 w0 cs (schedule_step i sys).
Proof.
  intros Hinv.
  destruct (stages sys !! i) as [[c|c figures|c r]|] eqn:Hs.
  - by eapply race_invariant_Started.
  - by eapply race_invariant_Counted.
  - by eapply race_invariant_Returned.
  - unfold schedule_step. by rewrite Hs.
Qed.

Lemma race_invariant_interleave schedule : forall sys,
  race_invariant workId e p0 w0 cs sys ->
  race_invariant workId e p0 w0 cs (interleave schedule sys).
Proof.
  induction schedule as [|i schedule IH]; intros sys Hinv; [done|].
  apply IH. by apply race_invariant_step.
Qed.
End Race.

Lemma sum_list_zero {A} (f : A -> nat) (l : list A) :
  (forall x, f x = 0%nat) -> sum_list (f <$> l) = 0%nat.
Proof.
  intros Hf. induction l as [|a l IH]; [done|].
  rewrite fmap_cons. cbn [sum_list sum_list_with]. rewrite Hf.
  simpl. exact IH.
Qed.

Lemma race_invariant_start workId cs st w t :
  lookup_work workId (history st) = Some w ->
  redis st !! workId = Some t ->
  race_invariant workId (WorkTracing.import_expected_number t)
    (WorkTracing.import_processed_number t) w cs (start cs st).
Proof.
  intros Hw Ht. split.
  - cbn [start stages]. rewrite <- list_fmap_compose. apply list_fmap_id.
  - exists t, w. cbn [start stages stores writes].
    rewrite <- !list_fmap_compose.
    rewrite !sum_list_zero by done.
    split; [done|]. split; [done|]. split; [lia|]. split; [done|].
    split; [|split; [|split]].
    + rewrite completions_nil. rewrite decide_False; [done|lia].
    + apply Forall_fmap, Forall_forall. by intros c _.
    + rewrite completions_nil. lia.
    + done.
Qed.

Lemma all_returned_counts workId (l : list Stage) :
  Forall is_Returned l ->
  sum_list (counted_on workId <$> l) = calls_on workId (stage_call <$> l) /\
  sum_list (pending_on workId <$> l) = 0%nat.
Proof.
  unfold calls_on. induction 1 as [|s l Hs _ [IHc IHp]]; [done|].
  destruct s as [c|c figures|c r]; [done|done|].
  rewrite !fmap_cons, filter_cons. cbn [sum_list sum_list_with].
  change (sum_list_with id (counted_on workId <$> l))
    with (sum_list (counted_on workId <$> l)).
  change (sum_list_with id (pending_on workId <$> l))
    with (sum_list (pending_on workId <$> l)).
  rewrite IHc, IHp. cbn [counted_on pending_on stage_call id].
  by destruct (decide (call_work c = workId)).
Qed.

(** No more calls have passed the counter store than were made. *)
Lemma counted_le_calls workId (l : list Stage) :
  (sum_list (counted_on workId <$> l) <= calls_on workId (stage_call <$> l))%nat.
Proof.
  unfold calls_on. induction l as [|s l IH]; [done|].
  rewrite !fmap_cons, filter_cons. cbn [sum_list sum_list_with].
  change (sum_list_with id (counted_on workId <$> l))
    with (sum_list (counted_on workId <$> l)).
  destruct s as [c|c figures|c r]; cbn [counted_on stage_call id];
    destruct (decide (call_work c = workId)); cbn [length]; lia.
Qed.

(** *** Every call returns after its two moves *)

Lemma advance_rank s st :
  (Nat.min 2 (S (stage_rank s)) <= stage_rank (advance s st).1.1)%nat.
Proof.
  destruct s as [c|c figures|c r]; cbn [advance].
  - destruct (redisUpdateWorkFigures (call_work c) st) as [[figures|err] st'];
      cbn [fst stage_rank]; lia.
  - destruct (reportActionImport_update _ _ _ figures st) as [[r|err] st'];
      cbn [fst stage_rank]; lia.
  - cbn [fst stage_rank]. lia.
Qed.

Lemma schedule_step_length i sys :
  length (stages (schedule_step i sys)) = length (stages sys).
Proof.
  unfold schedule_step. destruct (stages sys !! i) as [s|]; [|done].
  destruct (advance s (stores sys)) as [[s' st'] ws]. cbn [stages].
  apply length_insert.
Qed.

Lemma schedule_step_stage i j sys s :
  stages sys !! j = Some s ->
  exists s',
    stages (schedule_step i sys) !! j = Some s' /\
    ((if decide (i = j) then Nat.min 2 (S (stage_rank s)) else stage_rank s)
     <= stage_rank s')%nat.
Proof.
  intros Hj. unfold schedule_step.
  destruct (decide (i = j)) as [->|Hij].
  - rewrite Hj. pose proof (advance_rank s (stores sys)) as Hrank.
    destruct (advance s (stores sys)) as [[s' st'] ws]. cbn [stages fst] in *.
    exists s'. split; [|done].
    apply list_lookup_insert_eq. by apply lookup_lt_Some in Hj.
  - destruct (stages sys !! i) as [si|]; [|by exists s].
    destruct (advance si (stores sys)) as [[s' st'] ws]. cbn [stages].
    exists s. split; [|done]. by rewrite list_lookup_insert_ne.
Qed.

Lemma interleave_length schedule : forall sys,
  length (stages (interleave schedule sys)) = length (stages sys).
Proof.
  induction schedule as [|i schedule IH]; intros sys; [done|].
  cbn [interleave foldl]. fold (interleave schedule (schedule_step i sys)).
  by rewrite IH, schedule_step_length.
Qed.

Lemma interleave_stage schedule : forall sys j s,
  stages sys !! j = Some s ->
  exists s',
    stages (interleave schedule sys) !! j = Some s' /\
    (Nat.min 2 (stage_rank s + moves j schedule) <= stage_rank s')%nat.
Proof.
  induction schedule as [|i schedule IH]; intros sys j s Hj.
  - exists s. split; [done|]. unfold moves. cbn. destruct s; cbn; lia.
  - destruct (schedule_step_stage i j sys s Hj) as (s1 & H1 & Hrank1).
    destruct (IH _ j s1 H1) as (s' & Hs' & Hrank').
    exists s'. split; [exact Hs'|].
    unfold moves in *. rewrite filter_cons.
    destruct (decide (i = j)) as [->|Hij]; cbn [length]; lia.
Qed.

(** The stages reached do not depend on the stores: a schedule that
    gives each call its two moves ends with every call returned. *)
Lemma interleave_returns cs schedule st :
  runs_to_end (length cs) schedule ->
  Forall is_Returned (stages (interleave schedule (start cs st))).
Proof.
  intros Hruns. apply Forall_lookup. intros j s' Hj.
  assert (j < length cs)%nat as Hlt.
  { apply lookup_lt_Some in Hj.
    rewrite interleave_length in Hj. cbn [start stages] in Hj.
    by rewrite length_fmap in Hj. }
  destruct (lookup_lt_is_Some_2 cs j Hlt) as [c Hc].
  assert (stages (start cs st) !! j = Some (Started c)) as Hstart.
  { cbn [start stages]. by rewrite list_lookup_fmap, Hc. }
  destruct (interleave_stage schedule _ j _ Hstart) as (s2 & Hs2 & Hrank).
  rewrite Hj in Hs2. injection Hs2 as <-.
  specialize (Hruns j Hlt). cbn [stage_rank] in Hrank.
  destruct s' as [c'|c' figures|c' r]; cbn [stage_rank] in Hrank; [lia|lia|done].
Qed.

Lemma moves_app i l1 l2 : moves i (l1 ++ l2) = (moves i l1 + moves i l2)%nat.
Proof. unfold moves. by rewrite filter_app, length_app. Qed.

Lemma moves_seq i n : forall a,
  moves i (seq a n) = if decide (a <= i < a + n)%nat then 1%nat else 0%nat.
Proof.
  unfold moves. induction n as [|n IH]; intros a.
  - rewrite decide_False by lia. done.
  - cbn [seq]. rewrite filter_cons. specialize (IH (S a)).
    destruct (decide (a = i)) as [->|Hne]; cbn [length]; rewrite IH;
      repeat case_decide; lia.
Qed.

(** Two rounds in turn are such a schedule, for any number of calls. *)
Lemma runs_to_end_two_rounds n : runs_to_end n (seq 0 n ++ seq 0 n).
Proof.
  intros i Hi. rewrite moves_app, moves_seq.
  rewrite decide_True by lia. lia.
Qed.

(** The log of a move holds the update that the call passed to
    [elUpdate] at that move, when the index applied it, and nothing
    otherwise. *)
Lemma advance_logs_applied_update c figures st :
  let script := action_script (now (call_clock c)) figures (call_errorData c) in
  let '(s', st', ws) := advance (Counted c figures) st in
  (ws = [{| write_work := call_work c; write_script := script |}] /\
   (isComplete figures || bool_decide (is_Some (call_errorData c))) = true /\
   elUpdate (call_work c) script st = (Ok tt, st')) \/
  (ws = [] /\
   ((isComplete figures || bool_decide (is_Some (call_errorData c))) = false /\ st' = st \/
    exists err, elUpdate (call_work c) script st = (Throw err, st'))).
Proof.
  cbn [advance]. unfold reportActionImport_update.
  destruct (isComplete figures || bool_decide (is_Some (call_errorData c))) eqn:Hcond.
  - unfold bind.
    destruct (elUpdate (call_work c) _ st) as [[[]|err] st'] eqn:Hup; cbn [ret].
    + left. by repeat split.
    + right. split; [done|]. right. by exists err.
  - cbn [ret]. right. split; [done|]. left. by split.
Qed.

(** C1: any number of workers call [reportActionImport] concurrently,
    on a stored work whose counters read expected = e and processed =
    p0, and their moves interleave in any order. Then the index is told
    at most once to finalize the work; once it has been told, the status
    of the work is 'complete' and its [completed_number] is e; as long
    as it has not been told, the status and the [completed_number] of
    the work are those of the start; it is never told when the calls
    cannot bring the processed count to e; and when the schedule lets
    every call make its two moves, every call has returned, and if the
    processed count reaches e on the way (p0 < e <= p0 + the number of
    calls on the work), the index has been told exactly once and the
    work is complete with [completed_number] e. *)
Theorem completion_at_most_once cs schedule st workId w t :
  lookup_work workId (history st) = Some w ->
  redis st !! workId = Some t ->
  let sys := interleave schedule (start cs st) in
  let e := WorkTracing.import_expected_number t in
  let p0 := WorkTracing.import_processed_number t in
  (completions workId (writes sys) <= 1)%nat /\
  (completions workId (writes sys) = 1%nat ->
   exists w',
     lookup_work workId (history (stores sys)) = Some w' /\
     status w' = Complete /\
     completed_number w' = Some e) /\
  (Forall is_Returned (stages sys) ->
   p0 < e <= p0 + Z.of_nat (calls_on workId cs) ->
   completions workId (writes sys) = 1%nat) /\
  (completions workId (writes sys) = 0%nat ->
   exists w',
     lookup_work workId (history (stores sys)) = Some w' /\
     status w' = status w /\
     completed_number w' = completed_number w) /\
  (~ p0 < e <= p0 + Z.of_nat (calls_on workId cs) ->
   completions workId (writes sys) = 0%nat) /\
  (runs_to_end (length cs) schedule ->
   Forall is_Returned (stages sys) /\
   (p0 < e <= p0 + Z.of_nat (calls_on workId cs) ->
    completions workId (writes sys) = 1%nat /\
    exists w',
      lookup_work workId (history (stores sys)) = Some w' /\
      status w' = Complete /\
      completed_number w' = Some e)).
Proof.
  intros Hw Ht sys e p0.
  pose proof (race_invariant_interleave workId e p0 w cs schedule _
                (race_invariant_start workId cs st w t Hw Ht)) as Hinv.
  fold sys in Hinv.
  destruct Hinv as (Hcs & t' & w' & Hred & He & Hp & Hw' & Hcount & _ & Hdone & Hquiet).
  assert (Forall is_Returned (stages sys) ->
          p0 < e <= p0 + Z.of_nat (calls_on workId cs) ->
          completions workId (writes sys) = 1%nat) as Hexact.
  { intros Hall Hreach.
    destruct (all_returned_counts workId _ Hall) as [Hc Hq].
    rewrite Hcs in Hc. rewrite Hc in Hp. rewrite Hq in Hcount.
    rewrite decide_True in Hcount by lia. lia. }
  split; [|split; [|split; [|split; [|split]]]].
  - destruct (decide (p0 < e <= WorkTracing.import_processed_number t')); lia.
  - intros H1. exists w'. split; [done|]. apply Hdone. lia.
  - exact Hexact.
  - intros H0. exists w'. split; [done|]. by apply Hquiet.
  - intros Hout.
    pose proof (counted_le_calls workId (stages sys)) as Hle. rewrite Hcs in Hle.
    rewrite decide_False in Hcount by lia. lia.
  - intros Hruns.
    pose proof (interleave_returns cs schedule st Hruns) as Hall. fold sys in Hall.
    split; [exact Hall|]. intros Hreach.
    pose proof (Hexact Hall Hreach) as H1.
    split; [exact H1|]. exists w'. split; [done|]. apply Hdone. lia.
Qed.

(** ** Scenarios *)

(** Three workers race on a work that expects three sub-items: the
    index is told once to finalize it. *)
(** Three workers race on a work that expects three sub-items, each
    making its two moves: all three return, the index is told once to
    finalize the work, and the work is complete with the three
    sub-items counted. *)
Lemma completion_at_most_once_witness :
  lookup_work "work-1" (history counting_stores) = Some waiting_work /\
  redis counting_stores !! "work-1" = Some three_expected /\
  runs_to_end (length three_calls) [0; 1; 2; 2; 0; 1]%nat /\
  let sys := interleave [0; 1; 2; 2; 0; 1]%nat (start three_calls counting_stores) in
  Forall is_Returned (stages sys) /\
  completions "work-1" (writes sys) = 1%nat /\
  exists w',
    lookup_work "work-1" (history (stores sys)) = Some w' /\
    status w' = Complete /\
    completed_number w' = Some 3.
Proof.
  assert (runs_to_end (length three_calls) [0; 1; 2; 2; 0; 1]%nat) as Hruns.
  { intros i Hi. cbn in Hi.
    destruct i as [|[|[|i]]]; [vm_compute; lia ..|lia]. }
  split; [reflexivity|]. split; [reflexivity|]. split; [exact Hruns|].
  destruct (completion_at_most_once three_calls [0; 1; 2; 2; 0; 1]%nat
              counting_stores "work-1" waiting_work three_expected eq_refl eq_refl)
    as (_ & _ & _ & _ & _ & Hend).
  destruct (Hend Hruns) as [Hall Hexact].
  split; [exact Hall|]. apply Hexact. vm_compute. split; [reflexivity|discriminate].
Defined.

Lemma status_moves_forward_witness :
  lookup_work "work-1" (history counting_stores) = Some waiting_work /\
  Forall (fun op => ~ issues "work-1" op) sample_reports /\
  received_before_complete "work-1" sample_reports counting_stores /\
  exists w',
    lookup_work "work-1" (history (calls sample_reports counting_stores)) = Some w' /\
    rank (status waiting_work) <= rank (status w').
Proof.
  assert (Forall (fun op => ~ issues "work-1" op) sample_reports) as Hfresh.
  { unfold sample_reports. repeat constructor; simpl; tauto. }
  assert (received_before_complete "work-1" sample_reports counting_stores) as Hguard.
  { unfold sample_reports. cbn [received_before_complete].
    repeat split. intros _. vm_compute. discriminate. }
  split; [reflexivity|]. split; [exact Hfresh|]. split; [exact Hguard|].
  eexists. split; [vm_compute; reflexivity|].
  eapply (status_moves_forward sample_reports counting_stores "work-1");
    [reflexivity|vm_compute; reflexivity|exact Hfresh|exact Hguard].
Defined.

(** [reportActionImport(user, "work-1", {error: "boom", source:
    "worker-2"})] with counts that do not match: the error is logged and
    the status stays. *)
Lemma reportActionImport_effect_witness :
  lookup_work "work-1" (history counting_stores) = Some waiting_work /\
  exists w',
    lookup_work "work-1"
      (history (exec (reportActionImport sample_clock sample_user "work-1"
                        (Some {| error := "boom"; source := "worker-2" |}))
                  counting_stores)) = Some w' /\
    status w' = Wait /\
    errors w' = [{| log_timestamp := 1000; log_message := "boom";
                    log_source := Some "worker-2" |}].
Proof.
  split; [reflexivity|].
  destruct (reportActionImport_effect sample_clock sample_user "work-1"
              (Some {| error := "boom"; source := "worker-2" |})
              counting_stores waiting_work eq_refl)
    as (figures & st1 & Hfig & _ & Hupd & _).
  assert (isComplete figures = false) as Hc.
  { vm_compute in Hfig. by injection Hfig as <- _. }
  destruct Hupd as (script & w' & _ & Hw' & _ & _ & Hkeep & Herr & _); [right; eauto|].
  exists w'. split; [done|]. split.
  - by destruct (Hkeep Hc) as [-> _].
  - by rewrite (Herr _ eq_refl).
Defined.

Lemma updateProcessedTime_effect_witness :
  lookup_work "work-1" (history counting_stores) = Some waiting_work /\
  exists w',
    lookup_work "work-1"
      (history (exec (updateProcessedTime sample_clock sample_user "work-1"
                        (Some "done") false) counting_stores)) = Some w' /\
    processed_time w' = Some 1000 /\
    messages w' = [{| log_timestamp := 1000; log_message := "done";
                      log_source := None |}].
Proof.
  split; [reflexivity|].
  destruct (updateProcessedTime_effect sample_clock sample_user "work-1"
              (Some "done") false counting_stores waiting_work eq_refl)
    as (script & w' & _ & Hw' & _ & Hp & _ & Hmsg & _).
  exists w'. split; [done|]. split; [done|].
  by destruct (Hmsg "done" eq_refl ltac:(discriminate)) as [-> _].
Defined.

Lemma deleteWork_missing_is_noop_witness :
  lookup_work "work-2" (history counting_stores) = None /\
  deleteWork "work-2" counting_stores = (Ok None, counting_stores).
Proof.
  split; [reflexivity|].
  apply (deleteWork_missing_is_noop "work-2" counting_stores). reflexivity.
Defined.

(** * Further properties of the engine *)

(** ** Listings *)

(** What a listing returns: at most [first] works, in descending order,
    each stored and passing every filter; and a stored work that passes
    every filter is left out only by a full page of works that sort
    before it. The stores are left as they are. *)
Lemma elPaginate_page args st :
  exists works,
    elPaginate args st = (Ok works, st) /\
    (length works <= first args)%nat /\
    StronglySorted (desc (orderBy args)) works /\
    (forall w, w ∈ works ->
       w ∈ history st /\
       forallb (fun f => filter_matches f w) (filters args) = true) /\
    (forall w, w ∈ history st ->
       forallb (fun f => filter_matches f w) (filters args) = true ->
       w ∉ works ->
       length works = first args /\
       forall x, x ∈ works -> desc (orderBy args) x w).
Proof.
  set (matching := filter (fun w => forallb (fun f => filter_matches f w)
                                      (filters args) = true) (history st)).
  set (sorted := sort_desc (orderBy args) matching).
  exists (take (first args) sorted). split; [reflexivity|].
  pose proof (sort_desc_sorted (orderBy args) matching) as Hsorted.
  fold sorted in Hsorted. rewrite <- (take_drop (first args) sorted) in Hsorted.
  split; [rewrite length_take; lia|].
  split; [by apply StronglySorted_app_1_l in Hsorted|].
  split.
  - intros w Hw. apply elem_of_take_inv, elem_of_sort_desc in Hw.
    apply list_elem_of_filter in Hw as [? ?]. done.
  - intros w Hw Hmatch Hout.
    assert (w ∈ take (first args) sorted ++ drop (first args) sorted) as Hin.
    { rewrite take_drop. apply elem_of_sort_desc, list_elem_of_filter. done. }
    apply elem_of_app in Hin as [Hin|Hin]; [done|].
    split.
    + rewrite length_take.
      destruct (decide (length sorted <= first args)%nat) as [Hle|Hgt]; [|lia].
      rewrite drop_ge in Hin by done. by apply elem_of_nil in Hin.
    + intros x Hx. by apply (StronglySorted_app_1_elem_of _ _ _ _ _ Hsorted).
Qed.

Lemma filter_matches_singleton k v w attr :
  filter_attr k w = Some attr ->
  filter_matches {| key := k; values := [v] |} w = true <-> attr = v.
Proof.
  intros Hattr. unfold filter_matches. cbn [key values]. rewrite Hattr.
  by rewrite bool_decide_eq_true, list_elem_of_singleton.
Qed.

(** The filters that [worksForSource] puts before those of the caller. *)
Lemma source_filters_match sourceId type w :
  forallb (fun f => filter_matches f w)
    ([{| key := "event_source_id"; values := [sourceId] |}]
     ++ match type with
        | Some type =>
            if decide (type = "") then []
            else [{| key := "event_type"; values := [type] |}]
        | None => []
        end) = true <->
  event_source_id w = sourceId /\
  (forall t, type = Some t -> t <> "" -> event_type w = t).
Proof.
  cbn [app forallb]. rewrite andb_true_iff.
  rewrite (filter_matches_singleton "event_source_id" sourceId w (event_source_id w))
    by reflexivity.
  destruct type as [t|]; [destruct (decide (t = "")) as [->|Hne]|]; cbn [forallb].
  - split; [|by intros [? _]]. intros [? _]. split; [done|]. by intros t [= <-] ?.
  - rewrite andb_true_r.
    rewrite (filter_matches_singleton "event_type" t w (event_type w)) by reflexivity.
    split.
    + intros [? ?]. split; [done|]. by intros t' [= <-] _.
    + intros [? Ht]. split; [done|]. by apply Ht.
  - split; [|by intros [? _]]. intros [? _]. split; [done|]. by intros t [=].
Qed.

(** X1: [worksForSource] returns at most [first] works (10 by default)
    of the source, of the type asked for if one is, passing the filters
    of the caller, newest first; a stored work that qualifies is left
    out only when the page is full of works at least as recent; and the
    stores are left as they are. The filters of the caller may bear on
    any field of the work document ([filter_attr], [filter_log_attr]). *)
Theorem worksForSource_newest_of_source sourceId args st :
  exists works,
    worksForSource sourceId args st = (Ok works, st) /\
    (length works <= default 10%nat (args_first args))%nat /\
    StronglySorted (fun w1 w2 => timestamp w2 <= timestamp w1) works /\
    (forall w, w ∈ works ->
       w ∈ history st /\
       event_source_id w = sourceId /\
       (forall t, args_type args = Some t -> t <> "" -> event_type w = t) /\
       forallb (fun f => filter_matches f w) (default [] (args_filters args)) = true) /\
    (forall w, w ∈ history st ->
       event_source_id w = sourceId ->
       (forall t, args_type args = Some t -> t <> "" -> event_type w = t) ->
       forallb (fun f => filter_matches f w) (default [] (args_filters args)) = true ->
       w ∉ works ->
       length works = default 10%nat (args_first args) /\
       forall x, x ∈ works -> timestamp w <= timestamp x).
Proof.
  set (basic := [{| key := "event_source_id"; values := [sourceId] |}]
                ++ match args_type args with
                   | Some type =>
                       if decide (type = "") then []
                       else [{| key := "event_type"; values := [type] |}]
                   | None => []
                   end).
  destruct (elPaginate_page
              {| orderBy := "timestamp"; first := default 10%nat (args_first args);
                 filters := basic ++ default [] (args_filters args) |} st)
    as (works & Hrun & Hlen & Hsorted & Hin & Hout).
  cbn [orderBy first filters] in *.
  exists works. split.
  { rewrite worksForSource_run. exact Hrun. }
  split; [done|]. split; [exact Hsorted|]. split.
  - intros w Hw. destruct (Hin w Hw) as [Hst Hf].
    rewrite forallb_app, andb_true_iff in Hf. destruct Hf as [Hb Hc].
    apply source_filters_match in Hb as [? ?]. done.
  - intros w Hw Hsrc Htype Hc Hnot.
    apply Hout; [done| |done].
    rewrite forallb_app, andb_true_iff. split; [|done].
    by apply source_filters_match.
Qed.

Lemma filter_none {A} (P : A -> Prop) `{!forall x, Decision (P x)} (l : list A) :
  (forall x, x ∈ l -> ~ P x) -> filter P l = [].
Proof.
  induction l as [|a l IH]; intros Hl; [done|].
  rewrite filter_cons_False by (apply Hl; left).
  apply IH. intros x Hx. apply Hl. by right.
Qed.

Lemma worksForConnector_run connectorId args st :
  worksForConnector connectorId args st =
    (match elPaginate
             {| orderBy := "timestamp"; first := default 10%nat (cargs_first args);
                filters := default [] (cargs_filters args)
                           ++ [{| key := "connector_id"; values := [connectorId] |}] |} st
     with
     | (Ok works, st') =>
         (Ok (works,
              {| cargs_first := cargs_first args;
                 cargs_filters :=
                   (fun _ => default [] (cargs_filters args)
                             ++ [{| key := "connector_id"; values := [connectorId] |}])
                     <$> cargs_filters args |}), st')
     | (Throw e, st') => (Throw e, st')
     end).
Proof. reflexivity. Qed.

(** X2: [worksForConnector] returns at most [first] works (10 by
    default) of the connector, passing the filters of the caller, newest
    first; a stored work that qualifies is left out only when the page
    is full of works at least as recent; the stores are left as they
    are. The filters of the caller may bear on any field of the work
    document ([filter_attr], [filter_log_attr]). *)
Theorem worksForConnector_newest_of_connector connectorId args st :
  exists works args',
    worksForConnector connectorId args st = (Ok (works, args'), st) /\
    (length works <= default 10%nat (cargs_first args))%nat /\
    StronglySorted (fun w1 w2 => timestamp w2 <= timestamp w1) works /\
    (forall w, w ∈ works ->
       w ∈ history st /\
       connector_id w = connectorId /\
       forallb (fun f => filter_matches f w) (default [] (cargs_filters args)) = true) /\
    (forall w, w ∈ history st ->
       connector_id w = connectorId ->
       forallb (fun f => filter_matches f w) (default [] (cargs_filters args)) = true ->
       w ∉ works ->
       length works = default 10%nat (cargs_first args) /\
       forall x, x ∈ works -> timestamp w <= timestamp x).
Proof.
  destruct (elPaginate_page
              {| orderBy := "timestamp"; first := default 10%nat (cargs_first args);
                 filters := default [] (cargs_filters args)
                            ++ [{| key := "connector_id"; values := [connectorId] |}] |} st)
    as (works & Hrun & Hlen & Hsorted & Hin & Hout).
  cbn [orderBy first filters] in *.
  eexists works, _. split.
  { rewrite worksForConnector_run, Hrun. reflexivity. }
  split; [done|]. split; [exact Hsorted|]. split.
  - intros w Hw. destruct (Hin w Hw) as [Hst Hf].
    rewrite forallb_app, andb_true_iff in Hf. destruct Hf as [Hc Hb].
    cbn [forallb] in Hb. rewrite andb_true_r in Hb.
    apply (filter_matches_singleton "connector_id" connectorId w (connector_id w)) in Hb;
      [done|reflexivity].
  - intros w Hw Hconn Hc Hnot.
    apply Hout; [done| |done].
    rewrite forallb_app, andb_true_iff. split; [done|].
    cbn [forallb]. rewrite andb_true_r.
    by apply (filter_matches_singleton "connector_id" connectorId w (connector_id w)).
Qed.

(** X3: [worksForConnector] appends its connector filter to the filters
    array of the caller. A caller that passes the same [args] again for
    another connector asks for works of both connectors at once and
    gets none, whatever is stored. *)
Theorem worksForConnector_reused_args_list_nothing c1 c2 n fs st :
  c1 <> c2 ->
  let args := {| cargs_first := n; cargs_filters := Some fs |} in
  exists works1 args1 args2,
    worksForConnector c1 args st = (Ok (works1, args1), st) /\
    cargs_filters args1 =
      Some (fs ++ [{| key := "connector_id"; values := [c1] |}]) /\
    worksForConnector c2 args1 st = (Ok ([], args2), st).
Proof.
  intros Hne args.
  destruct (elPaginate_page
              {| orderBy := "timestamp"; first := default 10%nat (cargs_first args);
                 filters := default [] (cargs_filters args)
                            ++ [{| key := "connector_id"; values := [c1] |}] |} st)
    as (works1 & Hrun1 & _).
  eexists works1, _, _. split.
  { rewrite worksForConnector_run, Hrun1. reflexivity. }
  split; [reflexivity|].
  rewrite worksForConnector_run.
  cbn [args cargs_first cargs_filters fmap option_fmap option_map default].
  unfold elPaginate. cbn [orderBy filters].
  rewrite filter_none.
  { change (sort_desc "timestamp" []) with (@nil Work). by rewrite take_nil. }
  intros w _ Hmatch. cbv [id] in Hmatch.
  rewrite !forallb_app, !andb_true_iff in Hmatch.
  destruct Hmatch as [[_ H1] H2]. cbn [forallb] in H1, H2.
  rewrite andb_true_r in H1, H2.
  apply (filter_matches_singleton "connector_id" c1 w (connector_id w)) in H1;
    [|reflexivity].
  apply (filter_matches_singleton "connector_id" c2 w (connector_id w)) in H2;
    [|reflexivity].
  congruence.
Qed.

(** ** Reports, one call at a time *)

(** X4: [updateReceivedTime] on a stored work returns its id after one
    atomic update of the record: status 'progress', [received_time] now,
    a non-empty message appended to [messages]; the errors, the
    processed and completed times and the completed number are kept as
    they are (also those of a work that was complete), and the counters
    are not touched. *)
Theorem updateReceivedTime_effect clk user workId message st w :
  lookup_work workId (history st) = Some w ->
  exists script w',
    updateReceivedTime clk user workId message st =
      (Ok workId, exec (elUpdate workId script) st) /\
    lookup_work workId
      (history (exec (updateReceivedTime clk user workId message) st)) = Some w' /\
    w' = run_script script w /\
    status w' = Progress /\
    received_time w' = Some (now clk) /\
    (forall text, message = Some text -> text <> "" ->
       messages w' = messages w ++ [{| log_timestamp := now clk; log_message := text;
                                       log_source := None |}]) /\
    (isNotEmptyField message = false -> messages w' = messages w) /\
    errors w' = errors w /\
    processed_time w' = processed_time w /\
    completed_time w' = completed_time w /\
    completed_number w' = completed_number w /\
    redis (exec (updateReceivedTime clk user workId message) st) = redis st.
Proof.
  intros Hw.
  assert (updateReceivedTime clk user workId message st =
          (Ok workId, exec (elUpdate workId (received_script (now clk) message)) st))
    as Hrun.
  { unfold updateReceivedTime, bind, exec. by rewrite (elUpdate_found _ _ _ _ Hw). }
  exists (received_script (now clk) message),
         (run_script (received_script (now clk) message) w).
  split; [done|]. split.
  { unfold exec at 1. rewrite Hrun. cbn [snd]. by apply lookup_work_elUpdate. }
  split; [done|].
  assert (redis (exec (updateReceivedTime clk user workId message) st) = redis st) as Hredis.
  { unfold exec at 1. rewrite Hrun. cbn [snd]. unfold exec.
    by rewrite (elUpdate_found _ _ _ _ Hw). }
  unfold received_script.
  destruct message as [text|]; cbn [isNotEmptyField].
  - destruct (bool_decide_reflect (text = "")) as [->|Htext]; cbn [negb];
      repeat split; try done.
    + by intros text [= <-] ?.
    + by intros text' [= <-] _.
  - repeat split; try done.
Qed.

(** X6: [reportActionImport] increments the counter before it writes
    the record and takes nothing back. On a work that has counters but
    no record, a call with [errorData] throws the missing-document error
    with the processed count already incremented; a call without
    [errorData] that does not reach the expected count returns the id as
    if all were well. *)
Theorem reportActionImport_on_missing_record clk user workId errorData st t :
  lookup_work workId (history st) = None ->
  redis st !! workId = Some t ->
  exists st1 t1,
    history st1 = history st /\
    redis st1 !! workId = Some t1 /\
    WorkTracing.import_processed_number t1 = WorkTracing.import_processed_number t + 1 /\
    WorkTracing.import_expected_number t1 = WorkTracing.import_expected_number t /\
    (is_Some errorData ->
     reportActionImport clk user workId errorData st =
       (Throw (DocumentMissing workId), st1)) /\
    (errorData = None ->
     WorkTracing.import_processed_number t + 1 <> WorkTracing.import_expected_number t ->
     reportActionImport clk user workId errorData st = (Ok workId, st1)).
Proof.
  intros Hw Ht.
  set (t1 := {| WorkTracing.internal_id := WorkTracing.internal_id t;
                WorkTracing.import_expected_number := WorkTracing.import_expected_number t;
                WorkTracing.import_processed_number :=
                  WorkTracing.import_processed_number t + 1 |}).
  exists (with_redis (<[workId := t1]> (redis st)) st), t1.
  split; [done|]. split; [apply lookup_insert_eq|]. split; [done|]. split; [done|].
  assert (redisUpdateWorkFigures workId st =
            (Ok {| isComplete :=
                     bool_decide (WorkTracing.import_processed_number t + 1 =
                                  WorkTracing.import_expected_number t);
                   total := Some (WorkTracing.import_processed_number t + 1) |},
             with_redis (<[workId := t1]> (redis st)) st)) as Hfig.
  { unfold redisUpdateWorkFigures. by rewrite Ht. }
  split.
  - intros Herr. unfold reportActionImport.
    rewrite (bind_Ok _ _ _ _ _ Hfig). unfold reportActionImport_update.
    cbn [isComplete]. rewrite (bool_decide_eq_true_2 _ Herr), orb_true_r.
    unfold bind. rewrite elUpdate_missing; [done|]. done.
  - intros -> Hne. unfold reportActionImport.
    rewrite (bind_Ok _ _ _ _ _ Hfig). unfold reportActionImport_update.
    cbn [isComplete]. rewrite (bool_decide_eq_false_2 _ Hne). reflexivity.
Qed.

(** X7: [updateProcessedTime] finalizes exactly when the two counters
    are equal as numbers, that is as the doubles that [parseInt] makes
    of them. On a stored work with counters it sets [processed_time]
    and keeps [received_time]; when the doubles are equal it sets the
    status to 'complete', [completed_number] to the processed count and
    [completed_time] to now; when they differ it leaves the status, the
    completed number and the completed time as they are. Below 2^53 in
    absolute value the doubles differ as soon as the counters do (fewer
    or more processed than expected). *)
Theorem updateProcessedTime_finalizes_on_equal_doubles
    clk user workId message inError st w t :
  lookup_work workId (history st) = Some w ->
  redis st !! workId = Some t ->
  let p := WorkTracing.import_processed_number t in
  let e := WorkTracing.import_expected_number t in
  exists w',
    lookup_work workId
      (history (exec (updateProcessedTime clk user workId message inError) st)) = Some w' /\
    processed_time w' = Some (now clk) /\
    received_time w' = received_time w /\
    (round_to_double p = round_to_double e ->
     status w' = Complete /\
     completed_number w' = Some p /\
     completed_time w' = Some (now clk)) /\
    (round_to_double p <> round_to_double e ->
     status w' = status w /\
     completed_number w' = completed_number w /\
     completed_time w' = completed_time w) /\
    (- 2 ^ 53 < p < 2 ^ 53 -> - 2 ^ 53 < e < 2 ^ 53 -> p <> e ->
     status w' = status w /\
     completed_number w' = completed_number w /\
     completed_time w' = completed_time w).
Proof.
  intros Hw Ht p e.
  destruct (updateProcessedTime_run clk user workId message inError st w Hw)
    as (figures & Hfig & Hrun).
  unfold eval in Hfig. rewrite isWorkCompleted_run in Hfig. cbn [fst] in Hfig.
  rewrite Ht in Hfig. cbn [fmap option_fmap option_map parseInt] in Hfig.
  fold p e in Hfig. injection Hfig as <-.
  eexists. split.
  { unfold exec at 1. rewrite Hrun. cbn [snd]. by apply lookup_work_elUpdate. }
  assert (forall b, strict_equal (round_to_double p) (round_to_double e) = b ->
            run_script
              (processed_script (now clk)
                 {| isComplete := strict_equal (round_to_double p) (round_to_double e);
                    total := Some p |} message inError) w =
            run_script
              (processed_script (now clk) {| isComplete := b; total := Some p |}
                 message inError) w) as Hb by (by intros b <-).
  assert (round_to_double p <> round_to_double e ->
          strict_equal (round_to_double p) (round_to_double e) = false) as Hdiff.
  { intros Hne. apply not_true_is_false. intros Heq.
    by apply strict_equal_round in Heq. }
  split; [|split; [|split; [|split]]].
  - unfold processed_script.
    destruct (strict_equal _ _), (isNotEmptyField message), inError; reflexivity.
  - unfold processed_script.
    destruct (strict_equal _ _), (isNotEmptyField message), inError; reflexivity.
  - intros Heq. apply strict_equal_round in Heq. rewrite (Hb true Heq).
    unfold processed_script. cbn [isComplete total].
    destruct (isNotEmptyField message), inError; by repeat split.
  - intros Hne. rewrite (Hb false (Hdiff Hne)).
    unfold processed_script. cbn [isComplete total].
    destruct (isNotEmptyField message), inError; by repeat split.
  - intros Hp He Hne. rewrite (Hb false); cycle 1.
    { apply Hdiff. rewrite !round_to_double_exact by done. congruence. }
    unfold processed_script. cbn [isComplete total].
    destruct (isNotEmptyField message), inError; by repeat split.
Qed.

(** ** Deletion of a stored work *)

Lemma removed_lookup ids st st' i :
  removed ids st st' ->
  lookup_work i (history st') =
    if decide (i ∈ ids) then None else lookup_work i (history st).
Proof.
  intros [Hh _]. rewrite Hh.
  pose proof (lookup_work_filter_ids (fun k => k ∉ ids) i (history st)) as Hf.
  cbv beta in Hf. rewrite Hf.
  destruct (decide (i ∈ ids)), (decide (i ∉ ids)); done.
Qed.

Lemma deleteWork_stored workId st w :
  lookup_work workId (history st) = Some w ->
  exists st',
    deleteWork workId st = (Ok (Some workId), st') /\ removed [workId] st st'.
Proof.
  intros Hw. destruct (lookup_work_Some _ _ _ Hw) as [_ Hid].
  destruct (deleteWorkRaw_stored w st) as (st' & Hdel & Hrem).
  exists st'. rewrite Hid in Hdel, Hrem. split; [|done].
  unfold deleteWork, loadWorkById, bind, elLoadByIds, ret. rewrite Hw.
  exact Hdel.
Qed.

(** X8: [deleteWork] of a stored work returns its id, removes its
    record and its counters, and leaves every other record and counter
    as it was. *)
Theorem deleteWork_removes_record_and_counters workId st w :
  lookup_work workId (history st) = Some w ->
  exists st',
    deleteWork workId st = (Ok (Some workId), st') /\
    lookup_work workId (history st') = None /\
    redis st' !! workId = None /\
    forall i, i <> workId ->
      lookup_work i (history st') = lookup_work i (history st) /\
      redis st' !! i = redis st !! i.
Proof.
  intros Hw. destruct (deleteWork_stored workId st w Hw) as (st' & Hrun & Hrem).
  exists st'. split; [done|].
  pose proof (fun i => removed_lookup _ _ _ i Hrem) as Hl.
  destruct Hrem as [_ Hr]. split; [|split].
  - rewrite Hl. rewrite decide_True; [done|left].
  - rewrite Hr. rewrite decide_True; [done|left].
  - intros i Hi. split.
    + rewrite Hl. rewrite decide_False; [done|]. by rewrite list_elem_of_singleton.
    + rewrite Hr. rewrite decide_False; [done|]. by rewrite list_elem_of_singleton.
Qed.

(** X9: a work that [createWork] has just created is deleted by
    [deleteWork] with its counters: the creation is undone, and nothing
    else is touched by the deletion. *)
Theorem createWork_then_deleteWork clk workId user connector friendlyName sourceId args st :
  let st1 := exec (createWork clk workId user connector friendlyName sourceId args) st in
  exists st2,
    deleteWork workId st1 = (Ok (Some workId), st2) /\
    lookup_work workId (history st2) = None /\
    redis st2 !! workId = None /\
    forall i, i <> workId ->
      lookup_work i (history st2) = lookup_work i (history st1) /\
      redis st2 !! i = redis st1 !! i.
Proof.
  intros st1.
  destruct (createWork_run clk workId user connector friendlyName sourceId args st)
    as (st0 & _ & Hrun).
  assert (st1 = created clk workId user connector friendlyName sourceId args st0) as Hst1.
  { unfold st1, exec. by rewrite Hrun. }
  pose proof (lookup_created clk workId user connector friendlyName sourceId args st0) as Hw.
  rewrite <- Hst1 in Hw.
  destruct (deleteWork_stored workId st1 _ Hw) as (st2 & Hdel & Hrem).
  exists st2. split; [done|].
  pose proof (fun i => removed_lookup _ _ _ i Hrem) as Hl.
  destruct Hrem as [_ Hr]. split; [|split].
  - rewrite Hl. rewrite decide_True; [done|left].
  - rewrite Hr. rewrite decide_True; [done|left].
  - intros i Hi. split.
    + rewrite Hl. rewrite decide_False; [done|]. by rewrite list_elem_of_singleton.
    + rewrite Hr. rewrite decide_False; [done|]. by rewrite list_elem_of_singleton.
Qed.

(** ** The connector of a work *)

(** X10: [connectorForWork] answers null for a work that has no record
    and does not consult the registry; for a work fresh from
    [createWork] it answers what the registry holds under the
    [internal_id] of the connector the work was created for. It leaves
    the stores as they are. *)
Theorem connectorForWork_resolves registry clk workId user connector friendlyName
    sourceId args st :
  (forall i st', lookup_work i (history st') = None ->
     connectorForWork registry i st' = (Ok None, st')) /\
  let st1 := exec (createWork clk workId user connector friendlyName sourceId args) st in
  connectorForWork registry workId st1 =
    (Ok (registry (Connector.internal_id connector)), st1).
Proof.
  split.
  - intros i st' Hw. unfold connectorForWork, bind, elLoadByIds. by rewrite Hw.
  - intros st1.
    destruct (createWork_run clk workId user connector friendlyName sourceId args st)
      as (st0 & _ & Hrun).
    assert (st1 = created clk workId user connector friendlyName sourceId args st0) as Hst1.
    { unfold st1, exec. by rewrite Hrun. }
    pose proof (lookup_created clk workId user connector friendlyName sourceId args st0) as Hw.
    rewrite <- Hst1 in Hw.
    unfold connectorForWork, bind, elLoadByIds. by rewrite Hw.
Qed.

(** ** Invariants of the stores *)

Lemma lookup_foldr_delete (m : gmap WorkId WorkTracing.t) ids i :
  foldr delete m ids !! i = if decide (i ∈ ids) then None else m !! i.
Proof.
  induction ids as [|k ids IH]; cbn [foldr].
  - rewrite decide_False; [done|apply not_elem_of_nil].
  - destruct (decide (i = k)) as [->|Hne].
    + rewrite lookup_delete_eq. rewrite decide_True; [done|left].
    + rewrite lookup_delete_ne by done. rewrite IH.
      destruct (decide (i ∈ ids)) as [Hi|Hi].
      * rewrite decide_True; [done|by right].
      * rewrite decide_False; [done|]. rewrite not_elem_of_cons. done.
Qed.

Lemma scan_effect_removed clk query st st' :
  scan_effect clk query st st' -> exists ids, removed ids st st'.
Proof.
  intros (ids & Hh & Hr & _). exists ids. split; [done|].
  intros i. rewrite Hr. apply lookup_foldr_delete.
Qed.

(** Whatever it is given, [deleteWork] removes what a list of
    identifiers designates: none or the one of the work. *)
Lemma deleteWork_removed workId st :
  exists ids, removed ids st (exec (deleteWork workId) st).
Proof.
  destruct (lookup_work workId (history st)) as [w|] eqn:Hw.
  - destruct (deleteWork_stored workId st w Hw) as (st' & Hrun & Hrem).
    exists [workId]. unfold exec. by rewrite Hrun.
  - exists []. unfold exec, deleteWork, loadWorkById, bind, elLoadByIds, ret. rewrite Hw.
    unfold deleteWorkRaw, bind, elDeleteInstanceIds, redisDeleteWork, ret.
    cbn [snd]. split; [reflexivity|].
    intros i. rewrite decide_False; [done|apply not_elem_of_nil].
Qed.

Section Invariant.
(** A property of the stores that the four elementary changes keep. *)
Variable Inv : Stores -> Prop.
Hypothesis Inv_removed : forall ids st st', removed ids st st' -> Inv st -> Inv st'.
Hypothesis Inv_updated : forall j script st, Inv st -> Inv (exec (elUpdate j script) st).
Hypothesis Inv_counted : forall j st, Inv st -> Inv (exec (redisUpdateWorkFigures j) st).
Hypothesis Inv_created :
  forall clk workId user connector friendlyName sourceId args st,
    Inv st -> Inv (created clk workId user connector friendlyName sourceId args st).

Lemma call_keeps op st : Inv st -> Inv (call op st).
Proof.
  intros Hst.
  destruct op as [clk i user connector friendlyName sourceId args
                 |clk user j message|clk user j message inError|clk user j errorData];
    cbn [call].
  - destruct (createWork_run clk i user connector friendlyName sourceId args st)
      as (st1 & Hscan & Hrun).
    unfold exec. rewrite Hrun. cbn [snd]. apply Inv_created.
    destruct (scan_effect_removed _ _ _ _ Hscan) as (ids & Hrem).
    by apply (Inv_removed ids st).
  - rewrite updateReceivedTime_exec. by apply Inv_updated.
  - destruct (updateProcessedTime_exec clk user j message inError st) as (figures & ->).
    by apply Inv_updated.
  - unfold exec. rewrite reportActionImport_unfold.
    set (figures := match eval (redisUpdateWorkFigures j) st with
                    | Ok f => f | Throw _ => _ end).
    set (st1 := exec (redisUpdateWorkFigures j) st).
    assert (Inv st1) as Hst1 by by apply Inv_counted.
    change (Inv (exec (reportActionImport_update (now clk) j errorData figures) st1)).
    destruct (reportActionImport_update_exec (now clk) j errorData figures st1) as [->| ->];
      [done|by apply Inv_updated].
Qed.

Lemma command_keeps c st : Inv st -> Inv (command c st).
Proof.
  intros Hst. destruct c as [op|workId|fileId|clk connector]; cbn [command].
  - by apply call_keeps.
  - destruct (deleteWork_removed workId st) as (ids & Hrem).
    by apply (Inv_removed ids st).
  - destruct (deleteWorkForFile_run fileId st) as (st' & Hrun & Hrem).
    unfold exec. rewrite Hrun. cbn [snd]. by eapply Inv_removed.
  - destruct (deleteOldCompletedWorks_returns clk connector st) as (st' & Hrun & Hscan).
    unfold exec. rewrite Hrun. cbn [snd].
    destruct (scan_effect_removed _ _ _ _ Hscan) as (ids & Hrem).
    by apply (Inv_removed ids st).
Qed.

Lemma commands_keep cs : forall st, Inv st -> Inv (commands cs st).
Proof.
  induction cs as [|c cs IH]; intros st Hst; [done|].
  apply IH. by apply command_keeps.
Qed.
End Invariant.

Lemma NoDup_fmap_filter {A B} (f : A -> B) (P : A -> Prop) `{!forall x, Decision (P x)}
    (l : list A) :
  NoDup (f <$> l) -> NoDup (f <$> filter P l).
Proof.
  induction l as [|a l IH]; [done|].
  rewrite fmap_cons, NoDup_cons. intros [Ha Hl].
  rewrite filter_cons. destruct (decide (P a)); [|by apply IH].
  rewrite fmap_cons, NoDup_cons. split; [|by apply IH].
  intros Hin. apply Ha.
  apply list_elem_of_fmap in Hin as (x & -> & Hx).
  apply list_elem_of_fmap_2. by apply list_elem_of_filter in Hx as [_ Hx].
Qed.

Lemma exec_elUpdate j script st :
  exec (elUpdate j script) st = st \/
  exec (elUpdate j script) st =
    with_history
      ((fun w => if decide (internal_id w = j) then run_script script w else w)
         <$> history st) st.
Proof.
  unfold exec, elUpdate. destruct (lookup_work j (history st)); [by right|by left].
Qed.

Lemma unique_ids_removed ids st st' : removed ids st st' -> unique_ids st -> unique_ids st'.
Proof.
  intros [Hh _] Hst. unfold unique_ids. rewrite Hh. by apply NoDup_fmap_filter.
Qed.

Lemma unique_ids_updated j script st :
  unique_ids st -> unique_ids (exec (elUpdate j script) st).
Proof.
  intros Hst. destruct (exec_elUpdate j script st) as [->| ->]; [done|].
  unfold unique_ids. cbn [history with_history].
  rewrite <- list_fmap_compose.
  erewrite list_fmap_ext; [exact Hst|].
  intros i w _. cbn. destruct (decide (internal_id w = j)); [|done].
  apply run_script_internal_id.
Qed.

Lemma unique_ids_counted j st :
  unique_ids st -> unique_ids (exec (redisUpdateWorkFigures j) st).
Proof. unfold unique_ids. by rewrite redisUpdateWorkFigures_history. Qed.

Lemma unique_ids_created clk workId user connector friendlyName sourceId args st :
  unique_ids st ->
  unique_ids (created clk workId user connector friendlyName sourceId args st).
Proof.
  intros Hst. unfold unique_ids. cbn [created history].
  rewrite fmap_cons, NoDup_cons. split; [|by apply NoDup_fmap_filter].
  cbn [new_work internal_id]. intros Hin.
  apply list_elem_of_fmap in Hin as (x & Hx & Hin).
  apply list_elem_of_filter in Hin as [Hne _]. by apply Hne.
Qed.

(** X11: the documents of the index keep distinct identifiers through
    every sequence of creations, reports and deletions, whether the
    calls return or throw. *)
Theorem commands_keep_unique_ids cs st :
  unique_ids st -> unique_ids (commands cs st).
Proof.
  apply commands_keep.
  - exact unique_ids_removed.
  - exact unique_ids_updated.
  - exact unique_ids_counted.
  - exact unique_ids_created.
Qed.

Lemma paired_removed ids st st' : removed ids st st' -> paired st -> paired st'.
Proof.
  intros Hrem Hst i. rewrite (removed_lookup _ _ _ i Hrem).
  destruct Hrem as [_ Hr]. rewrite Hr.
  destruct (decide (i ∈ ids)); [|apply Hst].
  split; intros [? ?]; done.
Qed.

Lemma paired_updated j script st :
  paired st -> paired (exec (elUpdate j script) st).
Proof.
  intros Hst i. rewrite elUpdate_lookup, fmap_is_Some.
  destruct (exec_elUpdate j script st) as [->| ->]; apply Hst.
Qed.

(** The increment of counters that exist keeps the pairing. *)
Lemma paired_counted j st :
  is_Some (redis st !! j) ->
  paired st -> paired (exec (redisUpdateWorkFigures j) st).
Proof.
  intros [t Hj] Hst i. rewrite redisUpdateWorkFigures_history.
  unfold exec, redisUpdateWorkFigures. rewrite Hj. cbn [snd redis with_redis].
  destruct (decide (i = j)) as [->|Hne].
  - split; intros _; [rewrite lookup_insert_eq; eauto|].
    apply Hst. rewrite Hj. eauto.
  - rewrite lookup_insert_ne by done. apply Hst.
Qed.

Lemma paired_created clk workId user connector friendlyName sourceId args st :
  paired st ->
  paired (created clk workId user connector friendlyName sourceId args st).
Proof.
  intros Hst i. cbn [created history redis].
  rewrite lookup_work_cons. cbn [new_work internal_id].
  destruct (decide (workId = i)) as [->|Hne].
  - rewrite lookup_insert_eq. split; intros _; eauto.
  - rewrite lookup_insert_ne by done.
    pose proof (lookup_work_filter_ids (fun k => k <> workId) i (history st)) as Hf.
    cbv beta in Hf. rewrite Hf. rewrite decide_True by congruence. apply Hst.
Qed.

Lemma paired_call op st :
  reports_on_counted_works [Call op] st -> paired st -> paired (call op st).
Proof.
  intros [Hguard _] Hst.
  destruct op as [clk i user connector friendlyName sourceId args
                 |clk user j message|clk user j message inError|clk user j errorData];
    cbn [call].
  - destruct (createWork_run clk i user connector friendlyName sourceId args st)
      as (st1 & Hscan & Hrun).
    unfold exec. rewrite Hrun. cbn [snd]. apply paired_created.
    destruct (scan_effect_removed _ _ _ _ Hscan) as (ids & Hrem).
    by apply (paired_removed ids st).
  - rewrite updateReceivedTime_exec. by apply paired_updated.
  - destruct (updateProcessedTime_exec clk user j message inError st) as (figures & ->).
    by apply paired_updated.
  - unfold exec. rewrite reportActionImport_unfold.
    set (figures := match eval (redisUpdateWorkFigures j) st with
                    | Ok f => f | Throw _ => _ end).
    set (st1 := exec (redisUpdateWorkFigures j) st).
    assert (paired st1) as Hst1 by by apply paired_counted.
    change (paired (exec (reportActionImport_update (now clk) j errorData figures) st1)).
    destruct (reportActionImport_update_exec (now clk) j errorData figures st1) as [->| ->];
      [done|by apply paired_updated].
Qed.

(** X12: a work has a record exactly when it has counters, and this
    holds through every sequence of creations, reports and deletions in
    which [reportActionImport] is called on works that have counters at
    the time of the call: the engine creates the two together and
    deletes them together, and a report on a work that has both keeps
    both. What the increment does to a work without counters plays no
    part. *)
Theorem commands_keep_paired cs : forall st,
  paired st ->
  reports_on_counted_works cs st ->
  paired (commands cs st).
Proof.
  induction cs as [|c cs IH]; intros st Hst Hguard; [done|].
  destruct Hguard as [Hc Hguard].
  cbn [commands foldl]. fold (commands cs (command c st)).
  apply IH; [|exact Hguard].
  destruct c as [op|workId|fileId|clk connector]; cbn [command].
  - apply paired_call; [|done]. by split.
  - destruct (deleteWork_removed workId st) as (ids & Hrem).
    by apply (paired_removed ids st).
  - destruct (deleteWorkForFile_run fileId st) as (st' & Hrun & Hrem).
    unfold exec. rewrite Hrun. cbn [snd]. by eapply paired_removed.
  - destruct (deleteOldCompletedWorks_returns clk connector st) as (st' & Hrun & Hscan).
    unfold exec. rewrite Hrun. cbn [snd].
    destruct (scan_effect_removed _ _ _ _ Hscan) as (ids & Hrem).
    by apply (paired_removed ids st).
Qed.

(** ** Records along a sequence of calls *)

Lemma later_state_refl w : later_state w w.
Proof. by repeat split. Qed.

Lemma later_state_trans w1 w2 w3 :
  later_state w1 w2 -> later_state w2 w3 -> later_state w1 w3.
Proof.
  unfold later_state. intros H1 H2.
  destruct H1 as (?&?&?&?&?&?&?&?&Hm1&He1), H2 as (?&?&?&?&?&?&?&?&Hm2&He2).
  repeat split; try congruence; by etrans.
Qed.

Lemma run_stmt_later s w : later_state w (run_stmt s w).
Proof.
  destruct s; repeat split; try done; cbn; by apply prefix_app_r.
Qed.

Lemma run_script_later script : forall w, later_state w (run_script script w).
Proof.
  unfold run_script. induction script as [|s script IH]; intros w; cbn [foldl].
  - apply later_state_refl.
  - eapply later_state_trans; [apply run_stmt_later|apply IH].
Qed.

(** What one call leaves of the record of a work that it does not
    create: nothing, the record itself, or the record after a script. *)
Lemma call_record op workId st :
  ~ issues workId op ->
  lookup_work workId (history (call op st)) = None \/
  exists w,
    lookup_work workId (history st) = Some w /\
    (lookup_work workId (history (call op st)) = Some w \/
     exists script,
       lookup_work workId (history (call op st)) = Some (run_script script w)).
Proof.
  intros Hissue.
  destruct (lookup_work workId (history (call op st))) as [w'|] eqn:Hafter; [right|by left].
  assert (forall j script st0,
            lookup_work workId (history (exec (elUpdate j script) st0)) = Some w' ->
            exists w, lookup_work workId (history st0) = Some w /\
                      (Some w' = Some w \/ exists sc, Some w' = Some (run_script sc w)))
    as Hupd.
  { intros j script st0. rewrite elUpdate_lookup.
    destruct (lookup_work workId (history st0)) as [w|]; [|done].
    intros Heq. exists w. split; [done|].
    destruct (decide (workId = j)); cbn [fmap option_fmap option_map id] in Heq;
      apply (inj Some) in Heq; subst w'; [right; by exists script|by left]. }
  destruct op as [clk i user connector friendlyName sourceId args
                 |clk user j message|clk user j message inError|clk user j errorData];
    cbn [call issues] in *.
  - destruct (createWork_run clk i user connector friendlyName sourceId args st)
      as (st1 & (ids & Hh & _ & _) & Hrun).
    unfold exec in Hafter. rewrite Hrun in Hafter. cbn [snd created history] in Hafter.
    rewrite lookup_work_cons in Hafter. cbn [new_work internal_id] in Hafter.
    rewrite decide_False in Hafter by done.
    pose proof (lookup_work_filter_ids (fun k => k <> i) workId (history st1)) as Hf.
    cbv beta in Hf. rewrite Hf in Hafter. clear Hf.
    rewrite decide_True in Hafter by congruence.
    rewrite Hh in Hafter.
    pose proof (lookup_work_filter_ids (fun k => k ∉ ids) workId (history st)) as Hf.
    cbv beta in Hf. rewrite Hf in Hafter. clear Hf.
    destruct (decide (workId ∉ ids)); [|done].
    exists w'. split; [done|by left].
  - rewrite updateReceivedTime_exec in Hafter. by apply Hupd in Hafter.
  - destruct (updateProcessedTime_exec clk user j message inError st) as (figures & Hexec).
    rewrite Hexec in Hafter. by apply Hupd in Hafter.
  - unfold exec in Hafter. rewrite reportActionImport_unfold in Hafter.
    set (figures := match eval (redisUpdateWorkFigures j) st with
                    | Ok f => f | Throw _ => _ end) in Hafter.
    set (st1 := exec (redisUpdateWorkFigures j) st) in Hafter.
    assert (history st1 = history st) as Hh by apply redisUpdateWorkFigures_history.
    change (snd (reportActionImport_update (now clk) j errorData figures st1))
      with (exec (reportActionImport_update (now clk) j errorData figures) st1) in Hafter.
    destruct (reportActionImport_update_exec (now clk) j errorData figures st1) as [He|He];
      rewrite He in Hafter.
    + rewrite Hh in Hafter. exists w'. split; [done|by left].
    + apply Hupd in Hafter. by rewrite Hh in Hafter.
Qed.

Lemma calls_later workId ops : forall st w w',
  lookup_work workId (history st) = Some w ->
  lookup_work workId (history (calls ops st)) = Some w' ->
  Forall (fun op => ~ issues workId op) ops ->
  later_state w w'.
Proof.
  induction ops as [|op ops IH]; intros st w w' Hw Hw' Hfresh.
  - cbn in Hw'. rewrite Hw in Hw'. injection Hw' as <-. apply later_state_refl.
  - apply Forall_cons in Hfresh as [Hop Hfresh]. rewrite calls_cons in Hw'.
    destruct (call_record op workId st Hop) as [Hnone|(w0 & Hw0 & Hstep)].
    + rewrite (calls_absent workId ops _ Hfresh Hnone) in Hw'. done.
    + rewrite Hw in Hw0. injection Hw0 as <-.
      destruct Hstep as [Hsame|(script & Hrun)].
      * by apply (IH (call op st)).
      * eapply later_state_trans; [apply (run_script_later script)|].
        by apply (IH (call op st)).
Qed.

(** X13: the logs of a work are append-only. Along every sequence of
    creations and reports in which no creation is issued the identifier
    of the work, the messages and the errors of its record at the start
    are a prefix of its messages and errors at the end. *)
Theorem logs_only_grow workId ops st w w' :
  lookup_work workId (history st) = Some w ->
  lookup_work workId (history (calls ops st)) = Some w' ->
  Forall (fun op => ~ issues workId op) ops ->
  messages w `prefix_of` messages w' /\ errors w `prefix_of` errors w'.
Proof.
  intros Hw Hw' Hfresh.
  destruct (calls_later workId ops st w w' Hw Hw' Hfresh)
    as (_&_&_&_&_&_&_&_&Hm&He).
  done.
Qed.

(** X14: no call rewrites what identifies a work. Along every sequence
    of creations and reports in which no creation is issued the
    identifier of the work, its creation timestamp, name, type, source,
    user and connector stay what they were. *)
Theorem identity_fields_never_change workId ops st w w' :
  lookup_work workId (history st) = Some w ->
  lookup_work workId (history (calls ops st)) = Some w' ->
  Forall (fun op => ~ issues workId op) ops ->
  internal_id w' = workId /\
  timestamp w' = timestamp w /\
  name w' = name w /\
  event_type w' = event_type w /\
  event_source_id w' = event_source_id w /\
  user_id w' = user_id w /\
  connector_id w' = connector_id w.
Proof.
  intros Hw Hw' Hfresh.
  destruct (calls_later workId ops st w w' Hw Hw' Hfresh)
    as (Hid&?&?&?&?&?&?&_).
  destruct (lookup_work_Some _ _ _ Hw) as [_ Hi].
  repeat split; try done. congruence.
Qed.

(** ** What a report touches *)

Lemma redis_exec_elUpdate j script st : redis (exec (elUpdate j script) st) = redis st.
Proof. by destruct (exec_elUpdate j script st) as [->| ->]. Qed.

Lemma redisUpdateWorkFigures_other j st i :
  i <> j -> redis (exec (redisUpdateWorkFigures j) st) !! i = redis st !! i.
Proof.
  intros Hne. unfold exec, redisUpdateWorkFigures.
  destruct (redis st !! j); cbn [snd redis with_redis]; [|done].
  by rewrite lookup_insert_ne.
Qed.

Lemma reportActionImport_exec clk user j errorData st :
  exists figures,
    eval (redisUpdateWorkFigures j) st = Ok figures /\
    (exec (reportActionImport clk user j errorData) st =
       exec (redisUpdateWorkFigures j) st \/
     exec (reportActionImport clk user j errorData) st =
       exec (elUpdate j (action_script (now clk) figures errorData))
         (exec (redisUpdateWorkFigures j) st)).
Proof.
  destruct (redisUpdateWorkFigures j st) as [[figures|e] st1] eqn:Hfig.
  2:{ exfalso. unfold redisUpdateWorkFigures in Hfig. by destruct (redis st !! j). }
  exists figures. split; [unfold eval; by rewrite Hfig|].
  assert (exec (redisUpdateWorkFigures j) st = st1) as ->
    by (unfold exec; by rewrite Hfig).
  assert (exec (reportActionImport clk user j errorData) st =
          exec (reportActionImport_update (now clk) j errorData figures) st1) as ->.
  { unfold exec. rewrite reportActionImport_unfold. unfold eval, exec.
    by rewrite Hfig. }
  apply (reportActionImport_update_exec (now clk) j errorData figures st1).
Qed.

(** X15: a report is about one work. [updateReceivedTime],
    [updateProcessedTime] and [reportActionImport] leave the record and
    the counters of every other work as they were, and the first two
    touch no counters at all. *)
Theorem reports_leave_other_works op st :
  is_report op ->
  (forall i, i <> report_work op ->
     lookup_work i (history (call op st)) = lookup_work i (history st) /\
     redis (call op st) !! i = redis st !! i) /\
  (match op with
   | ReportAction _ _ _ _ => True
   | _ => redis (call op st) = redis st
   end).
Proof.
  assert (forall i j script st0, i <> j ->
            lookup_work i (history (exec (elUpdate j script) st0)) =
              lookup_work i (history st0)) as Hother.
  { intros i j script st0 Hne. rewrite elUpdate_lookup, decide_False by done.
    by destruct (lookup_work i (history st0)). }
  destruct op as [clk i user connector friendlyName sourceId args
                 |clk user j message|clk user j message inError|clk user j errorData];
    cbn [is_report call report_work]; intros Hrep; [done| | |].
  - rewrite updateReceivedTime_exec. split; [|apply redis_exec_elUpdate].
    intros i Hi. split; [by apply Hother|by rewrite redis_exec_elUpdate].
  - destruct (updateProcessedTime_exec clk user j message inError st) as (figures & ->).
    split; [|apply redis_exec_elUpdate].
    intros i Hi. split; [by apply Hother|by rewrite redis_exec_elUpdate].
  - split; [|done]. intros i Hi.
    destruct (reportActionImport_exec clk user j errorData st) as (figures & _ & [->| ->]).
    + rewrite redisUpdateWorkFigures_history. split; [done|].
      by apply redisUpdateWorkFigures_other.
    + rewrite Hother by done. rewrite redis_exec_elUpdate.
      rewrite redisUpdateWorkFigures_history. split; [done|].
      by apply redisUpdateWorkFigures_other.
Qed.

(** ** Counting the processed sub-items *)

Lemma call_counters op workId st t :
  is_report op ->
  redis st !! workId = Some t ->
  exists t',
    redis (call op st) !! workId = Some t' /\
    WorkTracing.import_expected_number t' = WorkTracing.import_expected_number t /\
    WorkTracing.import_processed_number t' =
      WorkTracing.import_processed_number t + Z.of_nat (action_reports workId [op]).
Proof.
  intros Hrep Ht.
  destruct op as [clk i user connector friendlyName sourceId args
                 |clk user j message|clk user j message inError|clk user j errorData];
    cbn [is_report call action_reports] in *; [done| | |].
  - exists t. rewrite updateReceivedTime_exec, redis_exec_elUpdate.
    split; [done|]. split; [done|lia].
  - destruct (updateProcessedTime_exec clk user j message inError st) as (figures & ->).
    exists t. rewrite redis_exec_elUpdate. split; [done|]. split; [done|lia].
  - assert (exists t',
              redis (exec (redisUpdateWorkFigures j) st) !! workId = Some t' /\
              WorkTracing.import_expected_number t' = WorkTracing.import_expected_number t /\
              WorkTracing.import_processed_number t' =
                WorkTracing.import_processed_number t
                + Z.of_nat ((if decide (j = workId) then 1 else 0) + 0)) as Hcount.
    { destruct (decide (j = workId)) as [->|Hne].
      - unfold exec, redisUpdateWorkFigures. rewrite Ht. cbn [snd redis with_redis].
        eexists. split; [apply lookup_insert_eq|]. split; [done|].
        cbn [WorkTracing.import_processed_number]. lia.
      - exists t. rewrite redisUpdateWorkFigures_other by done.
        split; [done|]. split; [done|lia]. }
    destruct (reportActionImport_exec clk user j errorData st) as (figures & _ & [->| ->]);
      [done|by rewrite redis_exec_elUpdate].
Qed.

Lemma action_reports_cons workId op ops :
  action_reports workId (op :: ops) =
    (action_reports workId [op] + action_reports workId ops)%nat.
Proof. destruct op; cbn [action_reports]; lia. Qed.

(** X16: every [reportActionImport] call on a work counts, whatever
    else happens. Along every sequence of reports, on this work or on
    others, returning or throwing, the expected count of a work stays
    what it was and its processed count grows by the number of
    [reportActionImport] calls on it. *)
Theorem processed_counts_action_reports workId ops : forall st t,
  Forall is_report ops ->
  redis st !! workId = Some t ->
  exists t',
    redis (calls ops st) !! workId = Some t' /\
    WorkTracing.import_expected_number t' = WorkTracing.import_expected_number t /\
    WorkTracing.import_processed_number t' =
      WorkTracing.import_processed_number t + Z.of_nat (action_reports workId ops).
Proof.
  induction ops as [|op ops IH]; intros st t Hrep Ht.
  - exists t. cbn. split; [done|]. split; [done|lia].
  - apply Forall_cons in Hrep as [Hop Hrep]. rewrite calls_cons.
    destruct (call_counters op workId st t Hop Ht) as (t1 & Ht1 & He1 & Hp1).
    destruct (IH (call op st) t1 Hrep Ht1) as (t' & Ht' & He' & Hp').
    exists t'. split; [done|]. split; [congruence|].
    rewrite action_reports_cons. lia.
Qed.

Lemma reportActionImport_step clk user workId errorData st w t :
  lookup_work workId (history st) = Some w ->
  redis st !! workId = Some t ->
  exists w' t',
    lookup_work workId (history (exec (reportActionImport clk user workId errorData) st)) =
      Some w' /\
    redis (exec (reportActionImport clk user workId errorData) st) !! workId = Some t' /\
    WorkTracing.import_processed_number t' = WorkTracing.import_processed_number t + 1 /\
    WorkTracing.import_expected_number t' = WorkTracing.import_expected_number t /\
    (WorkTracing.import_processed_number t + 1 = WorkTracing.import_expected_number t ->
     status w' = Complete /\
     completed_number w' = Some (WorkTracing.import_expected_number t)) /\
    (WorkTracing.import_processed_number t + 1 <> WorkTracing.import_expected_number t ->
     status w' = status w /\ completed_number w' = completed_number w).
Proof.
  intros Hw Ht. unfold exec. rewrite reportActionImport_unfold.
  rewrite (redisUpdateWorkFigures_counted _ _ _ Ht).
  set (st1 := exec (redisUpdateWorkFigures workId) st).
  assert (lookup_work workId (history st1) = Some w) as Hw1
    by (unfold st1; by rewrite redisUpdateWorkFigures_history).
  assert (exists t', redis st1 !! workId = Some t' /\
            WorkTracing.import_processed_number t' =
              WorkTracing.import_processed_number t + 1 /\
            WorkTracing.import_expected_number t' = WorkTracing.import_expected_number t)
    as (t' & Ht' & Hp' & He').
  { unfold st1, exec, redisUpdateWorkFigures. rewrite Ht. cbn [snd redis with_redis].
    eexists. split; [apply lookup_insert_eq|done]. }
  unfold reportActionImport_update. cbn [isComplete].
  destruct (bool_decide_reflect
              (WorkTracing.import_processed_number t + 1 =
               WorkTracing.import_expected_number t)) as [Heq|Hne]; cbn [orb].
  - unfold bind, ret. rewrite (elUpdate_found _ _ _ _ Hw1).
    cbn [snd history redis with_history].
    rewrite lookup_work_updated, Hw1, decide_True by done.
    eexists _, t'. split; [reflexivity|]. split; [done|]. split; [done|]. split; [done|].
    rewrite action_script_status, action_script_completed_number.
    cbn [isComplete total].
    split; [|done]. intros _. split; [done|]. by rewrite Heq.
  - destruct (bool_decide (is_Some errorData)).
    + unfold bind, ret. rewrite (elUpdate_found _ _ _ _ Hw1).
      cbn [snd history redis with_history].
      rewrite lookup_work_updated, Hw1, decide_True by done.
      eexists _, t'. split; [reflexivity|]. split; [done|]. split; [done|]. split; [done|].
      rewrite action_script_status, action_script_completed_number.
      cbn [isComplete total].
      split; [done|]. by intros _.
    + exists w, t'. cbn [ret snd]. split; [done|]. split; [done|]. split; [done|].
      split; [done|]. split; [done|]. by intros _.
Qed.

(** X17: successive [reportActionImport] calls finalize a work when the
    processed count meets the expected count, and only then. From a
    stored work whose counters read expected = e and processed = p,
    after n calls on it (with or without [errorData]): if p < e <= p + n
    the status is 'complete' and [completed_number] is e; otherwise
    (the count is not reached yet, or was already passed) the status
    and [completed_number] are what they were. *)
Theorem action_reports_complete_at_expected_count workId ops : forall st w t,
  lookup_work workId (history st) = Some w ->
  redis st !! workId = Some t ->
  Forall (is_action_on workId) ops ->
  exists w',
    lookup_work workId (history (calls ops st)) = Some w' /\
    if decide (WorkTracing.import_processed_number t
               < WorkTracing.import_expected_number t
               <= WorkTracing.import_processed_number t + Z.of_nat (length ops))
    then status w' = Complete /\
         completed_number w' = Some (WorkTracing.import_expected_number t)
    else status w' = status w /\ completed_number w' = completed_number w.
Proof.
  induction ops as [|op ops IH]; intros st w t Hw Ht Hops.
  - exists w. split; [done|]. rewrite decide_False; [done|]. cbn [length]. lia.
  - apply Forall_cons in Hops as [Hop Hops]. rewrite calls_cons.
    destruct op as [| | |clk user j errorData]; cbn [is_action_on] in Hop; try done.
    subst j. cbn [call].
    destruct (reportActionImport_step clk user workId errorData st w t Hw Ht)
      as (w1 & t1 & Hw1 & Ht1 & Hp1 & He1 & Hyes & Hno).
    destruct (IH _ w1 t1 Hw1 Ht1 Hops) as (w' & Hw' & Hend).
    exists w'. split; [done|]. rewrite Hp1, He1 in Hend. cbn [length].
    destruct (decide (WorkTracing.import_processed_number t + 1 =
                      WorkTracing.import_expected_number t)) as [Heq|Hne].
    + destruct (Hyes Heq) as [Hs Hn].
      rewrite decide_False in Hend by lia. rewrite decide_True by lia.
      destruct Hend as [-> ->]. done.
    + destruct (Hno Hne) as [Hs Hn].
      repeat case_decide; try lia; destruct Hend as [-> ->]; done.
Qed.

(** ** More on the retention scan and on the deletion by source *)

Lemma filter_ext_elem {A} (P Q : A -> Prop)
    `{!forall x, Decision (P x)} `{!forall x, Decision (Q x)} (l : list A) :
  (forall x, x ∈ l -> P x <-> Q x) -> filter P l = filter Q l.
Proof.
  induction l as [|a l IH]; intros Hl; [done|].
  rewrite !filter_cons.
  assert (P a <-> Q a) as Ha by (apply Hl; left).
  rewrite IH by (intros x Hx; apply Hl; by right).
  destruct (decide (P a)), (decide (Q a)); tauto || done.
Qed.

(** X18: [deleteOldCompletedWorks] always returns: the loop ends after
    at most one page per stored document and one more. It removes the
    records and the counters of the same identifiers, each the
    identifier of a stored work that matches its query, and neither
    creates nor alters a record. *)
Theorem deleteOldCompletedWorks_returns_and_removes_pairs clk connector st :
  exists st' ids,
    deleteOldCompletedWorks clk connector st = (Ok tt, st') /\
    removed ids st st' /\
    (forall i, i ∈ ids ->
       exists w, w ∈ history st /\ internal_id w = i /\
                 connector_id w = Connector.id connector /\
                 status w = Complete /\
                 exists t, completed_time w = Some t /\
                           t <= date_math clk (rangeToKeep connector)) /\
    (forall w, w ∈ history st' -> w ∈ history st).
Proof.
  destruct (deleteOldCompletedWorks_returns clk connector st)
    as (st' & Hrun & ids & Hh & Hr & Hids).
  exists st', ids. split; [done|]. split; [|split].
  - split; [done|]. intros i. rewrite Hr. apply lookup_foldr_delete.
  - intros i Hi. destruct (Hids i Hi) as (w & Hw & Hid & Hq).
    exists w. split; [done|]. split; [done|]. by apply retention_query_matches.
  - intros w Hw. rewrite Hh in Hw. by apply list_elem_of_filter in Hw as [_ Hw].
Qed.

(** X19: when the documents have distinct identifiers and the works to
    delete fit in one page (at most 500), [deleteOldCompletedWorks]
    deletes exactly the complete works of the connector whose
    [completed_time] is at or before the horizon: the index is left with
    the other works, in their order; the counters of the deleted works
    are gone and those of the other works are kept. *)
Theorem deleteOldCompletedWorks_exact_within_one_page clk connector st :
  unique_ids st ->
  (length (filter (fun w => query_matches clk (retention_query connector) w = true)
             (history st)) <= paginationCount)%nat ->
  exists st',
    deleteOldCompletedWorks clk connector st = (Ok tt, st') /\
    history st' `sublist_of` history st /\
    forall w, w ∈ history st ->
      let expired :=
        connector_id w = Connector.id connector /\
        status w = Complete /\
        exists t, completed_time w = Some t /\
                  t <= date_math clk (rangeToKeep connector) in
      (w ∈ history st' <-> ~ expired) /\
      (expired -> redis st' !! internal_id w = None) /\
      (~ expired -> redis st' !! internal_id w = redis st !! internal_id w).
Proof.
  intros Hnd Hlen.
  destruct (deleteOldCompletedWorks_one_page clk connector st Hlen)
    as (st' & Hrun & Hall).
  destruct (deleteOldCompletedWorks_returns clk connector st)
    as (st2 & Hrun2 & ids & Hh & Hr & Hids).
  rewrite Hrun in Hrun2. injection Hrun2 as <-.
  assert (forall w, w ∈ history st ->
            internal_id w ∉ ids <->
            ~ query_matches clk (retention_query connector) w = true) as Hiff.
  { intros w Hw. split.
    - intros Hout. rewrite (Hall w); [done|]. rewrite Hh. by apply list_elem_of_filter.
    - intros Hno Hin. destruct (Hids _ Hin) as (w2 & Hw2 & Hid & Hq).
      apply Hno. by rewrite <- (NoDup_fmap_eq internal_id (history st) w2 w Hnd Hw2 Hw Hid). }
  exists st'. split; [done|]. split.
  - rewrite Hh. apply sublist_filter.
  - intros w Hw expired. subst expired.
    rewrite <- retention_query_matches.
    pose proof (Hiff w Hw) as Hw'.
    split; [|split].
    + rewrite <- Hw', Hh, list_elem_of_filter. tauto.
    + intros Hq. rewrite Hr, lookup_foldr_delete.
      destruct (decide (internal_id w ∈ ids)) as [?|Hout]; [done|].
      by apply Hw' in Hout.
    + intros Hq. rewrite Hr, lookup_foldr_delete.
      apply Hw' in Hq. by rewrite decide_False.
Qed.

(** X20: on an index whose documents have distinct identifiers,
    [deleteWorkForFile] deletes no work of another source: such a work
    keeps its record and its counters. *)
Theorem deleteWorkForFile_spares_other_sources fileId st :
  unique_ids st ->
  exists st',
    deleteWorkForFile fileId st = (Ok true, st') /\
    forall w, w ∈ history st -> event_source_id w <> fileId ->
      w ∈ history st' /\ redis st' !! internal_id w = redis st !! internal_id w.
Proof.
  intros Hnd.
  destruct (deleteWorkForFile_run fileId st) as (st' & Hrun & Hh & Hr).
  exists st'. split; [done|]. intros w Hw Hsrc.
  assert (internal_id w ∉ internal_id <$>
            take 10 (sort_desc "timestamp"
                       (filter (fun w => event_source_id w = fileId) (history st))))
    as Hout.
  { intros Hin. apply list_elem_of_fmap in Hin as (w2 & Hid & Hw2).
    apply elem_of_take_inv, elem_of_sort_desc, list_elem_of_filter in Hw2 as [Hsrc2 Hw2].
    apply Hsrc. rewrite (NoDup_fmap_eq internal_id (history st) w w2 Hnd Hw Hw2 Hid).
    done. }
  split.
  - rewrite Hh. by apply list_elem_of_filter.
  - rewrite Hr. by rewrite decide_False.
Qed.



(** ** Scenarios for the further properties *)

Lemma unique_ids_counting_stores : unique_ids counting_stores.
Proof. apply (bool_decide_unpack _). by vm_compute. Qed.

Lemma unique_ids_three_works : unique_ids three_works.
Proof. apply (bool_decide_unpack _). by vm_compute. Qed.

Lemma paired_counting_stores : paired counting_stores.
Proof.
  intros i. destruct (decide (i = "work-1")) as [->|Hi].
  - split; intros _; by eexists.
  - unfold counting_stores. cbn [history redis].
    rewrite lookup_work_cons.
    rewrite decide_False by (intros E; apply Hi; symmetry; exact E).
    rewrite lookup_singleton_ne by (intros E; apply Hi; symmetry; exact E).
    split; intros [x Hx]; discriminate.
Qed.

Lemma sample_reports_are_reports : Forall is_report sample_reports.
Proof. unfold sample_reports. repeat constructor. Qed.

Lemma sample_reports_issue_nothing :
  Forall (fun op => ~ issues "work-1" op) sample_reports.
Proof. unfold sample_reports. repeat constructor; simpl; tauto. Qed.

(** A filter of the caller on another field of the document: of the
    eleven works of the source, all of one user, the listing filtered
    on that user returns the ten newest, and none for another user. *)
Lemma worksForSource_user_filter_scenario :
  let by_user u :=
    {| args_first := None;
       args_filters := Some [{| key := "user_id"; values := [u] |}];
       args_type := None |} in
  (exists works,
     eval (worksForSource "src1" (by_user "user-1")) eleven_works = Ok works /\
     length works = 10%nat /\
     Forall (fun w => user_id w = "user-1") works) /\
  eval (worksForSource "src1" (by_user "user-2")) eleven_works = Ok [].
Proof.
  split; [|by vm_compute].
  eexists. split; [vm_compute; reflexivity|]. split; [reflexivity|].
  repeat constructor.
Qed.

(** Filters of the caller on the status and on the completion instant:
    the works of the connector completed at the instant 3. *)
Lemma worksForConnector_status_filter_scenario :
  exists w args',
    worksForConnector "connector-1"
      {| cargs_first := None;
         cargs_filters := Some [{| key := "status"; values := ["complete"] |};
                                {| key := "completed_time"; values := ["3"] |}] |}
      eleven_works = (Ok ([w], args'), eleven_works) /\
    internal_id w = "work-3".
Proof. eexists _, _. split; [vm_compute; reflexivity|]. reflexivity. Qed.

Lemma worksForConnector_reused_args_list_nothing_witness :
  "connector-1" <> "connector-2" /\
  exists works1 args1 args2,
    worksForConnector "connector-1"
      {| cargs_first := None; cargs_filters := Some [] |} three_works =
      (Ok (works1, args1), three_works) /\
    cargs_filters args1 = Some [{| key := "connector_id"; values := ["connector-1"] |}] /\
    worksForConnector "connector-2" args1 three_works = (Ok ([], args2), three_works).
Proof.
  split; [discriminate|].
  apply (worksForConnector_reused_args_list_nothing "connector-1" "connector-2"
           None [] three_works).
  discriminate.
Defined.

Lemma updateReceivedTime_effect_witness :
  lookup_work "work-1" (history counting_stores) = Some waiting_work /\
  exists w',
    lookup_work "work-1"
      (history (exec (updateReceivedTime sample_clock sample_user "work-1"
                        (Some "received")) counting_stores)) = Some w' /\
    status w' = Progress /\
    received_time w' = Some 1000 /\
    messages w' = [{| log_timestamp := 1000; log_message := "received";
                      log_source := None |}].
Proof.
  split; [reflexivity|].
  destruct (updateReceivedTime_effect sample_clock sample_user "work-1"
              (Some "received") counting_stores waiting_work eq_refl)
    as (script & w' & _ & Hw' & _ & Hs & Hr & Hmsg & _).
  exists w'. split; [done|]. split; [done|]. split; [done|].
  by rewrite (Hmsg "received" eq_refl ltac:(discriminate)).
Defined.

Lemma reportActionImport_on_missing_record_witness :
  lookup_work "work-1" (history orphan_counters) = None /\
  redis orphan_counters !! "work-1" = Some three_expected /\
  exists st1 t1,
    reportActionImport sample_clock sample_user "work-1" None orphan_counters =
      (Ok "work-1", st1) /\
    history st1 = [] /\
    redis st1 !! "work-1" = Some t1 /\
    WorkTracing.import_processed_number t1 = 1.
Proof.
  split; [reflexivity|]. split; [reflexivity|].
  destruct (reportActionImport_on_missing_record sample_clock sample_user "work-1"
              None orphan_counters three_expected eq_refl eq_refl)
    as (st1 & t1 & Hh & Ht1 & Hp & _ & _ & Hok).
  exists st1, t1. split; [|done].
  apply Hok; [reflexivity|]. cbn. lia.
Defined.

Lemma updateProcessedTime_finalizes_on_equal_doubles_witness :
  lookup_work "work-1" (history counting_stores) = Some waiting_work /\
  redis counting_stores !! "work-1" = Some three_expected /\
  exists w',
    lookup_work "work-1"
      (history (exec (updateProcessedTime sample_clock sample_user "work-1" None false)
                  counting_stores)) = Some w' /\
    processed_time w' = Some 1000 /\
    status w' = Wait.
Proof.
  split; [reflexivity|]. split; [reflexivity|].
  destruct (updateProcessedTime_finalizes_on_equal_doubles sample_clock sample_user
              "work-1" None false counting_stores waiting_work three_expected
              eq_refl eq_refl)
    as (w' & Hw' & Hp & _ & _ & _ & Hkeep).
  exists w'. split; [done|]. split; [done|].
  destruct Hkeep as (Hs & _); [cbn; lia ..|cbn; discriminate|].
  by rewrite Hs.
Defined.

(** Beyond 2^53 two different counters can be one double: with
    9007199254740992 processed of 9007199254740993 expected,
    [updateProcessedTime] finalizes the work. *)
Lemma updateProcessedTime_rounds_large_counters :
  exists w',
    lookup_work "work-1"
      (history (exec (updateProcessedTime sample_clock sample_user "work-1" None false)
                  rounding_stores)) = Some w' /\
    status w' = Complete /\
    completed_number w' = Some 9007199254740992.
Proof. eexists. split; [vm_compute; reflexivity|]. by split. Qed.

Lemma deleteWork_removes_record_and_counters_witness :
  lookup_work "work-1" (history counting_stores) = Some waiting_work /\
  exists st',
    deleteWork "work-1" counting_stores = (Ok (Some "work-1"), st') /\
    lookup_work "work-1" (history st') = None /\
    redis st' !! "work-1" = None.
Proof.
  split; [reflexivity|].
  destruct (deleteWork_removes_record_and_counters "work-1" counting_stores
              waiting_work eq_refl)
    as (st' & Hrun & Hh & Hr & _).
  by exists st'.
Defined.

Lemma commands_keep_unique_ids_witness :
  unique_ids counting_stores /\
  unique_ids (commands sample_commands counting_stores).
Proof.
  split; [exact unique_ids_counting_stores|].
  apply (commands_keep_unique_ids sample_commands counting_stores).
  exact unique_ids_counting_stores.
Defined.

Lemma commands_keep_paired_witness :
  paired counting_stores /\
  reports_on_counted_works sample_commands counting_stores /\
  paired (commands sample_commands counting_stores).
Proof.
  assert (reports_on_counted_works sample_commands counting_stores) as Hguard.
  { unfold sample_commands. cbn [reports_on_counted_works].
    split; [done|]. split; [|done].
    apply (bool_decide_unpack _). by vm_compute. }
  split; [exact paired_counting_stores|]. split; [exact Hguard|].
  apply (commands_keep_paired sample_commands counting_stores).
  - exact paired_counting_stores.
  - exact Hguard.
Defined.

Lemma logs_only_grow_witness :
  lookup_work "work-1" (history counting_stores) = Some waiting_work /\
  Forall (fun op => ~ issues "work-1" op) sample_reports /\
  exists w',
    lookup_work "work-1" (history (calls sample_reports counting_stores)) = Some w' /\
    messages waiting_work `prefix_of` messages w' /\
    errors waiting_work `prefix_of` errors w'.
Proof.
  split; [reflexivity|]. split; [exact sample_reports_issue_nothing|].
  eexists. split; [vm_compute; reflexivity|].
  eapply (logs_only_grow "work-1" sample_reports counting_stores);
    [reflexivity|vm_compute; reflexivity|exact sample_reports_issue_nothing].
Defined.

Lemma identity_fields_never_change_witness :
  lookup_work "work-1" (history counting_stores) = Some waiting_work /\
  Forall (fun op => ~ issues "work-1" op) sample_reports /\
  exists w',
    lookup_work "work-1" (history (calls sample_reports counting_stores)) = Some w' /\
    timestamp w' = timestamp waiting_work /\
    connector_id w' = connector_id waiting_work.
Proof.
  split; [reflexivity|]. split; [exact sample_reports_issue_nothing|].
  destruct (lookup_work "work-1" (history (calls sample_reports counting_stores)))
    as [w'|] eqn:Hl; [|vm_compute in Hl; discriminate].
  exists w'. split; [done|].
  destruct (identity_fields_never_change "work-1" sample_reports counting_stores
              waiting_work w' eq_refl Hl sample_reports_issue_nothing)
    as (_ & Ht & _ & _ & _ & _ & Hc).
  done.
Defined.

Lemma reports_leave_other_works_witness :
  is_report (ReportAction sample_clock sample_user "work-1" None) /\
  forall i, i <> "work-1" ->
    lookup_work i (history (call (ReportAction sample_clock sample_user "work-1" None)
                              counting_stores)) =
      lookup_work i (history counting_stores) /\
    redis (call (ReportAction sample_clock sample_user "work-1" None) counting_stores) !! i =
      redis counting_stores !! i.
Proof.
  split; [exact I|].
  exact (proj1 (reports_leave_other_works
                  (ReportAction sample_clock sample_user "work-1" None)
                  counting_stores I)).
Defined.

Lemma processed_counts_action_reports_witness :
  Forall is_report sample_reports /\
  redis counting_stores !! "work-1" = Some three_expected /\
  exists t',
    redis (calls sample_reports counting_stores) !! "work-1" = Some t' /\
    WorkTracing.import_expected_number t' = 3 /\
    WorkTracing.import_processed_number t' = 3.
Proof.
  split; [exact sample_reports_are_reports|]. split; [reflexivity|].
  exact (processed_counts_action_reports "work-1" sample_reports counting_stores
           three_expected sample_reports_are_reports eq_refl).
Defined.

Lemma action_reports_complete_at_expected_count_witness :
  lookup_work "work-1" (history counting_stores) = Some waiting_work /\
  redis counting_stores !! "work-1" = Some three_expected /\
  Forall (is_action_on "work-1") three_reports /\
  exists w',
    lookup_work "work-1" (history (calls three_reports counting_stores)) = Some w' /\
    status w' = Complete /\
    completed_number w' = Some 3.
Proof.
  assert (Forall (is_action_on "work-1") three_reports) as Hall.
  { unfold three_reports. cbn [replicate]. repeat constructor. }
  split; [reflexivity|]. split; [reflexivity|]. split; [exact Hall|].
  destruct (action_reports_complete_at_expected_count "work-1" three_reports
              counting_stores waiting_work three_expected eq_refl eq_refl Hall)
    as (w' & Hw' & Hif).
  exists w'. split; [done|].
  destruct (decide _) as [_|Hno] in Hif; [done|].
  exfalso. apply Hno. cbn. lia.
Defined.

Lemma deleteOldCompletedWorks_exact_within_one_page_witness :
  unique_ids three_works /\
  (length (filter (fun w => query_matches sample_clock (retention_query sample_connector) w
                            = true)
             (history three_works)) <= paginationCount)%nat /\
  exists st',
    deleteOldCompletedWorks sample_clock sample_connector three_works = (Ok tt, st') /\
    history st' `sublist_of` history three_works.
Proof.
  assert (length (filter (fun w => query_matches sample_clock
                                     (retention_query sample_connector) w = true)
                    (history three_works)) <= paginationCount)%nat as Hlen.
  { apply Nat.leb_le. vm_compute. reflexivity. }
  split; [exact unique_ids_three_works|]. split; [exact Hlen|].
  destruct (deleteOldCompletedWorks_exact_within_one_page sample_clock sample_connector
              three_works unique_ids_three_works Hlen)
    as (st' & Hrun & Hsub & _).
  by exists st'.
Defined.

Lemma deleteWorkForFile_spares_other_sources_witness :
  unique_ids three_works /\
  exists st',
    deleteWorkForFile "src2" three_works = (Ok true, st') /\
    forall w, w ∈ history three_works -> event_source_id w <> "src2" ->
      w ∈ history st' /\
      redis st' !! internal_id w = redis three_works !! internal_id w.
Proof.
  split; [exact unique_ids_three_works|].
  exact (deleteWorkForFile_spares_other_sources "src2" three_works
           unique_ids_three_works).
Defined.


Lemma deleteWorkForFile_up_to_ten_witness :
  (length (filter (fun w => event_source_id w = "src1") (history three_works)) <= 10)%nat /\
  exists st',
    deleteWorkForFile "src1" three_works = (Ok true, st') /\
    forall w, w ∈ history st' -> event_source_id w <> "src1".
Proof.
  assert (length (filter (fun w => event_source_id w = "src1") (history three_works))
          <= 10)%nat as Hlen.
  { apply Nat.leb_le. vm_compute. reflexivity. }
  split; [exact Hlen|].
  destruct (deleteWorkForFile_up_to_ten "src1" three_works Hlen) as (st' & Hrun & Hh & _).
  by exists st'.
Defined.

Lemma deleteOldCompletedWorks_only_expired_witness :
  NoDup (internal_id <$> history three_works) /\
  exists st',
    deleteOldCompletedWorks sample_clock sample_connector three_works = (Ok tt, st') /\
    forall w, w ∈ history three_works -> w ∉ history st' ->
      connector_id w = "connector-1" /\ status w = Complete.
Proof.
  split; [exact unique_ids_three_works|].
  destruct (deleteOldCompletedWorks_only_expired sample_clock sample_connector
              three_works unique_ids_three_works)
    as (st' & Hrun & Hall).
  exists st'. split; [done|]. intros w Hw Hgone.
  destruct (Hall w Hw Hgone) as (Hc & Hs & _). done.
Defined.

(** * The schema of the cyber observables *)

Lemma forallb_elem {A} (p : A -> bool) (l : list A) x :
  forallb p l = true -> x ∈ l -> p x = true.
Proof.
  induction l as [|a l IH]; cbn [forallb]; intros Hall Hx.
  - by apply elem_of_nil in Hx.
  - apply andb_true_iff in Hall as [Ha Hl].
    apply elem_of_cons in Hx as [->|Hx]; [done|by apply IH].
Qed.

Lemma included_by_check (l1 l2 : list string) :
  forallb (fun x => bool_decide (x ∈ l2)) l1 = true ->
  forall x, x ∈ l1 -> x ∈ l2.
Proof.
  intros Hall x Hx.
  pose proof (forallb_elem _ _ _ Hall Hx) as Hp. cbv beta in Hp.
  by apply bool_decide_eq_true in Hp.
Qed.

Lemma js_get_Some {V} (obj : JsObject V) key v :
  js_get obj key = Some v -> (key, v) ∈ obj.
Proof.
  induction obj as [|[k x] rest IH]; cbn [js_get]; [done|].
  destruct (js_get rest key) as [v'|].
  - intros [= ->]. right. by apply IH.
  - destruct (decide (k = key)) as [->|]; [|done]. intros [= ->]. left.
Qed.

Lemma js_get_is_Some {V} (obj : JsObject V) key :
  is_Some (js_get obj key) <-> key ∈ obj.*1.
Proof.
  induction obj as [|[k x] rest IH]; cbn [js_get fmap list_fmap fst].
  - split; [by intros [? ?]|]. intros H. by apply elem_of_nil in H.
  - rewrite elem_of_cons, <- IH.
    destruct (js_get rest key) as [v'|].
    + split; [right|]; by eexists.
    + destruct (decide (k = key)) as [->|Hne].
      * split; [by left|by eexists].
      * split; [by intros [? ?]|]. intros [->|[? ?]]; done.
Qed.

(** X24: every hashed observable type is an observable type: a type
    that [isStixCyberObservableHashedObservable] accepts is accepted by
    [isStixCyberObservable], whatever the name of the abstract type. *)
Theorem hashed_observable_is_observable abstract type :
  isStixCyberObservableHashedObservable type = true ->
  isStixCyberObservable abstract type = true.
Proof.
  unfold isStixCyberObservableHashedObservable, isStixCyberObservable.
  rewrite bool_decide_eq_true. intros Hin.
  apply orb_true_iff. left. apply bool_decide_eq_true.
  revert type Hin. apply included_by_check. by vm_compute.
Qed.

(** X25: the two tables of the schema are keyed by the observable
    types: a type has an entry in [stixCyberObservablesAttributes], and
    one in [stixCyberObservableFieldsToBeUpdated], exactly when it is
    listed in [STIX_CYBER_OBSERVABLES]. *)
Theorem schema_tables_cover_observable_types type :
  (type ∈ STIX_CYBER_OBSERVABLES <->
   is_Some (js_get stixCyberObservablesAttributes type)) /\
  (type ∈ STIX_CYBER_OBSERVABLES <->
   is_Some (js_get stixCyberObservableFieldsToBeUpdated type)).
Proof.
  rewrite !js_get_is_Some. split; split; revert type;
    apply included_by_check; by vm_compute.
Qed.

(** X26: the attributes registered for a type are the ten internal
    attributes followed by the fields that may be updated for the type,
    in the same order. Hence a field that may be updated is always an
    attribute of its type, and none of the internal attributes may be
    updated. *)
Theorem attributes_are_internal_then_updatable type attrs :
  js_get stixCyberObservablesAttributes type = Some attrs ->
  exists fields,
    js_get stixCyberObservableFieldsToBeUpdated type = Some fields /\
    attrs = ["internal_id"; "standard_id"; "entity_type"; "x_opencti_stix_ids";
             "spec_version"; "created_at"; "i_created_at_day"; "i_created_at_month";
             "i_created_at_year"; "updated_at"] ++ fields /\
    (forall f, f ∈ fields -> f ∈ attrs) /\
    NoDup attrs.
Proof.
  intros Hget. apply js_get_Some in Hget.
  set (internal := ["internal_id"; "standard_id"; "entity_type"; "x_opencti_stix_ids";
                    "spec_version"; "created_at"; "i_created_at_day";
                    "i_created_at_month"; "i_created_at_year"; "updated_at"]).
  set (check := fun kv : string * list string =>
         match js_get stixCyberObservableFieldsToBeUpdated kv.1 with
         | Some fields =>
             bool_decide (kv.2 = internal ++ fields) && bool_decide (NoDup kv.2)
         | None => false
         end).
  assert (forallb check stixCyberObservablesAttributes = true) as Hall
    by (by vm_compute).
  pose proof (forallb_elem _ _ _ Hall Hget) as Hc.
  unfold check in Hc. cbn [fst snd] in Hc.
  destruct (js_get stixCyberObservableFieldsToBeUpdated type) as [fields|]; [|done].
  apply andb_true_iff in Hc as [Heq Hnd].
  apply bool_decide_eq_true in Heq. apply bool_decide_eq_true in Hnd.
  exists fields. split; [done|]. split; [done|]. split; [|done].
  intros f Hf. rewrite Heq. apply elem_of_app. by right.
Qed.

(** X27: only hashed observables carry hashes: a type whose registered
    attributes include 'hashes' is accepted by
    [isStixCyberObservableHashedObservable]. *)
Theorem hashes_attribute_only_on_hashed_observables type attrs :
  js_get stixCyberObservablesAttributes type = Some attrs ->
  "hashes" ∈ attrs ->
  isStixCyberObservableHashedObservable type = true.
Proof.
  intros Hget Hin. apply js_get_Some in Hget.
  set (check := fun kv : string * list string =>
         implb (bool_decide ("hashes" ∈ kv.2))
               (isStixCyberObservableHashedObservable kv.1)).
  assert (forallb check stixCyberObservablesAttributes = true) as Hall
    by (by vm_compute).
  pose proof (forallb_elem _ _ _ Hall Hget) as Hc.
  unfold check in Hc. cbn [fst snd] in Hc.
  rewrite (bool_decide_eq_true_2 _ Hin) in Hc. exact Hc.
Qed.

Lemma hashed_observable_is_observable_witness :
  isStixCyberObservableHashedObservable "StixFile" = true /\
  isStixCyberObservable "Stix-Cyber-Observable" "StixFile" = true.
Proof.
  split; [by vm_compute|].
  apply (hashed_observable_is_observable "Stix-Cyber-Observable" "StixFile").
  by vm_compute.
Defined.

Lemma attributes_are_internal_then_updatable_witness :
  js_get stixCyberObservablesAttributes "Mutex" =
    Some ["internal_id"; "standard_id"; "entity_type"; "x_opencti_stix_ids";
          "spec_version"; "created_at"; "i_created_at_day"; "i_created_at_month";
          "i_created_at_year"; "updated_at"; "x_opencti_description";
          "x_opencti_score"; "name"] /\
  exists fields,
    js_get stixCyberObservableFieldsToBeUpdated "Mutex" = Some fields /\
    forall f, f ∈ fields -> f ∈ ["internal_id"; "standard_id"; "entity_type";
          "x_opencti_stix_ids"; "spec_version"; "created_at"; "i_created_at_day";
          "i_created_at_month"; "i_created_at_year"; "updated_at";
          "x_opencti_description"; "x_opencti_score"; "name"].
Proof.
  split; [by vm_compute|].
  destruct (attributes_are_internal_then_updatable "Mutex" _ eq_refl)
    as (fields & Hf & _ & Hsub & _).
  by exists fields.
Defined.

Lemma hashes_attribute_only_on_hashed_observables_witness :
  (exists attrs, js_get stixCyberObservablesAttributes "Artifact" = Some attrs /\
                 "hashes" ∈ attrs) /\
  isStixCyberObservableHashedObservable "Artifact" = true.
Proof.
  assert ("hashes" ∈ ["internal_id"; "standard_id"; "entity_type"; "x_opencti_stix_ids";
            "spec_version"; "created_at"; "i_created_at_day"; "i_created_at_month";
            "i_created_at_year"; "updated_at"; "x_opencti_description";
            "x_opencti_score"; "hashes"; "payload_bin"; "url"; "encryption_algorithm";
            "decryption_key"]) as Hin.
  { apply (bool_decide_unpack _). by vm_compute. }
  split; [eexists; split; [by vm_compute|exact Hin]|].
  exact (hashes_attribute_only_on_hashed_observables "Artifact" _ eq_refl Hin).
Defined.
